(** * Sparse tensors over a fixed basis: a shallow embedding of
      [generalrelativity.py] and the properties of its operations.

    Python integers are modelled by [Z]; tuples of integers by [list Z];
    the scalars stored in a tensor by [Z] (the code only ever adds them and
    compares them, starting every sum from the integer [0]); a dict by an
    insertion-ordered association list with unique keys; a raised exception by
    the [Raise] case of [result].  What the code writes with [print] is not
    modelled. *)

From Stdlib Require Import Strings.String.
From Stdlib Require Import ZArith List Bool Lia Permutation.
From Stdlib Require Import Sorting.Sorted.
Import ListNotations.
Local Open Scope Z_scope.

(** ** Values used as indices *)

(** What the code passes around as a (candidate) multi-index: a bare integer,
    [None], or a tuple of integers. *)
Inductive index : Type :=
| IInt (k : Z)
| INone
| ITuple (t : list Z).

Definition index_eq_dec (a b : index) : {a = b} + {a <> b}.
Proof.
  decide equality; try apply Z.eq_dec. apply (list_eq_dec Z.eq_dec).
Defined.

(** A dict key of a tensor: the pair [(a, b)]. *)
Abbreviation key := (index * index)%type (only parsing).

Definition key_eq_dec (k1 k2 : key) : {k1 = k2} + {k1 <> k2}.
Proof. decide equality; apply index_eq_dec. Defined.

Definition key_eqb (k1 k2 : key) : bool :=
  if key_eq_dec k1 k2 then true else false.

(** ** Exceptions *)

(** The texts of the exceptions, one constructor per [format] string of the
    source (with the values that fill its holes), and the reasons for which the
    interpreter itself raises. *)
Inductive message : Type :=
| Inconsistent_with_dimension (m : index) (d : Z)
| Inconsistent_with_dimensions (m : index) (d : Z)
| Problem_with_multiindices (a b : Z)
| Wrong_pair_of_multiindices (a b : index)
| Cannot_add_tensor_with (type_name : string)
| Same_type_and_basis
| Dimension_less_than_one (ty : Z * Z)
| Contravariant_slot (i d : Z)
| Covariant_slot (j d : Z)
| Has_no_len
| Not_subscriptable
| Not_iterable
| No_attribute (name : string)
| Key_not_found (a b : index)
| Index_out_of_range.

Inductive exn : Type :=
| ValueError (m : message)
| KeyError (m : message)
| TypeError (m : message)
| AttributeError (m : message)
| IndexError (m : message).

Inductive result (A : Type) : Type :=
| Ok (a : A)
| Raise (e : exn).
Arguments Ok {A} a.
Arguments Raise {A} e.

Definition bind {A B : Type} (c : result A) (k : A -> result B) : result B :=
  match c with
  | Ok a => k a
  | Raise e => Raise e
  end.

Notation "x <- c ;; k" := (bind c (fun x => k))
  (at level 61, c at next level, right associativity).

(** A [for] loop whose body may raise: the state is threaded through the
    elements in order and the first exception ends the loop. *)
Fixpoint for_each {A S : Type} (l : list A) (body : A -> S -> result S) (s : S)
  : result S :=
  match l with
  | [] => Ok s
  | x :: l' => s' <- body x s ;; for_each l' body s'
  end.

(** Iterating over the value a function returned: [for a in None] raises. *)
Definition iter {A : Type} (o : option (list A)) : result (list A) :=
  match o with
  | Some l => Ok l
  | None => Raise (TypeError Not_iterable)
  end.

(** ** Multi-index utilities *)

(** [range(n)] *)
Definition range (n : Z) : list Z := map Z.of_nat (seq 0 (Z.to_nat n)).

(** [itertools.product] over a list of pools, as the library documents it: starting from the
    single empty tuple, every pool in turn extends every partial tuple on the
    right. *)
Definition product_step (result : list (list Z)) (pool : list Z) : list (list Z) :=
  flat_map (fun x => map (fun y => x ++ [y]) pool) result.

Definition product (pools : list (list Z)) : list (list Z) :=
  fold_left product_step pools [[]].

(** [itertools.product(range(n), repeat=p)] *)
Definition product_repeat (n p : Z) : list (list Z) :=
  product (repeat (range n) (Z.to_nat p)).

(** [get_all_multiindices(p, n)]; the result is [None] when no [return] is
    reached. *)
Definition get_all_multiindices (p n : Z) : option (list index) :=
  if p =? 0 then Some [INone]
  else if p =? 1 then Some (map (fun k => ITuple [k]) (range n))
  else if p >? 1 then Some (map ITuple (product_repeat n p))
  else None.

(** [is_multiindex(multiindex, n, c_dimension)]; [len] of an integer raises. *)
Definition is_multiindex (multiindex : index) (n c_dimension : Z) : result bool :=
  match multiindex with
  | INone => Ok (c_dimension =? 0)
  | IInt _ => Raise (TypeError Has_no_len)
  | ITuple t =>
      if negb (Z.of_nat (List.length t) =? c_dimension) then Ok false
      else Ok (forallb (fun value => negb ((value <? 0) || (value >=? n))) t)
  end.

(** The tuple an index stands for: the empty marker stands for the empty
    tuple, an integer for the singleton. *)
Definition entries (a : index) : list Z :=
  match a with
  | IInt k => [k]
  | INone => []
  | ITuple t => t
  end.

(** Lexicographic order on tuples, the first coordinate the most significant
    one (so that the last coordinate runs fastest along a sorted list). *)
Fixpoint lex_ltb (xs ys : list Z) : bool :=
  match xs, ys with
  | [], [] => false
  | [], _ :: _ => true
  | _ :: _, [] => false
  | x :: xs', y :: ys' => (x <? y) || ((x =? y) && lex_ltb xs' ys')
  end.

Definition lex_lt (xs ys : list Z) : Prop := lex_ltb xs ys = true.

Definition in_range (n : Z) (t : list Z) : Prop := Forall (fun v => 0 <= v < n) t.

(** ** Dicts *)

(** A Python dict from keys to scalars: the entries in insertion order, no key
    twice. *)
Definition dict : Type := list (key * Z).

Definition dict_keys (d : dict) : list key := map fst d.

Fixpoint dict_get (k : key) (d : dict) : option Z :=
  match d with
  | [] => None
  | (k', v) :: d' => if key_eq_dec k k' then Some v else dict_get k d'
  end.

(** [k in d] *)
Definition dict_in (k : key) (d : dict) : bool :=
  match dict_get k d with
  | Some _ => true
  | None => false
  end.

(** [d[k]] *)
Definition dict_subscript (d : dict) (k : key) : result Z :=
  match dict_get k d with
  | Some v => Ok v
  | None => Raise (KeyError (Key_not_found (fst k) (snd k)))
  end.

(** [d[k] = v]: a key already present keeps its place, a new one goes last. *)
Fixpoint dict_set (k : key) (v : Z) (d : dict) : dict :=
  match d with
  | [] => [(k, v)]
  | (k', v') :: d' =>
      if key_eq_dec k k' then (k', v) :: d' else (k', v') :: dict_set k v d'
  end.

(** [d1 == d2]: the same keys with equal values, in whatever order. *)
Definition dict_eqb (d1 d2 : dict) : bool :=
  (List.length d1 =? List.length d2)%nat
  && forallb (fun kv => match dict_get (fst kv) d2 with
                        | Some v' => snd kv =? v'
                        | None => false
                        end) d1.

(** The idiom [d[k] if k in d else 0] of the lookups. *)
Definition value_or_zero (d : dict) (k : key) : Z :=
  match dict_get k d with
  | Some v => v
  | None => 0
  end.

(** ** Tensors *)

Definition len {A : Type} (l : list A) : Z := Z.of_nat (List.length l).

Record Tensor : Type := mkTensor {
  basis : list string;
  covariant_dim : Z;
  contravariant_dim : Z;
  type : Z * Z;
  dict_of_values : dict
}.

(** The body of the validation loop of [Tensor.__init__] for one key. *)
Definition check_key (n contravariant_dim covariant_dim : Z) (k : key) (_ : unit)
  : result unit :=
  let (a, b) := k in
  va <- is_multiindex a n contravariant_dim ;;
  if negb va then Raise (ValueError (Inconsistent_with_dimension a contravariant_dim))
  else
    vb <- is_multiindex b n covariant_dim ;;
    if negb vb then Raise (ValueError (Inconsistent_with_dimensions b covariant_dim))
    else Ok tt.

(** [Tensor.__init__(self, basis, _type, dict_of_values)] *)
Definition Tensor_init (basis : list string) (_type : Z * Z) (dict_of_values : dict)
  : result Tensor :=
  let covariant_dim := fst _type in
  let contravariant_dim := snd _type in
  _ <- for_each (dict_keys dict_of_values)
         (check_key (len basis) contravariant_dim covariant_dim) tt ;;
  Ok (mkTensor basis covariant_dim contravariant_dim _type dict_of_values).

(** [Tensor.__getitem__(self, pair)] with [pair = (a, b)]. *)
Definition getitem_multi (self : Tensor) (a b : index) : result Z :=
  va <- is_multiindex a (len (basis self)) (contravariant_dim self) ;;
  if va then
    match b with
    | IInt kb => Ok (value_or_zero (dict_of_values self) (a, ITuple [kb]))
    | _ =>
        vb <- is_multiindex b (len (basis self)) (covariant_dim self) ;;
        if vb then Ok (value_or_zero (dict_of_values self) (a, b))
        else Raise (KeyError (Wrong_pair_of_multiindices a b))
    end
  else Raise (KeyError (Wrong_pair_of_multiindices a b)).

Definition getitem (self : Tensor) (a b : index) : result Z :=
  match a with
  | IInt ka =>
      match b with
      | IInt kb =>
          va <- is_multiindex (ITuple [ka]) (len (basis self)) (contravariant_dim self) ;;
          vb <- (if va
                 then is_multiindex (ITuple [kb]) (len (basis self)) (covariant_dim self)
                 else Ok false) ;;
          if vb then Ok (value_or_zero (dict_of_values self) (ITuple [ka], ITuple [kb]))
          else Raise (KeyError (Problem_with_multiindices ka kb))
      | _ =>
          vb <- is_multiindex b (len (basis self)) (covariant_dim self) ;;
          if vb then Ok (value_or_zero (dict_of_values self) (ITuple [ka], b))
          else getitem_multi self a b
      end
  | _ => getitem_multi self a b
  end.

(** [Tensor.get_all_values(self)] *)
Definition get_all_values (self : Tensor) : result dict :=
  let dim := len (basis self) in
  let covariant_multiindices := get_all_multiindices (covariant_dim self) dim in
  let contravariant_multiindices := get_all_multiindices (contravariant_dim self) dim in
  la <- iter contravariant_multiindices ;;
  for_each la (fun a new_dict =>
    lb <- iter covariant_multiindices ;;
    for_each lb (fun b new_dict =>
      Ok (dict_set (a, b) (value_or_zero (dict_of_values self) (a, b)) new_dict))
      new_dict) [].

(** [tensor_from_matrix(matrix, basis)]; a matrix is the list of its rows, and
    an entry outside of it raises. *)
Definition matrix_entry (matrix : list (list Z)) (i j : Z) : result Z :=
  match nth_error matrix (Z.to_nat i) with
  | Some row =>
      match nth_error row (Z.to_nat j) with
      | Some v => Ok v
      | None => Raise (IndexError Index_out_of_range)
      end
  | None => Raise (IndexError Index_out_of_range)
  end.

Definition tensor_from_matrix (matrix : list (list Z)) (basis : list string)
  : result Tensor :=
  dict_of_values <-
    for_each (range (len matrix)) (fun i d =>
      for_each (range (len matrix)) (fun j d =>
        v <- matrix_entry matrix i j ;;
        Ok (dict_set (ITuple [i; j], INone) v d)) d) [] ;;
  Tensor_init basis (0, 2) dict_of_values.

Record Metric : Type := mkMetric {
  matrix : list (list Z);
  metric_basis : list string;
  as_tensor : Tensor
}.

(** [Metric.__init__(self, _matrix, basis)] *)
Definition Metric_init (_matrix : list (list Z)) (basis : list string) : result Metric :=
  t <- tensor_from_matrix _matrix basis ;;
  Ok (mkMetric _matrix basis t).

(** ** The other operand of [==] and [+] *)

(** The values a tensor can meet as the right operand: numbers and strings,
    which have none of the attributes the operators read, the tensors, and the
    metrics, which have a [basis] and nothing else the operators read. *)
Inductive object : Type :=
| OInt (z : Z)
| OStr (s : string)
| OTensor (t : Tensor)
| OMetric (m : Metric).

Definition type_name (o : object) : string :=
  match o with
  | OInt _ => "int"
  | OStr _ => "str"
  | OTensor _ => "Tensor"
  | OMetric _ => "Metric"
  end.

(** [other.basis], [other.type] and [other.get_all_values()] *)
Definition attr_basis (o : object) : result (list string) :=
  match o with
  | OTensor t => Ok (basis t)
  | OMetric m => Ok (metric_basis m)
  | _ => Raise (AttributeError (No_attribute "basis"))
  end.

Definition attr_type (o : object) : result (Z * Z) :=
  match o with
  | OTensor t => Ok (type t)
  | _ => Raise (AttributeError (No_attribute "type"))
  end.

Definition call_get_all_values (o : object) : result dict :=
  match o with
  | OTensor t => get_all_values t
  | _ => Raise (AttributeError (No_attribute "get_all_values"))
  end.

Definition basis_eqb (b1 b2 : list string) : bool :=
  if list_eq_dec string_dec b1 b2 then true else false.

Definition type_eqb (t1 t2 : Z * Z) : bool :=
  (fst t1 =? fst t2) && (snd t1 =? snd t2).

(** [Tensor.__eq__(self, other)] *)
Definition Tensor_eq (self : Tensor) (other : object) : result bool :=
  other_basis <- attr_basis other ;;
  if basis_eqb (basis self) other_basis then
    other_type <- attr_type other ;;
    if type_eqb (type self) other_type then
      mine <- get_all_values self ;;
      theirs <- call_get_all_values other ;;
      if dict_eqb mine theirs then Ok true else Ok false
    else Ok false
  else Ok false.

(** The body of the loop of [Tensor.__add__] for one key of [other]. *)
Definition add_key (other_dict : dict) (k : key) (result_dict : dict) : result dict :=
  d1 <- (if dict_in k result_dict
         then x <- dict_subscript result_dict k ;;
              y <- dict_subscript other_dict k ;;
              Ok (dict_set k (x + y) result_dict)
         else Ok result_dict) ;;
  if negb (dict_in k d1)
  then y <- dict_subscript other_dict k ;; Ok (dict_set k y d1)
  else Ok d1.

(** [Tensor.__add__(self, other)] *)
Definition Tensor_add (self : Tensor) (other : object) : result Tensor :=
  match other with
  | OTensor o =>
      if negb (basis_eqb (basis o) (basis self)) || negb (type_eqb (type o) (type self))
      then Raise (ValueError Same_type_and_basis)
      else
        result_dict <- for_each (dict_keys (dict_of_values o))
                         (add_key (dict_of_values o)) (dict_of_values self) ;;
        Tensor_init (basis self) (type self) result_dict
  | _ => Raise (ValueError (Cannot_add_tensor_with (type_name other)))
  end.

(** ** Contraction *)

(** Where a slice bound [i] falls in a tuple of length [n]: a negative bound
    counts from the end, and [firstn] and [skipn] clip a bound past the end. *)
Definition slice_bound (n i : Z) : nat :=
  Z.to_nat (if i <? 0 then Z.max 0 (n + i) else i).

(** [a[:i] + (r, ) + a[i:]]; only a tuple can be sliced. *)
Definition extend (a : index) (i r : Z) : result index :=
  match a with
  | ITuple t =>
      let k := slice_bound (len t) i in
      Ok (ITuple ((firstn k t ++ [r]) ++ skipn k t))
  | _ => Raise (TypeError Not_subscriptable)
  end.

(** [contract_indices(tensor, i, j)] *)
Definition contract_indices (tensor : Tensor) (i j : Z) : result Tensor :=
  let dim := len (basis tensor) in
  let covariant_dim := covariant_dim tensor in
  let contravariant_dim := contravariant_dim tensor in
  if (covariant_dim <? 1) || (contravariant_dim <? 1)
  then Raise (ValueError (Dimension_less_than_one (type tensor)))
  else if (i <? 0) || (i >=? contravariant_dim)
  then Raise (ValueError (Contravariant_slot i (contravariant_dim - 1)))
  else if (j <? 0) || (j >=? covariant_dim)
  then Raise (ValueError (Covariant_slot j (covariant_dim - 1)))
  else
    let covariant_indices := get_all_multiindices (covariant_dim - 1) dim in
    let contravariant_indices := get_all_multiindices (contravariant_dim - 1) dim in
    la <- iter contravariant_indices ;;
    new_tensor_dict <-
      for_each la (fun a d =>
        lb <- iter covariant_indices ;;
        for_each lb (fun b d =>
          sumand <- for_each (range dim) (fun r sumand =>
                      a_extended <- extend a i r ;;
                      b_extended <- extend b j r ;;
                      v <- getitem tensor a_extended b_extended ;;
                      Ok (sumand + v)) 0 ;;
          Ok (dict_set (a, b) sumand d)) d) [] ;;
    Tensor_init (basis tensor) (contravariant_dim - 1, covariant_dim - 1) new_tensor_dict.

(** ** Addition on dict objects *)

(** The dicts of a program are objects: a store lists them, a reference is a
    position in it, and a tensor object holds a reference to its dict.  A
    computation takes the store and leaves a result or an exception with the
    store as it is then. *)
Definition store : Type := list dict.

Definition stateful (A : Type) : Type := store -> result A * store.

Definition deref (h : store) (r : nat) : dict := nth r h [].

Fixpoint update (r : nat) (d : dict) (h : store) : store :=
  match h, r with
  | [], _ => []
  | _ :: h', O => d :: h'
  | d0 :: h', S r' => d0 :: update r' d h'
  end.

Definition st_ret {A : Type} (a : A) : stateful A := fun h => (Ok a, h).

Definition st_lift {A : Type} (c : result A) : stateful A := fun h => (c, h).

Definition st_bind {A B : Type} (c : stateful A) (k : A -> stateful B) : stateful B :=
  fun h => match c h with
           | (Ok a, h') => k a h'
           | (Raise e, h') => (Raise e, h')
           end.

Notation "x <~ c ;; k" := (st_bind c (fun x => k))
  (at level 61, c at next level, right associativity).

(** Reading the dict behind a reference. *)
Definition load (r : nat) : stateful dict := fun h => (Ok (deref h r), h).

(** [d[k] = v] on the dict behind a reference. *)
Definition assign (r : nat) (k : index * index) (v : Z) : stateful unit :=
  fun h => (Ok tt, update r (dict_set k v (deref h r)) h).

(** [d.copy()]: a new dict object with the same entries. *)
Definition copy (r : nat) : stateful nat :=
  fun h => (Ok (List.length h), h ++ [deref h r]).

Fixpoint st_for_each {A : Type} (l : list A) (body : A -> stateful unit) : stateful unit :=
  match l with
  | [] => st_ret tt
  | x :: l' => _ <~ body x ;; st_for_each l' body
  end.

Record TensorObj : Type := mkTensorObj {
  o_basis : list string;
  o_covariant_dim : Z;
  o_contravariant_dim : Z;
  o_type : Z * Z;
  o_dict : nat
}.

(** The tensor a tensor object stands for in a store. *)
Definition view (h : store) (o : TensorObj) : Tensor :=
  mkTensor (o_basis o) (o_covariant_dim o) (o_contravariant_dim o) (o_type o)
           (deref h (o_dict o)).

(** [Tensor.__init__] on a dict object: the keys are validated and the
    reference is kept. *)
Definition Tensor_init_obj (basis : list string) (_type : Z * Z) (dict_ref : nat)
  : stateful TensorObj :=
  d <~ load dict_ref ;;
  _ <~ st_lift (for_each (dict_keys d)
                  (check_key (len basis) (snd _type) (fst _type)) tt) ;;
  st_ret (mkTensorObj basis (fst _type) (snd _type) _type dict_ref).

(** The body of the loop of [Tensor.__add__], reading and writing through the
    references. *)
Definition add_key_obj (other_ref result_ref : nat) (k : index * index) : stateful unit :=
  rd <~ load result_ref ;;
  _ <~ (if dict_in k rd
        then x <~ st_lift (dict_subscript rd k) ;;
             od <~ load other_ref ;;
             y <~ st_lift (dict_subscript od k) ;;
             assign result_ref k (x + y)
        else st_ret tt) ;;
  rd' <~ load result_ref ;;
  if negb (dict_in k rd')
  then od <~ load other_ref ;;
       y <~ st_lift (dict_subscript od k) ;;
       assign result_ref k y
  else st_ret tt.

(** [Tensor.__add__] on objects; the right operand is a tensor object or some
    other value. *)
Definition Tensor_add_obj (self : TensorObj) (other : TensorObj + object)
  : stateful TensorObj :=
  match other with
  | inr v => st_lift (Raise (ValueError (Cannot_add_tensor_with (type_name v))))
  | inl o =>
      if negb (basis_eqb (o_basis o) (o_basis self))
         || negb (type_eqb (o_type o) (o_type self))
      then st_lift (Raise (ValueError Same_type_and_basis))
      else
        result_ref <~ copy (o_dict self) ;;
        od <~ load (o_dict o) ;;
        _ <~ st_for_each (dict_keys od) (add_key_obj (o_dict o) result_ref) ;;
        Tensor_init_obj (o_basis self) (o_type self) result_ref
  end.

(** ** Notions used in the statements *)

(** The invariant of the loop inside [product]: after [k] pools the partial
    results are exactly the in-range tuples of length [k], strictly increasing
    in lexicographic order. *)
Record tuples_of (n : Z) (k : nat) (l : list (list Z)) : Prop := {
  tuples_mem : forall t, In t l <-> (List.length t = k /\ in_range n t);
  tuples_sorted : StronglySorted lex_lt l;
  tuples_count : Z.of_nat (List.length l) = n ^ Z.of_nat k
}.

(** A key that passes both tests of the constructor's loop. *)
Definition valid_key (n contravariant_dim covariant_dim : Z) (k : key) : Prop :=
  is_multiindex (fst k) n contravariant_dim = Ok true /\
  is_multiindex (snd k) n covariant_dim = Ok true.

(** A property of the exception, if any, that a computation ends in. *)
Definition raises_only {A : Type} (P : exn -> Prop) (r : result A) : Prop :=
  match r with
  | Ok _ => True
  | Raise e => P e
  end.

(** The three errors with which contraction refuses its arguments. *)
Definition precondition_error (e : exn) : bool :=
  match e with
  | ValueError (Dimension_less_than_one _) => true
  | ValueError (Contravariant_slot _ _) => true
  | ValueError (Covariant_slot _ _) => true
  | _ => false
  end.

Definition not_precondition (e : exn) : Prop := precondition_error e = false.

Definition basis2 : list string := ["e0"%string; "e1"%string].
Definition basis3 : list string := ["e0"%string; "e1"%string; "e2"%string].
Definition basis4 : list string :=
  ["e0"%string; "e1"%string; "e2"%string; "e3"%string].

(** The sparse map [{((0,),(0,)): 3, ((1,),(1,)): 5}]. *)
Definition identity_like : dict :=
  [((ITuple [0], ITuple [0]), 3); ((ITuple [1], ITuple [1]), 5)].

Definition has_basis (o : object) : bool :=
  match attr_basis o with
  | Ok _ => true
  | Raise _ => false
  end.

Definition has_type (o : object) : bool :=
  match attr_type o with
  | Ok _ => true
  | Raise _ => false
  end.

Definition has_get_all_values (o : object) : bool :=
  match o with
  | OTensor _ => true
  | _ => false
  end.

(** The metric of the one-by-one matrix [[1]] over a basis of one vector. *)
Definition unit_metric : Metric :=
  mkMetric [[1]] ["t"%string]
    (mkTensor ["t"%string] 0 2 (0, 2) [((ITuple [0; 0], INone), 1)]).

(** No key twice, as a test. *)
Fixpoint unique_keys (d : dict) : bool :=
  match d with
  | [] => true
  | (k, _) :: d' => negb (dict_in k d') && unique_keys d'
  end.

(** A dict that lists every key of [ks] once, with the value [f] gives it. *)
Definition tabulate (f : key -> Z) (ks : list key) : dict :=
  map (fun k => (k, f k)) ks.

(** The multi-indices the generator yields (none when it returns no list). *)
Definition multiindices (p n : Z) : list index :=
  match get_all_multiindices p n with
  | Some l => l
  | None => []
  end.

(** Every pair of a contravariant and a covariant multi-index of a tensor, in
    the order in which [get_all_values] visits them. *)
Definition all_pairs (t : Tensor) : list key :=
  list_prod (multiindices (contravariant_dim t) (len (basis t)))
            (multiindices (covariant_dim t) (len (basis t))).

(** The identity-like map with its entries in the other order and a zero
    stored under one more key. *)
Definition identity_like_reordered : dict :=
  [((ITuple [1], ITuple [1]), 5); ((ITuple [0], ITuple [0]), 3);
   ((ITuple [0], ITuple [1]), 0)].

(** A matrix with as many columns as rows. *)
Definition is_square (M : list (list Z)) : bool :=
  forallb (fun row => (List.length row =? List.length M)%nat) M.

(** The entry of a matrix, zero outside of it. *)
Definition entry (M : list (list Z)) (i j : Z) : Z :=
  nth (Z.to_nat j) (nth (Z.to_nat i) M []) 0.

(** The key under which [tensor_from_matrix] stores the entry [(i, j)]. *)
Definition matrix_key (ij : Z * Z) : index * index :=
  (ITuple [fst ij; snd ij], INone).

(** What the sum stores under a key: the sum of the two stored values, the one
    stored value when only one operand has the key, nothing when neither
    has. *)
Definition merged (d1 d2 : dict) (k : index * index) : option Z :=
  match dict_get k d1, dict_get k d2 with
  | Some x, Some y => Some (x + y)
  | Some x, None => Some x
  | None, Some y => Some y
  | None, None => None
  end.

(** Whether the validator accepts an index for a basis size and a rank. *)
Definition accepts (n c : Z) (a : index) : bool :=
  match is_multiindex a n c with
  | Ok true => true
  | _ => false
  end.

(** A bare integer, as opposed to the empty marker or a tuple. *)
Definition is_int (a : index) : bool :=
  match a with
  | IInt _ => true
  | _ => false
  end.

(** The key under which a lookup reads the map, or the exception it ends in:
    the control flow of [Tensor.__getitem__] with the map left out. *)
Definition lookup_key_multi (n covariant_dim contravariant_dim : Z) (a c : index)
  : result (index * index) :=
  va <- is_multiindex a n contravariant_dim ;;
  if va then
    match c with
    | IInt kc => Ok (a, ITuple [kc])
    | _ =>
        vc <- is_multiindex c n covariant_dim ;;
        if vc then Ok (a, c) else Raise (KeyError (Wrong_pair_of_multiindices a c))
    end
  else Raise (KeyError (Wrong_pair_of_multiindices a c)).

Definition lookup_key (n covariant_dim contravariant_dim : Z) (a c : index)
  : result (index * index) :=
  match a with
  | IInt ka =>
      match c with
      | IInt kc =>
          va <- is_multiindex (ITuple [ka]) n contravariant_dim ;;
          vc <- (if va then is_multiindex (ITuple [kc]) n covariant_dim else Ok false) ;;
          if vc then Ok (ITuple [ka], ITuple [kc])
          else Raise (KeyError (Problem_with_multiindices ka kc))
      | _ =>
          vc <- is_multiindex c n covariant_dim ;;
          if vc then Ok (ITuple [ka], c)
          else lookup_key_multi n covariant_dim contravariant_dim a c
      end
  | _ => lookup_key_multi n covariant_dim contravariant_dim a c
  end.

(** The map [tensor_from_matrix] builds from a matrix with at least as many
    columns as rows: the entries of its leading square block, row by row. *)
Definition matrix_dict (M : list (list Z)) : dict :=
  map (fun ij => (matrix_key ij, entry M (fst ij) (snd ij)))
      (list_prod (range (len M)) (range (len M))).

(** The tuple [t[:i] + (r, ) + t[i:]] for a slot [0 <= i]. *)
Definition insert_at (t : list Z) (i r : Z) : list Z :=
  (firstn (Z.to_nat i) t ++ [r]) ++ skipn (Z.to_nat i) t.

(** The component of a contraction over the slots [i] and [j] at a pair of
    multi-indices: the stored values, or zero, at the pairs that have [r] put
    back in both slots, added up from zero for [r] running through the basis
    positions. *)
Definition contraction_value (d : dict) (dim i j : Z) (k : index * index) : Z :=
  fold_left (fun s r => s + value_or_zero d (ITuple (insert_at (entries (fst k)) i r),
                                              ITuple (insert_at (entries (snd k)) j r)))
            (range dim) 0.

(** The map of a contraction: every pair of multi-indices one shorter on each
    side, with its component. *)
Definition contraction_dict (t : Tensor) (i j : Z) : dict :=
  tabulate (contraction_value (dict_of_values t) (len (basis t)) i j)
           (list_prod (multiindices (contravariant_dim t - 1) (len (basis t)))
                      (multiindices (covariant_dim t - 1) (len (basis t)))).

(** ** Rendering, substitution and index lowering *)

(** A Python [str]: the list of its characters. *)
Definition pystr : Type := list Ascii.ascii.

(** The literals of [Tensor.__repr__]. *)
Definition otimes : pystr := list_ascii_of_string " \otimes ".
Definition star_otimes : pystr := list_ascii_of_string "* \otimes ".
Definition plus : pystr := list_ascii_of_string " + ".
Definition lparen : pystr := list_ascii_of_string "(".
Definition rparen : pystr := list_ascii_of_string ")".

(** [s[:-k]] for [k > 0]: all but the last [k] characters, nothing when there
    are fewer. *)
Definition drop_last (k : nat) (s : pystr) : pystr := firstn (List.length s - k) s.

(** [basis[ind]]: a negative index counts from the end, an index outside the
    list raises. *)
Definition basis_item (basis : list string) (ind : Z) : result string :=
  let pos := if ind <? 0 then len basis + ind else ind in
  if (pos <? 0) || (pos >=? len basis) then Raise (IndexError Index_out_of_range)
  else match nth_error basis (Z.to_nat pos) with
       | Some s => Ok s
       | None => Raise (IndexError Index_out_of_range)
       end.

(** The values of [for ind in a]: the entries of a tuple; an integer is not
    iterable. *)
Definition iter_index (a : index) : result (list Z) :=
  match a with
  | ITuple t => Ok t
  | _ => Raise (TypeError Not_iterable)
  end.

(** [a != None] *)
Definition is_not_none (a : index) : bool :=
  match a with
  | INone => false
  | _ => true
  end.

(** The body of the loop of [Tensor.__repr__] for one key; [fmt_value] and
    [fmt_symbol] are what [format] makes of a scalar and of a basis symbol. *)
Definition repr_key (fmt_value : Z -> pystr) (fmt_symbol : string -> pystr)
           (self : Tensor) (k : key) (string : pystr) : result pystr :=
  v <- dict_subscript (dict_of_values self) k ;;
  let string := string ++ (lparen ++ fmt_value v ++ rparen) in
  let a := fst k in
  let b := snd k in
  string <- (if is_not_none a then
               inds <- iter_index a ;;
               substring_of_a <-
                 for_each inds (fun ind substring_of_a =>
                   symbol <- basis_item (basis self) ind ;;
                   Ok (substring_of_a ++ (fmt_symbol symbol ++ star_otimes))) [] ;;
               Ok (string ++ drop_last (List.length otimes) substring_of_a)
             else Ok string) ;;
  string <- (if is_not_none b then
               let string := if is_not_none a then string ++ otimes else string in
               inds <- iter_index b ;;
               string <-
                 for_each inds (fun ind string =>
                   symbol <- basis_item (basis self) ind ;;
                   Ok (string ++ (fmt_symbol symbol ++ otimes))) string ;;
               Ok (drop_last (List.length otimes) string)
             else Ok string) ;;
  Ok (string ++ plus).

(** [Tensor.__repr__(self)] *)
Definition Tensor_repr (fmt_value : Z -> pystr) (fmt_symbol : string -> pystr)
           (self : Tensor) : result pystr :=
  string <- for_each (dict_keys (dict_of_values self))
              (repr_key fmt_value fmt_symbol self) [] ;;
  Ok (drop_last 3 string).

(** [Tensor.subs(self, list_of_substitutions)]: the loop is over
    [self.dict_of_values.items], the method itself, which is not iterable. *)
Definition Tensor_subs (self : Tensor) (list_of_substitutions : list (Z * Z))
  : result unit :=
  Raise (TypeError Not_iterable).

(** [lower_index(tensor, metric)]: the body is [pass]; [None] is returned. *)
Definition lower_index (tensor : Tensor) (metric : Metric) : option Tensor := None.

(** The pieces of a list joined by a separator. *)
Fixpoint join (sep : pystr) (l : list pystr) : pystr :=
  match l with
  | [] => []
  | [x] => x
  | x :: l' => x ++ sep ++ join sep l'
  end.

(** The symbol at a position of the basis, for a position in range. *)
Definition symbol_at (basis : list string) (ind : Z) : string :=
  nth (Z.to_nat ind) basis EmptyString.

(** A half of a key that is the empty marker or a tuple with an entry. *)
Definition regular_half (a : index) : bool :=
  match a with
  | INone => true
  | ITuple (_ :: _) => true
  | _ => false
  end.

(** One term of the rendering: the value in parentheses, the starred symbols
    of the first half and the symbols of the second half, joined by the
    tensor-product sign. *)
Definition term (fmt_value : Z -> pystr) (fmt_symbol : string -> pystr)
           (basis : list string) (kv : (index * index) * Z) : pystr :=
  let a := fst (fst kv) in
  let b := snd (fst kv) in
  lparen ++ fmt_value (snd kv) ++ rparen
  ++ join otimes (map (fun ind => fmt_symbol (symbol_at basis ind)
                                  ++ list_ascii_of_string "*") (entries a))
  ++ (if is_not_none a && is_not_none b then otimes else [])
  ++ join otimes (map (fun ind => fmt_symbol (symbol_at basis ind)) (entries b)).

(** What a component map holds for a pair of multi-indices, read off its
    entries: the value of the entry with that key, and zero when no entry has
    the key. *)
Definition component (d : dict) (k : index * index) (v : Z) : Prop :=
  In (k, v) d \/ (~ In k (dict_keys d) /\ v = 0).

(** A key made of the tuple [(i, j)] and the empty marker, in either order. *)
Definition pairs_with_marker (k : index * index) (i j : Z) : Prop :=
  k = (ITuple [i; j], INone) \/ k = (INone, ITuple [i; j]).

(** * Properties *)

(** ** Facts about [range] and [product] *)

Lemma range_In (n v : Z) : In v (range n) <-> 0 <= v < n.
Proof.
  unfold range. rewrite in_map_iff. split.
  - intros [k [<- Hk]]. apply in_seq in Hk. lia.
  - intros Hv. exists (Z.to_nat v). split; [lia|]. apply in_seq. lia.
Qed.

Lemma range_length (n : Z) : 0 <= n -> Z.of_nat (List.length (range n)) = n.
Proof. intros Hn. unfold range. rewrite length_map, length_seq. lia. Qed.

Lemma seq_sorted (len start : nat) :
  StronglySorted (fun a b => Z.of_nat a < Z.of_nat b) (seq start len).
Proof.
  revert start. induction len as [|len IH]; intros start; simpl.
  - constructor.
  - constructor; [apply IH|]. apply Forall_forall. intros b Hb.
    apply in_seq in Hb. lia.
Qed.

Lemma StronglySorted_map {A B : Type} (R : B -> B -> Prop) (f : A -> B) (l : list A) :
  StronglySorted (fun a b => R (f a) (f b)) l -> StronglySorted R (map f l).
Proof.
  induction 1 as [|a l Hs IH Hall]; simpl; constructor; auto.
  apply Forall_forall. intros b Hb. apply in_map_iff in Hb.
  destruct Hb as [b' [<- Hb']]. rewrite Forall_forall in Hall. auto.
Qed.

Lemma range_sorted (n : Z) : StronglySorted Z.lt (range n).
Proof. unfold range. apply StronglySorted_map, seq_sorted. Qed.

Lemma StronglySorted_app {A : Type} (R : A -> A -> Prop) (l1 l2 : list A) :
  StronglySorted R l1 -> StronglySorted R l2 ->
  (forall a b, In a l1 -> In b l2 -> R a b) ->
  StronglySorted R (l1 ++ l2).
Proof.
  induction 1 as [|a l Hs IH Hall]; intros H2 Hcross; simpl; auto.
  constructor.
  - apply IH; auto. intros; apply Hcross; simpl; auto.
  - apply Forall_app. split; auto.
    apply Forall_forall. intros b Hb. apply Hcross; simpl; auto.
Qed.

Lemma StronglySorted_NoDup {A : Type} (R : A -> A -> Prop) (l : list A) :
  (forall a, ~ R a a) -> StronglySorted R l -> NoDup l.
Proof.
  intros Hirr. induction 1 as [|a l Hs IH Hall]; constructor; auto.
  intros Hin. rewrite Forall_forall in Hall. apply (Hirr a). auto.
Qed.

Lemma lex_ltb_irrefl (x : list Z) : lex_ltb x x = false.
Proof.
  induction x as [|a x IH]; simpl; auto.
  rewrite Z.ltb_irrefl, Z.eqb_refl, IH. reflexivity.
Qed.

Lemma lex_ltb_snoc_same (x : list Z) (y y' : Z) :
  y < y' -> lex_ltb (x ++ [y]) (x ++ [y']) = true.
Proof.
  intros Hy. induction x as [|a x IH]; simpl.
  - apply Z.ltb_lt in Hy. rewrite Hy. reflexivity.
  - rewrite Z.eqb_refl, IH. apply orb_true_r.
Qed.

Lemma lex_ltb_snoc (x x' : list Z) (y y' : Z) :
  List.length x = List.length x' -> lex_ltb x x' = true ->
  lex_ltb (x ++ [y]) (x' ++ [y']) = true.
Proof.
  revert x'. induction x as [|a x IH]; intros [|a' x'] Hlen Hlt;
    simpl in *; try discriminate.
  apply orb_true_iff in Hlt. destruct Hlt as [Hlt|Hlt].
  - rewrite Hlt. reflexivity.
  - apply andb_true_iff in Hlt. destruct Hlt as [He Hlt].
    rewrite He, (IH x'); auto. apply orb_true_r.
Qed.

Lemma product_step_In (result : list (list Z)) (pool : list Z) (t : list Z) :
  In t (product_step result pool) <->
  exists x y, In x result /\ In y pool /\ t = x ++ [y].
Proof.
  unfold product_step. rewrite in_flat_map. split.
  - intros [x [Hx Ht]]. apply in_map_iff in Ht. destruct Ht as [y [<- Hy]].
    exists x, y. auto.
  - intros [x [y [Hx [Hy ->]]]]. exists x. split; auto.
    apply in_map_iff. exists y. auto.
Qed.

Lemma product_step_length (result : list (list Z)) (pool : list Z) :
  List.length (product_step result pool)
  = (List.length result * List.length pool)%nat.
Proof.
  unfold product_step. induction result as [|x l IH]; simpl; auto.
  rewrite length_app, length_map, IH. reflexivity.
Qed.

Lemma product_step_sorted (k : nat) (result : list (list Z)) (pool : list Z) :
  StronglySorted lex_lt result -> StronglySorted Z.lt pool ->
  (forall x, In x result -> List.length x = k) ->
  StronglySorted lex_lt (product_step result pool).
Proof.
  intros Hs Hp. induction Hs as [|x l Hs IH Hall]; intros Hlen; simpl.
  - constructor.
  - apply StronglySorted_app.
    + apply StronglySorted_map.
      clear - Hp. induction Hp as [|y pool Hp IH Hall]; constructor; auto.
      apply Forall_forall. intros y' Hy'. rewrite Forall_forall in Hall.
      apply lex_ltb_snoc_same. auto.
    + apply IH. intros; apply Hlen; simpl; auto.
    + intros a b Ha Hb. apply in_map_iff in Ha. destruct Ha as [y [<- Hy]].
      apply (product_step_In l pool b) in Hb.
      destruct Hb as [x' [y' [Hx' [Hy' ->]]]].
      apply lex_ltb_snoc.
      * rewrite (Hlen x), (Hlen x'); simpl; auto.
      * rewrite Forall_forall in Hall. apply Hall. auto.
Qed.

Lemma product_step_tuples (n : Z) (k : nat) (result : list (list Z)) :
  0 <= n -> tuples_of n k result -> tuples_of n (S k) (product_step result (range n)).
Proof.
  intros Hn [Hmem Hsort Hcount]. split.
  - intros t. rewrite product_step_In. split.
    + intros [x [y [Hx [Hy ->]]]]. apply Hmem in Hx. destruct Hx as [Hl Hr].
      apply range_In in Hy. split.
      * rewrite length_app. simpl. lia.
      * apply Forall_app. split; auto.
    + intros [Hl Hr]. destruct (exists_last (l := t)) as [x [y ->]].
      { intros ->. discriminate. }
      apply Forall_app in Hr. destruct Hr as [Hx Hy].
      rewrite length_app in Hl. simpl in Hl.
      exists x, y. repeat split; auto.
      * apply Hmem. split; [lia | assumption].
      * apply range_In. inversion Hy; auto.
  - apply (product_step_sorted k); auto using range_sorted.
    intros x Hx. apply Hmem in Hx. tauto.
  - rewrite product_step_length, Nat2Z.inj_mul, Hcount, range_length by assumption.
    rewrite Nat2Z.inj_succ, Z.pow_succ_r by lia. lia.
Qed.

Lemma fold_product_tuples (n : Z) (p k : nat) (acc : list (list Z)) :
  0 <= n -> tuples_of n k acc ->
  tuples_of n (k + p) (fold_left product_step (repeat (range n) p) acc).
Proof.
  intros Hn. revert k acc. induction p as [|p IH]; intros k acc Hacc; simpl.
  - rewrite Nat.add_0_r. assumption.
  - replace (k + S p)%nat with (S k + p)%nat by lia.
    apply IH. apply product_step_tuples; assumption.
Qed.

Lemma product_repeat_tuples (n p : Z) :
  0 <= n -> tuples_of n (Z.to_nat p) (product_repeat n p).
Proof.
  intros Hn. unfold product_repeat, product.
  apply (fold_product_tuples n (Z.to_nat p) 0 [[]] Hn).
  split.
  - intros t. simpl. split.
    + intros [<-|[]]. split; [reflexivity | constructor].
    + intros [Hl _]. left. destruct t; [reflexivity | discriminate].
  - repeat constructor.
  - reflexivity.
Qed.

(** For a positive rank both list-building branches of the generator give the
    Cartesian power. *)
Lemma get_all_multiindices_pos (p n : Z) :
  0 < p -> get_all_multiindices p n = Some (map ITuple (product_repeat n p)).
Proof.
  intros Hp. unfold get_all_multiindices.
  destruct (p =? 0) eqn:E0; [lia|].
  destruct (p =? 1) eqn:E1.
  - apply Z.eqb_eq in E1. subst p. unfold product_repeat, product. simpl.
    unfold product_step. simpl. rewrite app_nil_r, map_map. reflexivity.
  - destruct (p >? 1) eqn:E2; [reflexivity | lia].
Qed.

Lemma ITuple_inj_list (l1 l2 : list (list Z)) :
  map ITuple l1 = map ITuple l2 -> l1 = l2.
Proof.
  revert l2. induction l1 as [|a l1 IH]; intros [|b l2] H; simpl in H;
    try discriminate; auto.
  injection H as -> H. f_equal. auto.
Qed.

Lemma NoDup_map_ITuple (l : list (list Z)) : NoDup l -> NoDup (map ITuple l).
Proof.
  induction 1 as [|a l Hn Hd IH]; simpl; constructor; auto.
  rewrite in_map_iff. intros [b [Hb Hin]]. injection Hb as ->. auto.
Qed.

Lemma product_repeat_NoDup (n p : Z) : 0 <= n -> NoDup (product_repeat n p).
Proof.
  intros Hn. apply (StronglySorted_NoDup lex_lt).
  - intros a. unfold lex_lt. rewrite lex_ltb_irrefl. discriminate.
  - apply (tuples_sorted _ _ _ (product_repeat_tuples n p Hn)).
Qed.

(** Whatever the generator returns has no repeated element. *)
Lemma get_all_multiindices_NoDup (p n : Z) (l : list index) :
  0 <= n -> get_all_multiindices p n = Some l -> NoDup l.
Proof.
  intros Hn H. destruct (Z.eq_dec p 0) as [->|Hp0].
  - injection H as <-. repeat constructor. simpl. tauto.
  - destruct (Z_lt_le_dec 0 p) as [Hp|Hp].
    + rewrite get_all_multiindices_pos in H by assumption. injection H as <-.
      apply NoDup_map_ITuple, product_repeat_NoDup, Hn.
    + unfold get_all_multiindices in H.
      destruct (p =? 0) eqn:E0; [lia|].
      destruct (p =? 1) eqn:E1; [lia|].
      destruct (p >? 1) eqn:E2; [lia | discriminate].
Qed.

(** ** The generator is complete, duplicate free and ordered *)

(** C8: for every rank [p >= 0] and basis size [n >= 1] the generator returns a
    list of exactly [n ^ p] elements, which is the list holding only the empty
    marker when [p = 0]; read as tuples (the marker standing for the empty
    tuple), its elements are exactly the tuples of length [p] with entries in
    [[0, n)], none of them repeated, listed in strictly increasing
    lexicographic order (the last coordinate running fastest); for [p > 0]
    every element is a tuple. *)
Theorem get_all_multiindices_complete (p n : Z) :
  0 <= p -> 1 <= n ->
  exists l : list index,
    get_all_multiindices p n = Some l /\
    Z.of_nat (List.length l) = n ^ p /\
    (p = 0 -> l = [INone]) /\
    (0 < p -> exists ts, l = map ITuple ts) /\
    (forall t, In t (map entries l) <->
               (Z.of_nat (List.length t) = p /\ in_range n t)) /\
    NoDup l /\ NoDup (map entries l) /\
    StronglySorted lex_lt (map entries l).
Proof.
  intros Hp Hn. destruct (Z.eq_dec p 0) as [->|Hp0].
  - exists [INone]. simpl.
    split; [reflexivity|]. split; [reflexivity|]. split; [reflexivity|].
    split; [lia|]. split; [|split; [|split]].
    + intros t. split.
      * intros [<-|[]]. split; [reflexivity | constructor].
      * intros [Hl _]. left. destruct t; [reflexivity | discriminate].
    + repeat constructor. simpl. tauto.
    + repeat constructor. simpl. tauto.
    + repeat constructor.
  - assert (Hpos : 0 < p) by lia.
    assert (Hn0 : 0 <= n) by lia.
    destruct (product_repeat_tuples n p Hn0) as [Hmem Hsort Hcount].
    exists (map ITuple (product_repeat n p)).
    assert (Hent : map entries (map ITuple (product_repeat n p)) = product_repeat n p).
    { rewrite map_map. simpl. apply map_id. }
    rewrite Hent.
    split; [apply get_all_multiindices_pos, Hpos|].
    split; [rewrite length_map, Hcount, Z2Nat.id by lia; reflexivity|].
    split; [intros ->; lia|].
    split; [intros _; eexists; reflexivity|].
    split; [|split; [|split]].
    + intros t. rewrite Hmem. split; intros [Hl Hr]; (split; [lia | assumption]).
    + apply NoDup_map_ITuple, product_repeat_NoDup, Hn0.
    + apply product_repeat_NoDup, Hn0.
    + assumption.
Qed.

Lemma get_all_multiindices_complete_witness :
  exists l : list index,
    get_all_multiindices 2 2 = Some l /\
    Z.of_nat (List.length l) = 2 ^ 2 /\
    (2 = 0 -> l = [INone]) /\
    (0 < 2 -> exists ts, l = map ITuple ts) /\
    (forall t, In t (map entries l) <->
               (Z.of_nat (List.length t) = 2 /\ in_range 2 t)) /\
    NoDup l /\ NoDup (map entries l) /\
    StronglySorted lex_lt (map entries l).
Proof. apply (get_all_multiindices_complete 2 2); lia. Defined.

(** The order in which the four pairs over a two-element basis come out. *)
Example get_all_multiindices_2_2 :
  get_all_multiindices 2 2
  = Some [ITuple [0; 0]; ITuple [0; 1]; ITuple [1; 0]; ITuple [1; 1]].
Proof. reflexivity. Qed.

(** ** The generator is partial in the rank *)

(** C9: for every negative rank [p] and every [n] the generator reaches no
    [return] and so yields no list; a list is returned exactly when
    [0 <= p]. *)
Theorem get_all_multiindices_negative (p n : Z) :
  p < 0 ->
  get_all_multiindices p n = None /\
  (forall p', (exists l, get_all_multiindices p' n = Some l) <-> 0 <= p').
Proof.
  intros Hp. split.
  - unfold get_all_multiindices.
    destruct (p =? 0) eqn:E0; [lia|].
    destruct (p =? 1) eqn:E1; [lia|].
    destruct (p >? 1) eqn:E2; [lia | reflexivity].
  - intros p'. unfold get_all_multiindices.
    destruct (p' =? 0) eqn:E0; [split; [lia | eauto]|].
    destruct (p' =? 1) eqn:E1; [split; [lia | eauto]|].
    destruct (p' >? 1) eqn:E2; [split; [lia | eauto]|].
    split; [intros [l Hl]; discriminate | lia].
Qed.

Lemma get_all_multiindices_negative_witness :
  get_all_multiindices (-1) 3 = None /\
  (forall p', (exists l, get_all_multiindices p' 3 = Some l) <-> 0 <= p').
Proof. apply (get_all_multiindices_negative (-1) 3). lia. Defined.

(** ** Validation at construction *)

Lemma check_key_ok (n c v : Z) (k : key) (u : unit) :
  check_key n c v k u = Ok tt <-> valid_key n c v k.
Proof.
  destruct k as [a b]. unfold check_key, valid_key. simpl.
  destruct (is_multiindex a n c) as [[|]|e]; simpl;
    [destruct (is_multiindex b n v) as [[|]|e']; simpl|..];
    split; try tauto; try discriminate;
    intros [H1 H2]; discriminate.
Qed.

Lemma for_each_check_key (n c v : Z) (ks : list key) :
  for_each ks (check_key n c v) tt = Ok tt <-> Forall (valid_key n c v) ks.
Proof.
  induction ks as [|k ks IH]; simpl.
  - split; auto.
  - destruct (check_key n c v k tt) as [[]|e] eqn:E; simpl.
    + apply check_key_ok in E. rewrite IH. split.
      * intros H. constructor; assumption.
      * intros H. inversion H; assumption.
    + split; [discriminate|]. intros H. inversion H as [|? ? Hk _]; subst.
      apply (check_key_ok n c v k tt) in Hk. congruence.
Qed.

(** The constructor succeeds exactly when every key passes, the first half
    being tested against the second component of [_type] and the second half
    against the first, and then it stores its arguments as they are. *)
Lemma Tensor_init_ok (b : list string) (ty : Z * Z) (d : dict) (t : Tensor) :
  Tensor_init b ty d = Ok t <->
  (Forall (valid_key (len b) (snd ty) (fst ty)) (dict_keys d) /\
   t = mkTensor b (fst ty) (snd ty) ty d).
Proof.
  unfold Tensor_init.
  destruct (for_each (dict_keys d) (check_key (len b) (snd ty) (fst ty)) tt)
    as [[]|e] eqn:E; simpl.
  - apply for_each_check_key in E. split.
    + intros H. injection H as <-. auto.
    + intros [_ ->]. reflexivity.
  - split; [discriminate|]. intros [H _].
    apply for_each_check_key in H. congruence.
Qed.

(** ** How exceptions travel through the loops *)

Lemma raises_only_bind {A B : Type} (P : exn -> Prop) (c : result A) (k : A -> result B) :
  raises_only P c -> (forall a, raises_only P (k a)) -> raises_only P (x <- c ;; k x).
Proof. destruct c as [a|e]; simpl; auto. Qed.

Lemma raises_only_for_each {A S : Type} (P : exn -> Prop) (l : list A)
      (body : A -> S -> result S) (s : S) :
  (forall x s', raises_only P (body x s')) -> raises_only P (for_each l body s).
Proof.
  intros Hb. revert s. induction l as [|x l IH]; intros s; simpl; auto.
  apply raises_only_bind; auto.
Qed.

Lemma raises_only_iter {A : Type} (P : exn -> Prop) (o : option (list A)) :
  P (TypeError Not_iterable) -> raises_only P (iter o).
Proof. destruct o; simpl; auto. Qed.

Lemma is_multiindex_not_precondition (a : index) (n c : Z) :
  raises_only not_precondition (is_multiindex a n c).
Proof.
  destruct a; simpl; try reflexivity.
  destruct (negb _); simpl; auto.
Qed.

Lemma getitem_multi_not_precondition (t : Tensor) (a b : index) :
  raises_only not_precondition (getitem_multi t a b).
Proof.
  unfold getitem_multi.
  apply raises_only_bind; [apply is_multiindex_not_precondition|].
  intros [|]; simpl; [|reflexivity].
  destruct b; simpl; try exact I; try reflexivity.
  - destruct (covariant_dim t =? 0); simpl; auto. reflexivity.
  - apply raises_only_bind; [apply (is_multiindex_not_precondition (ITuple _))|].
    intros [|]; simpl; auto. reflexivity.
Qed.

Lemma getitem_not_precondition (t : Tensor) (a b : index) :
  raises_only not_precondition (getitem t a b).
Proof.
  unfold getitem. destruct a; try apply getitem_multi_not_precondition.
  destruct b.
  - apply raises_only_bind; [apply (is_multiindex_not_precondition (ITuple _))|].
    intros va. apply raises_only_bind.
    + destruct va; [apply (is_multiindex_not_precondition (ITuple _)) | exact I].
    + intros [|]; simpl; auto. reflexivity.
  - apply raises_only_bind; [apply is_multiindex_not_precondition|].
    intros [|]; [exact I | apply getitem_multi_not_precondition].
  - apply raises_only_bind; [apply is_multiindex_not_precondition|].
    intros [|]; [exact I | apply getitem_multi_not_precondition].
Qed.

Lemma extend_not_precondition (a : index) (i r : Z) :
  raises_only not_precondition (extend a i r).
Proof. destruct a; simpl; auto; reflexivity. Qed.

Lemma check_key_not_precondition (n c v : Z) (k : key) (u : unit) :
  raises_only not_precondition (check_key n c v k u).
Proof.
  destruct k as [a b]. unfold check_key.
  apply raises_only_bind; [apply is_multiindex_not_precondition|].
  intros [|]; simpl; [|reflexivity].
  apply raises_only_bind; [apply is_multiindex_not_precondition|].
  intros [|]; simpl; auto. reflexivity.
Qed.

Lemma Tensor_init_not_precondition (b : list string) (ty : Z * Z) (d : dict) :
  raises_only not_precondition (Tensor_init b ty d).
Proof.
  unfold Tensor_init. apply raises_only_bind.
  - apply raises_only_for_each. intros; apply check_key_not_precondition.
  - intros; exact I.
Qed.

(** ** The preconditions of contraction *)

(** In terms of the two rank fields of the tensor record, contraction refuses
    its arguments under three conditions, tested in this order and each with
    an error of its own: a field below one, a slot [i] outside the range of
    the field [contravariant_dim], a slot [j] outside the range of the field
    [covariant_dim]; when none holds, none of the three errors is raised. *)
Lemma contract_indices_guards (tensor : Tensor) (i j : Z) :
  (contravariant_dim tensor < 1 \/ covariant_dim tensor < 1 ->
   contract_indices tensor i j
   = Raise (ValueError (Dimension_less_than_one (type tensor)))) /\
  (1 <= contravariant_dim tensor -> 1 <= covariant_dim tensor ->
   ~ 0 <= i < contravariant_dim tensor ->
   contract_indices tensor i j
   = Raise (ValueError (Contravariant_slot i (contravariant_dim tensor - 1)))) /\
  (1 <= contravariant_dim tensor -> 1 <= covariant_dim tensor ->
   0 <= i < contravariant_dim tensor -> ~ 0 <= j < covariant_dim tensor ->
   contract_indices tensor i j
   = Raise (ValueError (Covariant_slot j (covariant_dim tensor - 1)))) /\
  (1 <= contravariant_dim tensor -> 1 <= covariant_dim tensor ->
   0 <= i < contravariant_dim tensor -> 0 <= j < covariant_dim tensor ->
   forall e, contract_indices tensor i j = Raise e -> precondition_error e = false) /\
  ((exists e, contract_indices tensor i j = Raise e /\ precondition_error e = true) <->
   (contravariant_dim tensor < 1 \/ covariant_dim tensor < 1 \/
    ~ 0 <= i < contravariant_dim tensor \/ ~ 0 <= j < covariant_dim tensor)).
Proof.
  set (p := contravariant_dim tensor). set (q := covariant_dim tensor).
  assert (H1 : p < 1 \/ q < 1 ->
               contract_indices tensor i j
               = Raise (ValueError (Dimension_less_than_one (type tensor)))).
  { intros H. unfold contract_indices. fold p q.
    destruct ((q <? 1) || (p <? 1)) eqn:E; [reflexivity|].
    apply orb_false_iff in E. lia. }
  assert (H2 : 1 <= p -> 1 <= q -> ~ 0 <= i < p ->
               contract_indices tensor i j
               = Raise (ValueError (Contravariant_slot i (p - 1)))).
  { intros Hp Hq Hi. unfold contract_indices. fold p q.
    destruct ((q <? 1) || (p <? 1)) eqn:E; [apply orb_true_iff in E; lia|].
    destruct ((i <? 0) || (i >=? p)) eqn:Ei; [reflexivity|].
    apply orb_false_iff in Ei. lia. }
  assert (H3 : 1 <= p -> 1 <= q -> 0 <= i < p -> ~ 0 <= j < q ->
               contract_indices tensor i j
               = Raise (ValueError (Covariant_slot j (q - 1)))).
  { intros Hp Hq Hi Hj. unfold contract_indices. fold p q.
    destruct ((q <? 1) || (p <? 1)) eqn:E; [apply orb_true_iff in E; lia|].
    destruct ((i <? 0) || (i >=? p)) eqn:Ei; [apply orb_true_iff in Ei; lia|].
    destruct ((j <? 0) || (j >=? q)) eqn:Ej; [reflexivity|].
    apply orb_false_iff in Ej. lia. }
  assert (H4 : 1 <= p -> 1 <= q -> 0 <= i < p -> 0 <= j < q ->
               forall e, contract_indices tensor i j = Raise e ->
                         precondition_error e = false).
  { intros Hp Hq Hi Hj e He.
    assert (R : raises_only not_precondition (contract_indices tensor i j)).
    { unfold contract_indices. fold p q.
      destruct ((q <? 1) || (p <? 1)) eqn:E; [apply orb_true_iff in E; lia|].
      destruct ((i <? 0) || (i >=? p)) eqn:Ei; [apply orb_true_iff in Ei; lia|].
      destruct ((j <? 0) || (j >=? q)) eqn:Ej; [apply orb_true_iff in Ej; lia|].
      apply raises_only_bind; [apply raises_only_iter; reflexivity|]. intros la.
      apply raises_only_bind; [|intros; apply Tensor_init_not_precondition].
      apply raises_only_for_each. intros a d.
      apply raises_only_bind; [apply raises_only_iter; reflexivity|]. intros lb.
      apply raises_only_for_each. intros b d'.
      apply raises_only_bind; [|intros; exact I].
      apply raises_only_for_each. intros r sumand.
      apply raises_only_bind; [apply extend_not_precondition|]. intros a'.
      apply raises_only_bind; [apply extend_not_precondition|]. intros b'.
      apply raises_only_bind; [apply getitem_not_precondition|]. intros; exact I. }
    rewrite He in R. exact R. }
  split; [exact H1|]. split; [exact H2|]. split; [exact H3|]. split; [exact H4|].
  split.
  - intros [e [He Hpre]].
    destruct (Z_lt_le_dec p 1) as [Hp|Hp]; [auto|].
    destruct (Z_lt_le_dec q 1) as [Hq|Hq]; [auto|].
    right; right.
    destruct (Z_le_dec 0 i) as [Hi0|Hi0]; [|left; lia].
    destruct (Z_lt_dec i p) as [Hi1|Hi1]; [|left; lia].
    destruct (Z_le_dec 0 j) as [Hj0|Hj0]; [|right; lia].
    destruct (Z_lt_dec j q) as [Hj1|Hj1]; [|right; lia].
    rewrite (H4 Hp Hq (conj Hi0 Hi1) (conj Hj0 Hj1) e He) in Hpre. discriminate.
  - intros H.
    destruct (Z_lt_le_dec p 1) as [Hp|Hp];
      [eexists; split; [apply H1; auto | reflexivity]|].
    destruct (Z_lt_le_dec q 1) as [Hq|Hq];
      [eexists; split; [apply H1; auto | reflexivity]|].
    destruct H as [H|[H|[H|H]]]; try lia.
    + eexists; split; [apply H2; auto | reflexivity].
    + destruct (Z_le_dec 0 i) as [Hi0|Hi0];
        [|eexists; split; [apply H2; auto; lia | reflexivity]].
      destruct (Z_lt_dec i p) as [Hi1|Hi1];
        [|eexists; split; [apply H2; auto; lia | reflexivity]].
      eexists; split; [apply H3; auto | reflexivity].
Qed.

(** ** Contraction on concrete tensors *)

(** C1, at the scenario the claim names: the tensor of type (1,1) over a basis
    of two vectors with the map [identity_like] is built, the three
    preconditions of [contract_indices] hold for the slots 0 and 0, and the
    call ends in a [TypeError]: the only multi-index of length 0 the generator
    yields is the empty marker, which the loop then slices.  No tensor of type
    (0,0) holding 8 is returned. *)
Theorem contract_indices_identity_like :
  exists T : Tensor,
    Tensor_init basis2 (1, 1) identity_like = Ok T /\
    contravariant_dim T = 1 /\ covariant_dim T = 1 /\
    get_all_multiindices (contravariant_dim T - 1) (len (basis T)) = Some [INone] /\
    extend INone 0 0 = Raise (TypeError Not_subscriptable) /\
    contract_indices T 0 0 = Raise (TypeError Not_subscriptable).
Proof. eexists. repeat split; reflexivity. Qed.

(** With two slots on each side the sums are formed as the formula says: the
    component at [((1,),(0,))] of the contraction over the first slots is
    [T[(0,1),(0,0)] + T[(1,1),(1,0)]]. *)
Example contract_indices_rank_two :
  exists T : Tensor,
    Tensor_init basis2 (2, 2)
      [((ITuple [0; 1], ITuple [0; 1]), 3); ((ITuple [1; 1], ITuple [1; 0]), 5)]
    = Ok T /\
    contract_indices T 0 0
    = Ok (mkTensor basis2 1 1 (1, 1)
            [((ITuple [0], ITuple [0]), 0); ((ITuple [0], ITuple [1]), 0);
             ((ITuple [1], ITuple [0]), 5); ((ITuple [1], ITuple [1]), 3)]).
Proof. eexists. split; reflexivity. Qed.

(** With ranks that differ the contracted map is rejected by the constructor,
    which tests each half of a key against the other rank. *)
Example contract_indices_unequal_ranks :
  exists T : Tensor,
    Tensor_init ["e0"%string] (3, 2) [] = Ok T /\
    contravariant_dim T = 2 /\ covariant_dim T = 3 /\
    contract_indices T 0 0
    = Raise (ValueError (Inconsistent_with_dimension (ITuple [0]) 2)).
Proof. eexists. repeat split; reflexivity. Qed.

(** C5, at failing inputs: the tensor built over two basis vectors with the
    type (2, 3), that is with 2 contravariant and 3 covariant slots as the
    class documents the type.  Contracting its slots 0 and 2, both in range
    and both ranks at least one, raises the covariant-slot error; contracting
    its slots 2 and 0, the first outside [[0, 2)], raises no
    contravariant-slot error: the call gets past the three guards and ends in
    the error of the constructor.  The guards test [i] against the second
    component of the type and [j] against the first. *)
Theorem contract_indices_slots_against_type :
  exists T : Tensor,
    Tensor_init basis2 (2, 3) [] = Ok T /\
    type T = (2, 3) /\
    contract_indices T 0 2 = Raise (ValueError (Covariant_slot 2 1)) /\
    contract_indices T 2 0
    = Raise (ValueError (Inconsistent_with_dimension (ITuple [0; 0]) 1)) /\
    precondition_error (ValueError (Inconsistent_with_dimension (ITuple [0; 0]) 1))
    = false.
Proof. eexists. repeat split; reflexivity. Qed.

(** ** Construction on concrete maps *)

(** C2, at a failing input: over a basis of three vectors and for the type
    (1, 0), the key [((0,), None)] has a first half that is a multi-index of
    length 1 and a second half that is one of length 0, and the constructor
    rejects it, naming the first half and the dimension 0; the key
    [(None, (0,))], whose first half is no multi-index of length 1, is
    accepted. *)
Theorem Tensor_init_tests_other_rank :
  is_multiindex (ITuple [0]) (len basis3) 1 = Ok true /\
  is_multiindex INone (len basis3) 0 = Ok true /\
  Tensor_init basis3 (1, 0) [((ITuple [0], INone), 7)]
  = Raise (ValueError (Inconsistent_with_dimension (ITuple [0]) 0)) /\
  is_multiindex INone (len basis3) 1 = Ok false /\
  Tensor_init basis3 (1, 0) [((INone, ITuple [0]), 7)]
  = Ok (mkTensor basis3 1 0 (1, 0) [((INone, ITuple [0]), 7)]).
Proof. repeat split; reflexivity. Qed.

(** ** Lookup on concrete tensors *)

(** C4, at failing inputs: on the tensor of type (1,1) over a basis of four
    vectors with nothing stored, the integer 5 is out of range, and looking up
    the integer 5 against the tuple [(0,)], or the tuple [(0,)] against the
    integer 5, returns zero; looking up the integer 0 against the out-of-range
    tuple [(9,)] ends in a [TypeError]; with two integers, 5 and 0, the lookup
    error is raised. *)
Theorem getitem_mixed_shorthand :
  exists T : Tensor,
    Tensor_init basis4 (1, 1) [] = Ok T /\
    is_multiindex (ITuple [5]) (len (basis T)) (contravariant_dim T) = Ok false /\
    is_multiindex (ITuple [5]) (len (basis T)) (covariant_dim T) = Ok false /\
    getitem T (IInt 5) (ITuple [0]) = Ok 0 /\
    getitem T (ITuple [0]) (IInt 5) = Ok 0 /\
    getitem T (IInt 0) (ITuple [9]) = Raise (TypeError Has_no_len) /\
    getitem T (IInt 5) (IInt 0) = Raise (KeyError (Problem_with_multiindices 5 0)).
Proof. eexists. repeat split; reflexivity. Qed.

(** ** Equality against other values *)

Lemma basis_eqb_false (b1 b2 : list string) : basis_eqb b1 b2 = false -> b1 <> b2.
Proof. unfold basis_eqb. destruct (list_eq_dec string_dec b1 b2); congruence. Qed.

Lemma basis_eqb_true (b1 b2 : list string) : basis_eqb b1 b2 = true <-> b1 = b2.
Proof.
  unfold basis_eqb. destruct (list_eq_dec string_dec b1 b2); split; congruence.
Qed.

Lemma type_eqb_true (t1 t2 : Z * Z) : type_eqb t1 t2 = true <-> t1 = t2.
Proof.
  destruct t1 as [a b], t2 as [c d]. unfold type_eqb. simpl.
  rewrite andb_true_iff, !Z.eqb_eq. split.
  - intros [-> ->]. reflexivity.
  - intros H. injection H. auto.
Qed.

Lemma type_eqb_false (t1 t2 : Z * Z) : type_eqb t1 t2 = false -> t1 <> t2.
Proof.
  intros H E. apply type_eqb_true in E. congruence.
Qed.

Example unit_metric_built : Metric_init [[1]] ["t"%string] = Ok unit_metric.
Proof. reflexivity. Qed.

(** C10 as stated fails: a metric has a basis but neither a type nor a dense
    view, and comparing a tensor with a metric over another basis returns
    false. *)
Lemma Tensor_eq_metric_returns_false :
  ~ (forall (self : Tensor) (other : object),
       has_basis other && has_type other && has_get_all_values other = false ->
       exists e, Tensor_eq self other = Raise e).
Proof.
  intros H.
  destruct (H (mkTensor basis2 1 1 (1, 1) identity_like) (OMetric unit_metric)
              eq_refl) as [e He].
  discriminate He.
Qed.

(** C10, amended: comparing a tensor with a value that has no basis (a number,
    a string) raises an attribute error; comparing it with a metric, which has
    a basis and no type, raises only when the two bases are equal and returns
    false when they differ; and when a comparison returns false, the other
    operand has a basis that differs from the tensor's, or is a tensor of
    another type, or is a tensor whose dense values differ. *)
Theorem Tensor_eq_other_operand (self : Tensor) (other : object) :
  (has_basis other = false ->
   Tensor_eq self other = Raise (AttributeError (No_attribute "basis"))) /\
  (forall m, other = OMetric m ->
     Tensor_eq self other
     = if basis_eqb (basis self) (metric_basis m)
       then Raise (AttributeError (No_attribute "type"))
       else Ok false) /\
  (Tensor_eq self other = Ok false ->
   (exists b, attr_basis other = Ok b /\ basis self <> b) \/
   (exists t, other = OTensor t /\ type self <> type t) \/
   (exists t d1 d2, other = OTensor t /\ get_all_values self = Ok d1 /\
                    get_all_values t = Ok d2 /\ dict_eqb d1 d2 = false)).
Proof.
  split; [|split].
  - destruct other; simpl; try discriminate; reflexivity.
  - intros m ->. unfold Tensor_eq. simpl.
    destruct (basis_eqb (basis self) (metric_basis m)); reflexivity.
  - destruct other as [z|s|t|m]; unfold Tensor_eq; simpl; try discriminate.
    + destruct (basis_eqb (basis self) (basis t)) eqn:Eb.
      * destruct (type_eqb (type self) (type t)) eqn:Et.
        -- destruct (get_all_values self) as [d1|e1] eqn:E1; simpl; [|discriminate].
           destruct (get_all_values t) as [d2|e2] eqn:E2; simpl; [|discriminate].
           destruct (dict_eqb d1 d2) eqn:Ed; [discriminate|].
           intros _. right; right. exists t, d1, d2. auto.
        -- intros _. right; left. exists t. split; auto using type_eqb_false.
      * intros _. left. exists (basis t). split; auto using basis_eqb_false.
    + destruct (basis_eqb (basis self) (metric_basis m)) eqn:Eb; [discriminate|].
      intros _. left. exists (metric_basis m). split; auto using basis_eqb_false.
Qed.

(** ** Facts about dicts *)

Lemma dict_get_None (k : key) (d : dict) :
  dict_get k d = None <-> ~ In k (dict_keys d).
Proof.
  induction d as [|[k' v] d IH]; simpl.
  - tauto.
  - destruct (key_eq_dec k k') as [->|Hne].
    + split; [discriminate | tauto].
    + rewrite IH. split; [intros H [E|Hin]; auto; congruence | tauto].
Qed.

Lemma dict_in_true (k : key) (d : dict) :
  dict_in k d = true <-> In k (dict_keys d).
Proof.
  unfold dict_in. destruct (dict_get k d) as [v|] eqn:E.
  - split; auto. intros _.
    destruct (in_dec key_eq_dec k (dict_keys d)) as [H|H]; auto.
    apply dict_get_None in H. congruence.
  - apply dict_get_None in E. split; [discriminate | tauto].
Qed.

Lemma unique_keys_NoDup (d : dict) : unique_keys d = true <-> NoDup (dict_keys d).
Proof.
  induction d as [|[k v] d IH]; simpl.
  - split; auto. constructor.
  - rewrite andb_true_iff, negb_true_iff, IH, NoDup_cons_iff.
    assert (H : dict_in k d = false <-> ~ In k (dict_keys d)).
    { rewrite <- dict_in_true. destruct (dict_in k d); split; congruence. }
    tauto.
Qed.

Lemma dict_get_set_same (k : key) (v : Z) (d : dict) :
  dict_get k (dict_set k v d) = Some v.
Proof.
  induction d as [|[k' v'] d IH]; simpl.
  - destruct (key_eq_dec k k); congruence.
  - destruct (key_eq_dec k k') as [->|Hne]; simpl.
    + destruct (key_eq_dec k' k'); congruence.
    + destruct (key_eq_dec k k'); congruence.
Qed.

Lemma dict_get_set_other (k k' : key) (v : Z) (d : dict) :
  k' <> k -> dict_get k' (dict_set k v d) = dict_get k' d.
Proof.
  intros Hne. induction d as [|[k0 v0] d IH]; simpl.
  - destruct (key_eq_dec k' k); congruence.
  - destruct (key_eq_dec k k0) as [->|Hne0]; simpl.
    + destruct (key_eq_dec k' k0); congruence.
    + destruct (key_eq_dec k' k0); congruence.
Qed.

Lemma dict_keys_set (k k' : key) (v : Z) (d : dict) :
  In k' (dict_keys (dict_set k v d)) <-> k' = k \/ In k' (dict_keys d).
Proof.
  induction d as [|[k0 v0] d IH]; simpl.
  - intuition congruence.
  - destruct (key_eq_dec k k0) as [->|Hne]; simpl.
    + intuition congruence.
    + rewrite IH. intuition congruence.
Qed.

Lemma dict_set_new (k : key) (v : Z) (d : dict) :
  ~ In k (dict_keys d) -> dict_set k v d = d ++ [(k, v)].
Proof.
  induction d as [|[k0 v0] d IH]; simpl; intros Hn; auto.
  destruct (key_eq_dec k k0) as [->|Hne]; [tauto|].
  rewrite IH by tauto. reflexivity.
Qed.

Lemma dict_get_In (k : key) (v : Z) (d : dict) :
  NoDup (dict_keys d) -> (dict_get k d = Some v <-> In (k, v) d).
Proof.
  induction d as [|[k0 v0] d IH]; simpl; intros Hnd.
  - split; [discriminate | tauto].
  - apply NoDup_cons_iff in Hnd. destruct Hnd as [Hn Hnd].
    destruct (key_eq_dec k k0) as [->|Hne].
    + split.
      * intros H. injection H as ->. auto.
      * intros [H|H]; [congruence|].
        exfalso. apply Hn. apply (in_map fst) in H. exact H.
    + rewrite (IH Hnd). split; [auto|]. intros [H|H]; [congruence | exact H].
Qed.

Lemma tabulate_keys (f : key -> Z) (ks : list key) : dict_keys (tabulate f ks) = ks.
Proof. unfold dict_keys, tabulate. rewrite map_map. simpl. apply map_id. Qed.

Lemma tabulate_get (f : key -> Z) (ks : list key) (k : key) :
  dict_get k (tabulate f ks) = if in_dec key_eq_dec k ks then Some (f k) else None.
Proof.
  induction ks as [|k0 ks IH]; simpl; auto.
  destruct (key_eq_dec k k0) as [->|Hne].
  - destruct (key_eq_dec k0 k0); [reflexivity | congruence].
  - rewrite IH. destruct (key_eq_dec k0 k); [congruence|].
    destruct (in_dec key_eq_dec k ks); reflexivity.
Qed.

(** Two dicts over the same keys are equal as dicts exactly when the values
    agree key by key. *)
Lemma dict_eqb_tabulate (f g : key -> Z) (ks : list key) :
  dict_eqb (tabulate f ks) (tabulate g ks) = true <->
  (forall k, In k ks -> f k = g k).
Proof.
  unfold dict_eqb. rewrite andb_true_iff, forallb_forall. split.
  - intros [_ H] k Hk. specialize (H (k, f k)). simpl in H.
    rewrite tabulate_get in H. destruct (in_dec key_eq_dec k ks); [|contradiction].
    apply Z.eqb_eq, H. unfold tabulate. apply in_map_iff. exists k. auto.
  - intros H. split.
    + apply Nat.eqb_eq. unfold tabulate. rewrite !length_map. reflexivity.
    + intros [k v] Hkv. unfold tabulate in Hkv. apply in_map_iff in Hkv.
      destruct Hkv as [k' [E Hk']]. injection E as -> <-. simpl.
      rewrite tabulate_get. destruct (in_dec key_eq_dec k ks); [|contradiction].
      apply Z.eqb_eq. auto.
Qed.

(** ** Loops that fill a dict *)

Lemma for_each_app {A S : Type} (l1 l2 : list A) (body : A -> S -> result S) (s : S) :
  for_each (l1 ++ l2) body s = (s' <- for_each l1 body s ;; for_each l2 body s').
Proof.
  revert s. induction l1 as [|x l1 IH]; intros s; simpl; auto.
  destruct (body x s) as [s'|e]; simpl; auto.
Qed.

Lemma for_each_map {A B S : Type} (f : A -> B) (l : list A)
      (body : B -> S -> result S) (s : S) :
  for_each (map f l) body s = for_each l (fun x => body (f x)) s.
Proof.
  revert s. induction l as [|x l IH]; intros s; simpl; auto.
  destruct (body (f x) s) as [s'|e]; simpl; auto.
Qed.

Lemma for_each_ext_in {A S : Type} (l : list A) (f g : A -> S -> result S) (s : S) :
  (forall x s', In x l -> f x s' = g x s') -> for_each l f s = for_each l g s.
Proof.
  revert s. induction l as [|x l IH]; intros s H; simpl; auto.
  rewrite (H x s) by (simpl; auto).
  destruct (g x s) as [s'|e]; simpl; auto. apply IH. intros; apply H; simpl; auto.
Qed.

(** Two nested loops are one loop over the pairs, the inner variable running
    fastest. *)
Lemma for_each_nested {A B S : Type} (la : list A) (lb : list B)
      (body : A -> B -> S -> result S) (s : S) :
  for_each la (fun a s' => for_each lb (body a) s') s
  = for_each (list_prod la lb) (fun ab => body (fst ab) (snd ab)) s.
Proof.
  revert s. induction la as [|a la IH]; intros s; simpl; auto.
  rewrite for_each_app, for_each_map. simpl.
  replace (for_each lb (fun x : B => body a x) s) with (for_each lb (body a) s)
    by reflexivity.
  destruct (for_each lb (body a) s) as [s'|e]; simpl; auto.
Qed.

(** A loop that assigns fresh keys appends the entries in order. *)
Lemma for_each_fill {A : Type} (kf : A -> key) (vf : A -> Z) (l : list A) (d : dict) :
  NoDup (dict_keys d ++ map kf l) ->
  for_each l (fun x d' => Ok (dict_set (kf x) (vf x) d')) d
  = Ok (d ++ map (fun x => (kf x, vf x)) l).
Proof.
  revert d. induction l as [|x l IH]; intros d Hnd; simpl.
  - rewrite app_nil_r. reflexivity.
  - assert (Hx : ~ In (kf x) (dict_keys d)).
    { apply NoDup_remove_2 in Hnd. intros H. apply Hnd, in_or_app. auto. }
    rewrite (dict_set_new _ _ _ Hx), IH.
    + rewrite <- app_assoc. reflexivity.
    + unfold dict_keys in *. rewrite map_app, <- app_assoc. simpl. exact Hnd.
Qed.

Lemma NoDup_list_prod {A B : Type} (la : list A) (lb : list B) :
  NoDup la -> NoDup lb -> NoDup (list_prod la lb).
Proof.
  intros Ha Hb. induction Ha as [|a la Hn Ha IH]; simpl.
  - constructor.
  - apply NoDup_app; auto.
    + clear - Hb. induction Hb as [|b lb Hn Hb IH]; simpl; constructor; auto.
      rewrite in_map_iff. intros [b' [E Hb']]. injection E as ->. auto.
    + intros [a' b'] H1 H2. apply in_map_iff in H1.
      destruct H1 as [b0 [E _]]. injection E as <- <-.
      apply in_prod_iff in H2. tauto.
Qed.

(** ** Densification *)

Lemma get_all_multiindices_some (p n : Z) :
  0 <= p -> 0 <= n ->
  get_all_multiindices p n = Some (multiindices p n) /\
  NoDup (multiindices p n) /\
  Z.of_nat (List.length (multiindices p n)) = n ^ p.
Proof.
  intros Hp Hn. unfold multiindices.
  destruct (Z.eq_dec p 0) as [->|Hp0].
  - simpl. repeat split. repeat constructor. simpl. tauto.
  - rewrite get_all_multiindices_pos by lia. split; [reflexivity|]. split.
    + apply NoDup_map_ITuple, product_repeat_NoDup, Hn.
    + rewrite length_map, (tuples_count _ _ _ (product_repeat_tuples n p Hn)).
      rewrite Z2Nat.id by lia. reflexivity.
Qed.

Lemma len_nonneg {A : Type} (l : list A) : 0 <= len l.
Proof. unfold len. lia. Qed.

Lemma all_pairs_NoDup (t : Tensor) :
  0 <= covariant_dim t -> 0 <= contravariant_dim t -> NoDup (all_pairs t).
Proof.
  intros Hc Hv. unfold all_pairs.
  apply NoDup_list_prod; apply get_all_multiindices_some; auto using len_nonneg.
Qed.

Lemma all_pairs_length (t : Tensor) :
  0 <= covariant_dim t -> 0 <= contravariant_dim t ->
  Z.of_nat (List.length (all_pairs t))
  = len (basis t) ^ contravariant_dim t * len (basis t) ^ covariant_dim t.
Proof.
  intros Hc Hv. unfold all_pairs. rewrite length_prod, Nat2Z.inj_mul.
  destruct (get_all_multiindices_some (contravariant_dim t) (len (basis t)) Hv
              (len_nonneg _)) as [_ [_ ->]].
  destruct (get_all_multiindices_some (covariant_dim t) (len (basis t)) Hc
              (len_nonneg _)) as [_ [_ ->]].
  reflexivity.
Qed.

(** For ranks that are not negative the dense view lists every pair once, with
    the stored value or zero. *)
Lemma get_all_values_dense (t : Tensor) :
  0 <= covariant_dim t -> 0 <= contravariant_dim t ->
  get_all_values t = Ok (tabulate (value_or_zero (dict_of_values t)) (all_pairs t)).
Proof.
  intros Hc Hv. unfold get_all_values.
  destruct (get_all_multiindices_some (contravariant_dim t) (len (basis t)) Hv
              (len_nonneg _)) as [Ea _].
  destruct (get_all_multiindices_some (covariant_dim t) (len (basis t)) Hc
              (len_nonneg _)) as [Eb _].
  rewrite Ea, Eb. simpl.
  rewrite (for_each_nested _ _
             (fun a b d => Ok (dict_set (a, b)
                                 (value_or_zero (dict_of_values t) (a, b)) d))).
  fold (all_pairs t).
  rewrite (for_each_fill (fun ab : key => (fst ab, snd ab))
             (fun ab : key => value_or_zero (dict_of_values t) (fst ab, snd ab))).
  - simpl. unfold tabulate. apply f_equal. apply map_ext. intros [a b]. reflexivity.
  - simpl. rewrite (map_ext _ (fun ab => ab)) by (intros [a b]; reflexivity).
    rewrite map_id. apply all_pairs_NoDup; assumption.
Qed.

Lemma dict_get_Permutation (k : key) (d1 d2 : dict) :
  NoDup (dict_keys d1) -> Permutation d1 d2 -> dict_get k d1 = dict_get k d2.
Proof.
  intros Hnd Hp.
  assert (Hnd2 : NoDup (dict_keys d2)).
  { apply (Permutation_NoDup (l := dict_keys d1)); auto.
    apply Permutation_map, Hp. }
  destruct (dict_get k d1) as [v|] eqn:E.
  - symmetry. apply dict_get_In; auto.
    apply (Permutation_in _ Hp). apply dict_get_In in E; auto.
  - symmetry. apply dict_get_None. apply dict_get_None in E. intros H. apply E.
    apply (Permutation_in (l := dict_keys d2)); auto.
    apply Permutation_sym, Permutation_map, Hp.
Qed.

(** What [==] returns on two tensors over ranks that are not negative. *)
Lemma Tensor_eq_tensors (t1 t2 : Tensor) :
  0 <= covariant_dim t1 -> 0 <= contravariant_dim t1 ->
  0 <= covariant_dim t2 -> 0 <= contravariant_dim t2 ->
  Tensor_eq t1 (OTensor t2)
  = Ok (basis_eqb (basis t1) (basis t2) && type_eqb (type t1) (type t2)
        && dict_eqb (tabulate (value_or_zero (dict_of_values t1)) (all_pairs t1))
                    (tabulate (value_or_zero (dict_of_values t2)) (all_pairs t2))).
Proof.
  intros H1 H2 H3 H4. unfold Tensor_eq. simpl attr_basis. simpl attr_type.
  unfold call_get_all_values. cbv beta iota delta [bind].
  destruct (basis_eqb (basis t1) (basis t2)); [|reflexivity].
  destruct (type_eqb (type t1) (type t2)); [|reflexivity].
  rewrite !get_all_values_dense by assumption. simpl.
  destruct (dict_eqb _ _); reflexivity.
Qed.

(** ** Equality of tensors *)

Lemma Tensor_eq_true_iff (b1 b2 : list string) (ty1 ty2 : Z * Z) (d1 d2 : dict)
      (t1 t2 : Tensor) :
  Tensor_init b1 ty1 d1 = Ok t1 -> Tensor_init b2 ty2 d2 = Ok t2 ->
  0 <= fst ty1 -> 0 <= snd ty1 -> 0 <= fst ty2 -> 0 <= snd ty2 ->
  (Tensor_eq t1 (OTensor t2) = Ok true \/ Tensor_eq t1 (OTensor t2) = Ok false) /\
  (Tensor_eq t1 (OTensor t2) = Ok true <->
   (b1 = b2 /\ ty1 = ty2 /\
    forall k, In k (all_pairs t1) -> value_or_zero d1 k = value_or_zero d2 k)).
Proof.
  intros I1 I2 Hp1 Hq1 Hp2 Hq2.
  apply Tensor_init_ok in I1. destruct I1 as [_ ->].
  apply Tensor_init_ok in I2. destruct I2 as [_ ->].
  rewrite Tensor_eq_tensors by assumption. simpl.
  split; [destruct (_ && _ && _); auto|].
  destruct (basis_eqb b1 b2) eqn:Eb; simpl.
  - apply basis_eqb_true in Eb. subst b2.
    destruct (type_eqb ty1 ty2) eqn:Et; simpl.
    + apply type_eqb_true in Et. subst ty2. unfold all_pairs. simpl.
      split.
      * intros H. injection H as H. split; [reflexivity|]. split; [reflexivity|].
        apply dict_eqb_tabulate. exact H.
      * intros [_ [_ H]]. f_equal. apply dict_eqb_tabulate. exact H.
    + split; [discriminate|]. intros [_ [E _]]. apply type_eqb_false in Et. tauto.
  - split; [discriminate|]. intros [E _]. apply basis_eqb_false in Eb. tauto.
Qed.

Lemma component_value (d : dict) (k : index * index) (v : Z) :
  unique_keys d = true -> (component d k v <-> value_or_zero d k = v).
Proof.
  intros Hu. apply unique_keys_NoDup in Hu. unfold component, value_or_zero. split.
  - intros [Hin|[Hn ->]].
    + apply (dict_get_In k v d Hu) in Hin. rewrite Hin. reflexivity.
    + apply dict_get_None in Hn. rewrite Hn. reflexivity.
  - destruct (dict_get k d) as [x|] eqn:E; intros <-.
    + left. apply dict_get_In; assumption.
    + right. split; [apply dict_get_None; assumption | reflexivity].
Qed.

Lemma tabulate_In (f : index * index -> Z) (ks : list (index * index))
      (k : index * index) (v : Z) :
  In (k, v) (tabulate f ks) <-> In k ks /\ v = f k.
Proof.
  unfold tabulate. rewrite in_map_iff. split.
  - intros [k' [E Hin]]. injection E as -> <-. auto.
  - intros [Hin ->]. exists k. auto.
Qed.

(** C6: for two tensors as the constructor returns them, from component maps
    that repeat no key and over ranks that are not negative.  The dense view
    has the [dim ^ p * dim ^ q] pairs of multi-indices as its keys, each once,
    and its entries are, for each of these pairs, the value of the entry the
    component map has for the pair, or zero when the map has no entry for it.
    [==] returns a boolean, and returns [True] exactly when the bases are
    equal, the types are equal, and on every pair the two component maps hold
    the same value, an absent entry counting as zero.  So equality is
    reflexive and symmetric; two component maps with the same entries in
    another order give equal tensors; and so do a map and the same map with a
    zero stored under one more key. *)
Theorem Tensor_eq_dense_values (b1 b2 : list string) (ty1 ty2 : Z * Z) (d1 d2 : dict)
        (t1 t2 : Tensor) :
  Tensor_init b1 ty1 d1 = Ok t1 -> Tensor_init b2 ty2 d2 = Ok t2 ->
  unique_keys d1 = true -> unique_keys d2 = true ->
  0 <= fst ty1 -> 0 <= snd ty1 -> 0 <= fst ty2 -> 0 <= snd ty2 ->
  (exists dense,
     get_all_values t1 = Ok dense /\
     dict_keys dense = all_pairs t1 /\
     NoDup (all_pairs t1) /\
     Z.of_nat (List.length (all_pairs t1)) = len b1 ^ snd ty1 * len b1 ^ fst ty1 /\
     (forall k v, In (k, v) dense <-> (In k (all_pairs t1) /\ component d1 k v))) /\
  (Tensor_eq t1 (OTensor t2) = Ok true \/ Tensor_eq t1 (OTensor t2) = Ok false) /\
  (Tensor_eq t1 (OTensor t2) = Ok true <->
   (b1 = b2 /\ ty1 = ty2 /\
    forall k, In k (all_pairs t1) ->
              forall v, component d1 k v <-> component d2 k v)) /\
  Tensor_eq t1 (OTensor t1) = Ok true /\
  Tensor_eq t1 (OTensor t2) = Tensor_eq t2 (OTensor t1) /\
  (b1 = b2 -> ty1 = ty2 -> Permutation d1 d2 ->
   Tensor_eq t1 (OTensor t2) = Ok true) /\
  (b1 = b2 -> ty1 = ty2 ->
   forall k, ~ In k (dict_keys d1) -> d2 = d1 ++ [(k, 0)] ->
   Tensor_eq t1 (OTensor t2) = Ok true).
Proof.
  intros I1 I2 U1 U2 Hp1 Hq1 Hp2 Hq2.
  destruct (Tensor_eq_true_iff b1 b2 ty1 ty2 d1 d2 t1 t2 I1 I2 Hp1 Hq1 Hp2 Hq2)
    as [B12 T12].
  destruct (Tensor_eq_true_iff b2 b1 ty2 ty1 d2 d1 t2 t1 I2 I1 Hp2 Hq2 Hp1 Hq1)
    as [B21 T21].
  destruct (Tensor_eq_true_iff b1 b1 ty1 ty1 d1 d1 t1 t1 I1 I1 Hp1 Hq1 Hp1 Hq1)
    as [_ T11].
  assert (S1 := proj1 (Tensor_init_ok _ _ _ _) I1). destruct S1 as [_ S1].
  assert (S2 := proj1 (Tensor_init_ok _ _ _ _) I2). destruct S2 as [_ S2].
  assert (Hvals : (forall k, In k (all_pairs t1) ->
                             forall v, component d1 k v <-> component d2 k v) <->
                  (forall k, In k (all_pairs t1) ->
                             value_or_zero d1 k = value_or_zero d2 k)).
  { split.
    - intros H k Hk. symmetry. apply (component_value d2 k _ U2).
      apply (H k Hk). apply (component_value d1 k _ U1). reflexivity.
    - intros H k Hk v. rewrite (component_value d1 k v U1), (component_value d2 k v U2).
      rewrite (H k Hk). tauto. }
  assert (T12' : Tensor_eq t1 (OTensor t2) = Ok true <->
                 (b1 = b2 /\ ty1 = ty2 /\
                  forall k, In k (all_pairs t1) ->
                            forall v, component d1 k v <-> component d2 k v)).
  { rewrite T12, Hvals. tauto. }
  split; [|split; [exact B12|split; [exact T12'|split; [|split; [|split]]]]].
  - exists (tabulate (value_or_zero d1) (all_pairs t1)).
    split; [rewrite S1 at 1; rewrite get_all_values_dense by (simpl; assumption);
            rewrite S1; reflexivity|].
    split; [apply tabulate_keys|].
    split; [rewrite S1; apply all_pairs_NoDup; simpl; assumption|].
    split; [rewrite S1; rewrite all_pairs_length by (simpl; assumption); reflexivity|].
    intros k v. rewrite tabulate_In, (component_value d1 k v U1).
    split; intros [H1 H2]; split; congruence.
  - apply T11. auto.
  - assert (Hiff : Tensor_eq t1 (OTensor t2) = Ok true <->
                   Tensor_eq t2 (OTensor t1) = Ok true).
    { rewrite T12, T21. split.
      - intros [-> [-> H]]. split; [reflexivity|]. split; [reflexivity|].
        intros k Hk. symmetry. apply H. rewrite S1. rewrite S2 in Hk. exact Hk.
      - intros [-> [-> H]]. split; [reflexivity|]. split; [reflexivity|].
        intros k Hk. symmetry. apply H. rewrite S2. rewrite S1 in Hk. exact Hk. }
    destruct B12 as [E12|E12], B21 as [E21|E21]; rewrite E12, E21; auto.
    + rewrite (proj1 Hiff E12) in E21. discriminate.
    + rewrite (proj2 Hiff E21) in E12. discriminate.
  - intros Eb Et Hperm. apply T12. split; [exact Eb|]. split; [exact Et|].
    intros k _. unfold value_or_zero.
    rewrite (dict_get_Permutation k d1 d2); auto. apply unique_keys_NoDup, U1.
  - intros Eb Et k Hk ->. apply T12. split; [exact Eb|]. split; [exact Et|].
    intros k' _. unfold value_or_zero.
    rewrite <- (dict_set_new k 0 d1 Hk).
    destruct (key_eq_dec k' k) as [->|Hne].
    + rewrite dict_get_set_same. apply dict_get_None in Hk. rewrite Hk. reflexivity.
    + rewrite dict_get_set_other by assumption. reflexivity.
Qed.

(** The tensor with the identity-like map and the tensor with the empty map
    are not equal: the first holds 3 where the second holds nothing. *)
Lemma Tensor_eq_dense_values_witness :
  Tensor_eq (mkTensor basis2 1 1 (1, 1) identity_like)
            (OTensor (mkTensor basis2 1 1 (1, 1) []))
  = Ok false.
Proof.
  assert (P : 0 <= 1) by lia.
  destruct (Tensor_eq_dense_values basis2 basis2 (1, 1) (1, 1) identity_like []
              (mkTensor basis2 1 1 (1, 1) identity_like)
              (mkTensor basis2 1 1 (1, 1) [])
              eq_refl eq_refl eq_refl eq_refl P P P P)
    as [_ [[Ht|Hf] [Hiff _]]]; [|exact Hf].
  exfalso. apply Hiff in Ht. destruct Ht as [_ [_ H]].
  assert (Hin : In (ITuple [0], ITuple [0])
                   (all_pairs (mkTensor basis2 1 1 (1, 1) identity_like)))
    by (left; reflexivity).
  destruct (proj1 (H _ Hin 3) (or_introl (or_introl eq_refl))) as [[]|[_ Hz]].
  discriminate Hz.
Defined.

(** ** The tensor of a matrix *)

Lemma range_NoDup (n : Z) : NoDup (range n).
Proof.
  apply (StronglySorted_NoDup Z.lt); [intros a; lia | apply range_sorted].
Qed.

Lemma matrix_entry_square (M : list (list Z)) (i j : Z) :
  is_square M = true -> 0 <= i < len M -> 0 <= j < len M ->
  matrix_entry M i j = Ok (entry M i j).
Proof.
  unfold is_square, matrix_entry, entry, len. intros Hsq Hi Hj.
  rewrite forallb_forall in Hsq.
  destruct (nth_error M (Z.to_nat i)) as [row|] eqn:Er.
  - assert (Hrow : List.length row = List.length M).
    { apply Nat.eqb_eq, Hsq. eapply nth_error_In; eauto. }
    rewrite (nth_error_nth _ _ [] Er).
    destruct (nth_error row (Z.to_nat j)) as [v|] eqn:Ev.
    + rewrite (nth_error_nth _ _ 0 Ev). reflexivity.
    + apply nth_error_None in Ev. lia.
  - apply nth_error_None in Er. lia.
Qed.

Lemma is_multiindex_tuple (t : list Z) (n c : Z) :
  Z.of_nat (List.length t) = c -> in_range n t ->
  is_multiindex (ITuple t) n c = Ok true.
Proof.
  intros Hl Hr. simpl. apply Z.eqb_eq in Hl. rewrite Hl. simpl. f_equal.
  apply forallb_forall. intros v Hv. unfold in_range in Hr.
  rewrite Forall_forall in Hr. specialize (Hr v Hv).
  apply negb_true_iff, orb_false_iff. split; [lia|].
  unfold Z.geb. destruct (v ?= n) eqn:E; auto;
    [apply Z.compare_eq_iff in E | apply Z.compare_gt_iff in E]; lia.
Qed.

Lemma dict_get_fill {A : Type} (kf : A -> index * index) (vf : A -> Z)
      (l : list A) (x : A) :
  NoDup (map kf l) -> In x l ->
  dict_get (kf x) (map (fun y => (kf y, vf y)) l) = Some (vf x).
Proof.
  induction l as [|y l IH]; simpl; intros Hnd Hin; [tauto|].
  apply NoDup_cons_iff in Hnd. destruct Hnd as [Hn Hnd].
  destruct (key_eq_dec (kf x) (kf y)) as [E|Hne].
  - destruct Hin as [->|Hin]; [reflexivity|].
    exfalso. apply Hn. rewrite <- E. apply in_map. exact Hin.
  - destruct Hin as [->|Hin]; [congruence | auto].
Qed.

Lemma matrix_keys_NoDup (n : Z) :
  NoDup (map matrix_key (list_prod (range n) (range n))).
Proof.
  assert (H : NoDup (list_prod (range n) (range n)))
    by (apply NoDup_list_prod; apply range_NoDup).
  induction H as [|[i j] l Hn Hd IH]; simpl; constructor; auto.
  rewrite in_map_iff. intros [[i' j'] [E Hin]].
  unfold matrix_key in E. simpl in E. injection E as -> ->. auto.
Qed.

(** The dict that the two loops of [tensor_from_matrix] build from a square
    matrix: its entries row by row. *)
Lemma tensor_from_matrix_dict (M : list (list Z)) :
  is_square M = true ->
  for_each (range (len M)) (fun i d =>
    for_each (range (len M)) (fun j d =>
      v <- matrix_entry M i j ;;
      Ok (dict_set (ITuple [i; j], INone) v d)) d) []
  = Ok (map (fun ij => (matrix_key ij, entry M (fst ij) (snd ij)))
          (list_prod (range (len M)) (range (len M)))).
Proof.
  intros Hsq.
  rewrite (for_each_nested _ _
             (fun i j d => v <- matrix_entry M i j ;;
                           Ok (dict_set (ITuple [i; j], INone) v d))).
  rewrite (for_each_ext_in _ _
             (fun ij d => Ok (dict_set (matrix_key ij)
                                (entry M (fst ij) (snd ij)) d))).
  - rewrite for_each_fill; [reflexivity|]. simpl. apply matrix_keys_NoDup.
  - intros [i j] d Hin. apply in_prod_iff in Hin. destruct Hin as [Hi Hj].
    apply range_In in Hi, Hj. simpl.
    rewrite matrix_entry_square by assumption. reflexivity.
Qed.

(** C3 as stated fails: on the tensor of the matrix [[1, 2], [3, 4]] the
    lookup with the two integers 0 and 0 raises the lookup error, where the
    matrix holds 1; and the empty marker is the second half of the keys, the
    half that the constructor and the lookup test against the covariant
    dimension. *)
Lemma tensor_from_matrix_int_lookup_raises :
  exists t : Tensor,
    tensor_from_matrix [[1; 2]; [3; 4]] basis2 = Ok t /\
    matrix_entry [[1; 2]; [3; 4]] 0 0 = Ok 1 /\
    getitem t (IInt 0) (IInt 0) = Raise (KeyError (Problem_with_multiindices 0 0)) /\
    dict_keys (dict_of_values t)
    = [(ITuple [0; 0], INone); (ITuple [0; 1], INone);
       (ITuple [1; 0], INone); (ITuple [1; 1], INone)] /\
    contravariant_dim t = 2 /\ covariant_dim t = 0.
Proof. eexists. repeat split; reflexivity. Qed.

(** C3, amended: for every square matrix and every basis with as many vectors
    as the matrix has rows, [tensor_from_matrix] returns a tensor over that
    basis, of type (0, 2), whose map repeats no key and has, for every pair
    [(i, j)] in range of the matrix, an entry whose key is made of the tuple
    [(i, j)] and the empty marker and whose value is the entry of the matrix
    in row [i] and column [j], and no other entry; the lookup of the two
    halves of that key returns that entry of the matrix; and the lookup of the
    two integers [i] and [j] raises the lookup error. *)
Theorem tensor_from_matrix_lookup (M : list (list Z)) (b : list string) :
  is_square M = true -> List.length b = List.length M ->
  exists t : Tensor,
    tensor_from_matrix M b = Ok t /\
    type t = (0, 2) /\ basis t = b /\
    unique_keys (dict_of_values t) = true /\
    (forall k v, In (k, v) (dict_of_values t) ->
       exists i j, 0 <= i < len M /\ 0 <= j < len M /\
                   pairs_with_marker k i j /\
                   matrix_entry M i j = Ok v /\ v = entry M i j) /\
    (forall i j, 0 <= i < len M -> 0 <= j < len M ->
       exists k,
         pairs_with_marker k i j /\
         matrix_entry M i j = Ok (entry M i j) /\
         In (k, entry M i j) (dict_of_values t) /\
         getitem t (fst k) (snd k) = Ok (entry M i j) /\
         getitem t (IInt i) (IInt j)
         = Raise (KeyError (Problem_with_multiindices i j))).
Proof.
  intros Hsq Hlen.
  set (L := list_prod (range (len M)) (range (len M))).
  set (D := map (fun ij => (matrix_key ij, entry M (fst ij) (snd ij))) L).
  assert (HL : forall i j, In (i, j) L <-> (0 <= i < len M /\ 0 <= j < len M)).
  { intros i j. unfold L. rewrite in_prod_iff, !range_In. tauto. }
  assert (Hkeys : dict_keys D = map matrix_key L).
  { unfold D, dict_keys. rewrite map_map. reflexivity. }
  assert (Hlb : len b = len M) by (unfold len; lia).
  exists (mkTensor b 0 2 (0, 2) D).
  split; [|split; [reflexivity|split; [reflexivity|split; [|split]]]].
  - unfold tensor_from_matrix. rewrite (tensor_from_matrix_dict M Hsq).
    fold L. fold D. cbn [bind]. apply Tensor_init_ok. split; [|reflexivity].
    rewrite Hkeys. apply Forall_forall. intros k Hk. apply in_map_iff in Hk.
    destruct Hk as [[i j] [<- Hin]]. apply HL in Hin. destruct Hin as [Hi Hj].
    split; simpl fst; simpl snd.
    + apply is_multiindex_tuple; [reflexivity|]. repeat constructor; lia.
    + reflexivity.
  - cbn [dict_of_values]. apply unique_keys_NoDup. rewrite Hkeys.
    apply matrix_keys_NoDup.
  - cbn [dict_of_values]. intros k v Hin. unfold D in Hin. apply in_map_iff in Hin.
    destruct Hin as [[i j] [E Hin]]. injection E as <- <-.
    apply HL in Hin. destruct Hin as [Hi Hj]. exists i, j.
    split; [exact Hi|]. split; [exact Hj|]. split; [left; reflexivity|].
    split; [apply matrix_entry_square; assumption | reflexivity].
  - intros i j Hi Hj. exists (ITuple [i; j], INone).
    split; [left; reflexivity|].
    split; [apply matrix_entry_square; assumption|].
    assert (Hin : In (i, j) L) by (apply HL; auto).
    split; [|split].
    + cbn [dict_of_values]. unfold D. apply in_map_iff. exists (i, j). auto.
    + cbn [fst snd]. unfold getitem, getitem_multi.
      cbn [basis contravariant_dim covariant_dim dict_of_values].
      rewrite is_multiindex_tuple; [|reflexivity|repeat constructor; lia].
      cbn [bind]. unfold value_or_zero, D.
      change (ITuple [i; j], INone) with (matrix_key (i, j)).
      rewrite (dict_get_fill matrix_key (fun ij => entry M (fst ij) (snd ij))
                 L (i, j) (matrix_keys_NoDup (len M)) Hin).
      reflexivity.
    + reflexivity.
Qed.

Lemma tensor_from_matrix_lookup_witness :
  exists (t : Tensor) (k : index * index),
    tensor_from_matrix [[1; 2]; [3; 4]] basis2 = Ok t /\
    pairs_with_marker k 1 0 /\
    In (k, 3) (dict_of_values t) /\
    getitem t (fst k) (snd k) = Ok 3.
Proof.
  destruct (tensor_from_matrix_lookup [[1; 2]; [3; 4]] basis2 eq_refl eq_refl)
    as [t [Ht [_ [_ [_ [_ Hget]]]]]].
  destruct (Hget 1 0) as [k [Hk [_ [Hin [Hg _]]]]];
    [unfold len; simpl; lia | unfold len; simpl; lia |].
  exists t, k. split; [exact Ht|]. split; [exact Hk|]. split; [exact Hin | exact Hg].
Defined.

(** ** Addition *)

Lemma add_key_set (other_dict : dict) (k : index * index) (result_dict : dict) (y : Z) :
  dict_get k other_dict = Some y ->
  add_key other_dict k result_dict
  = Ok (dict_set k (match dict_get k result_dict with
                    | Some x => x + y
                    | None => y
                    end) result_dict).
Proof.
  intros Hy. unfold add_key, dict_in, dict_subscript. rewrite Hy.
  destruct (dict_get k result_dict) as [x|] eqn:E; simpl.
  - rewrite dict_get_set_same. reflexivity.
  - rewrite E. reflexivity.
Qed.

Lemma add_loop (other_dict : dict) (ks : list (index * index)) (result_dict : dict) :
  NoDup ks -> (forall k, In k ks -> In k (dict_keys other_dict)) ->
  exists d, for_each ks (add_key other_dict) result_dict = Ok d /\
            forall k, dict_get k d = if in_dec key_eq_dec k ks
                                     then merged result_dict other_dict k
                                     else dict_get k result_dict.
Proof.
  revert result_dict. induction ks as [|k0 ks IH]; intros rd Hnd Hin; simpl.
  - exists rd. auto.
  - apply NoDup_cons_iff in Hnd. destruct Hnd as [Hn Hnd].
    destruct (dict_get k0 other_dict) as [y|] eqn:Ey.
    2:{ apply dict_get_None in Ey. exfalso. apply Ey, Hin. simpl. auto. }
    rewrite (add_key_set _ _ _ y Ey). simpl.
    destruct (IH (dict_set k0 (match dict_get k0 rd with
                               | Some x => x + y
                               | None => y
                               end) rd) Hnd) as [d [Hd Hget]].
    { intros k Hk. apply Hin. simpl. auto. }
    exists d. split; [exact Hd|]. intros k. rewrite Hget.
    destruct (key_eq_dec k0 k) as [->|Hne].
    + destruct (in_dec key_eq_dec k ks); [contradiction|].
      rewrite dict_get_set_same. unfold merged. rewrite Ey.
      destruct (dict_get k rd); reflexivity.
    + destruct (in_dec key_eq_dec k ks).
      * unfold merged. rewrite dict_get_set_other by congruence. reflexivity.
      * rewrite dict_get_set_other by congruence. reflexivity.
Qed.

Lemma dict_keys_get (k : index * index) (d : dict) :
  In k (dict_keys d) <-> dict_get k d <> None.
Proof.
  split.
  - intros H E. apply dict_get_None in E. tauto.
  - intros H. destruct (in_dec key_eq_dec k (dict_keys d)) as [Hin|Hin]; auto.
    apply dict_get_None in Hin. tauto.
Qed.

(** The loop of [__add__] over every key of [other]. *)
Lemma add_all_keys (d1 d2 : dict) :
  NoDup (dict_keys d2) ->
  exists d, for_each (dict_keys d2) (add_key d2) d1 = Ok d /\
            forall k, dict_get k d = merged d1 d2 k.
Proof.
  intros Hnd. destruct (add_loop d2 (dict_keys d2) d1 Hnd) as [d [Hd Hget]]; auto.
  exists d. split; [exact Hd|]. intros k. rewrite Hget.
  destruct (in_dec key_eq_dec k (dict_keys d2)) as [Hin|Hin]; [reflexivity|].
  apply dict_get_None in Hin. unfold merged. rewrite Hin.
  destruct (dict_get k d1); reflexivity.
Qed.

(** The sum of two tensors as the constructor returns them. *)
Lemma Tensor_add_tensors (b : list string) (ty : Z * Z) (d1 d2 : dict) (t1 t2 : Tensor) :
  Tensor_init b ty d1 = Ok t1 -> Tensor_init b ty d2 = Ok t2 ->
  unique_keys d2 = true ->
  exists d, Tensor_add t1 (OTensor t2) = Ok (mkTensor b (fst ty) (snd ty) ty d) /\
            forall k, dict_get k d = merged d1 d2 k.
Proof.
  intros I1 I2 Hu.
  apply Tensor_init_ok in I1. destruct I1 as [V1 ->].
  apply Tensor_init_ok in I2. destruct I2 as [V2 ->].
  unfold Tensor_add. simpl.
  rewrite (proj2 (basis_eqb_true b b) eq_refl), (proj2 (type_eqb_true ty ty) eq_refl).
  simpl.
  destruct (add_all_keys d1 d2) as [d [Hd Hget]]; [apply unique_keys_NoDup, Hu|].
  rewrite Hd. simpl. exists d. split; [|exact Hget].
  apply Tensor_init_ok. split; [|reflexivity].
  apply Forall_forall. intros k Hk. apply dict_keys_get in Hk.
  rewrite Hget in Hk. rewrite Forall_forall in V1, V2.
  unfold merged in Hk.
  destruct (dict_get k d1) eqn:E1.
  - apply V1, dict_keys_get. congruence.
  - destruct (dict_get k d2) eqn:E2; [|congruence].
    apply V2, dict_keys_get. congruence.
Qed.

(** ** Addition leaves its operands alone *)

Lemma deref_app_old (h : store) (d : dict) (r : nat) :
  (r < List.length h)%nat -> deref (h ++ [d]) r = deref h r.
Proof. intros Hr. unfold deref. apply app_nth1. exact Hr. Qed.

Lemma deref_app_new (h : store) (d : dict) : deref (h ++ [d]) (List.length h) = d.
Proof. unfold deref. rewrite app_nth2, Nat.sub_diag by lia. reflexivity. Qed.

Lemma update_app_new (h : store) (d d' : dict) :
  update (List.length h) d' (h ++ [d]) = h ++ [d'].
Proof. induction h as [|d0 h IH]; simpl; [reflexivity | rewrite IH; reflexivity]. Qed.

(** On a store whose last object is the result dict, one turn of the loop
    changes that object only, and as the body on values does. *)
Lemma add_key_obj_fresh (h : store) (rd : dict) (other_ref : nat) (k : index * index) :
  (other_ref < List.length h)%nat ->
  add_key_obj other_ref (List.length h) k (h ++ [rd])
  = match add_key (deref h other_ref) k rd with
    | Ok rd' => (Ok tt, h ++ [rd'])
    | Raise e => (Raise e, h ++ [rd])
    end.
Proof.
  intros Hr. unfold add_key_obj, add_key, st_bind, load, assign, st_lift, st_ret.
  rewrite deref_app_new. unfold dict_in, dict_subscript.
  destruct (dict_get k rd) as [x|] eqn:Ex.
  - rewrite deref_app_old by assumption.
    destruct (dict_get k (deref h other_ref)) as [y|] eqn:Ey; simpl.
    + rewrite deref_app_new, update_app_new, deref_app_new.
      rewrite dict_get_set_same. reflexivity.
    + reflexivity.
  - simpl. rewrite deref_app_new, Ex. simpl.
    rewrite deref_app_old by assumption.
    destruct (dict_get k (deref h other_ref)) as [y|] eqn:Ey; simpl.
    + rewrite deref_app_new, update_app_new. reflexivity.
    + reflexivity.
Qed.

Lemma add_loop_obj_fresh (h : store) (other_ref : nat) (ks : list (index * index))
      (rd : dict) :
  (other_ref < List.length h)%nat ->
  exists rd',
    st_for_each ks (add_key_obj other_ref (List.length h)) (h ++ [rd])
    = (match for_each ks (add_key (deref h other_ref)) rd with
       | Ok _ => Ok tt
       | Raise e => Raise e
       end, h ++ [rd']) /\
    (forall d, for_each ks (add_key (deref h other_ref)) rd = Ok d -> rd' = d).
Proof.
  intros Hr. revert rd. induction ks as [|k ks IH]; intros rd; simpl.
  - exists rd. split; [reflexivity|]. intros d H. injection H as <-. reflexivity.
  - unfold st_bind. rewrite add_key_obj_fresh by assumption.
    destruct (add_key (deref h other_ref) k rd) as [rd1|e]; simpl.
    + destruct (IH rd1) as [rd' [H1 H2]]. exists rd'. split; assumption.
    + exists rd. split; [reflexivity|]. discriminate.
Qed.

(** Addition on objects leaves every dict of the store as it was, puts the
    result in a new dict, and computes what addition on values computes. *)
Lemma Tensor_add_obj_spec (h : store) (self other : TensorObj) :
  (o_dict self < List.length h)%nat -> (o_dict other < List.length h)%nat ->
  (forall r, (r < List.length h)%nat ->
             deref (snd (Tensor_add_obj self (inl other) h)) r = deref h r) /\
  match fst (Tensor_add_obj self (inl other) h) with
  | Ok o3 =>
      o_dict o3 = List.length h /\
      Tensor_add (view h self) (OTensor (view h other))
      = Ok (view (snd (Tensor_add_obj self (inl other) h)) o3)
  | Raise e => Tensor_add (view h self) (OTensor (view h other)) = Raise e
  end.
Proof.
  intros Hs Ho. unfold Tensor_add_obj, Tensor_add. simpl.
  destruct (negb (basis_eqb (o_basis other) (o_basis self))
            || negb (type_eqb (o_type other) (o_type self))); simpl.
  - split; [reflexivity | reflexivity].
  - unfold st_bind, copy, load. rewrite deref_app_old by assumption.
    destruct (add_loop_obj_fresh h (o_dict other) (dict_keys (deref h (o_dict other)))
                (deref h (o_dict self)) Ho) as [rd' [Hloop Hrd']].
    rewrite Hloop.
    destruct (for_each (dict_keys (deref h (o_dict other)))
                (add_key (deref h (o_dict other))) (deref h (o_dict self)))
      as [d|e] eqn:Ed; simpl.
    + rewrite (Hrd' d eq_refl). unfold Tensor_init_obj, Tensor_init, st_bind, load,
        st_lift, st_ret. rewrite deref_app_new.
      destruct (for_each (dict_keys d)
                  (check_key (len (o_basis self)) (snd (o_type self))
                     (fst (o_type self))) tt) as [[]|e] eqn:Ec; simpl.
      * split; [intros r Hlt; apply deref_app_old; assumption|].
        split; [reflexivity|]. unfold view. simpl. rewrite deref_app_new.
        reflexivity.
      * split; [intros r Hlt; apply deref_app_old; assumption | reflexivity].
    + split; [intros r Hlt; apply deref_app_old; assumption | reflexivity].
Qed.

(** C7: for two tensors as the constructor returns them (the component map of
    the right one being a dict, no key twice): when the bases or the types
    differ, and when the right operand is no tensor, [+] raises a
    [ValueError]; when bases and types are equal it returns a tensor over the
    same basis and of the same type which stores, under every key of either
    operand, the sum of the two stored values, or the one stored value when
    only one operand has the key, and stores nothing under a key of neither;
    and run on dict objects it writes to a new dict only, so that every dict
    of the store, those of the two operands among them, is afterwards what it
    was, and it returns what it returns on values. *)
Theorem Tensor_add_pointwise (b1 b2 : list string) (ty1 ty2 : Z * Z) (d1 d2 : dict)
        (t1 t2 : Tensor) :
  Tensor_init b1 ty1 d1 = Ok t1 -> Tensor_init b2 ty2 d2 = Ok t2 ->
  unique_keys d2 = true ->
  (b1 <> b2 \/ ty1 <> ty2 ->
   Tensor_add t1 (OTensor t2) = Raise (ValueError Same_type_and_basis)) /\
  (forall o, (forall t, o <> OTensor t) ->
   Tensor_add t1 o = Raise (ValueError (Cannot_add_tensor_with (type_name o)))) /\
  (b1 = b2 -> ty1 = ty2 ->
   exists d, Tensor_add t1 (OTensor t2) = Ok (mkTensor b1 (fst ty1) (snd ty1) ty1 d) /\
             forall k, dict_get k d = merged d1 d2 k) /\
  (forall (h : store) (self other : TensorObj),
     view h self = t1 -> view h other = t2 ->
     (o_dict self < List.length h)%nat -> (o_dict other < List.length h)%nat ->
     (forall r, (r < List.length h)%nat ->
                deref (snd (Tensor_add_obj self (inl other) h)) r = deref h r) /\
     view (snd (Tensor_add_obj self (inl other) h)) self = t1 /\
     view (snd (Tensor_add_obj self (inl other) h)) other = t2 /\
     match fst (Tensor_add_obj self (inl other) h) with
     | Ok o3 =>
         o_dict o3 = List.length h /\
         Tensor_add t1 (OTensor t2)
         = Ok (view (snd (Tensor_add_obj self (inl other) h)) o3)
     | Raise e => Tensor_add t1 (OTensor t2) = Raise e
     end).
Proof.
  intros I1 I2 Hu.
  split; [|split; [|split]].
  - intros Hdiff.
    apply Tensor_init_ok in I1. destruct I1 as [_ ->].
    apply Tensor_init_ok in I2. destruct I2 as [_ ->].
    unfold Tensor_add. simpl.
    destruct (basis_eqb b2 b1) eqn:Eb; simpl; [|reflexivity].
    destruct (type_eqb ty2 ty1) eqn:Et; simpl; [|reflexivity].
    apply basis_eqb_true in Eb. apply type_eqb_true in Et.
    destruct Hdiff as [H|H]; congruence.
  - intros o Ho. destruct o as [z|s|t|m]; try reflexivity.
    exfalso. apply (Ho t). reflexivity.
  - intros <- <-. apply (Tensor_add_tensors b1 ty1 d1 d2); assumption.
  - intros h self other V1 V2 Hs Ho.
    destruct (Tensor_add_obj_spec h self other Hs Ho) as [Hframe Hres].
    split; [exact Hframe|].
    split; [unfold view in *; rewrite Hframe by assumption; exact V1|].
    split; [unfold view in *; rewrite Hframe by assumption; exact V2|].
    rewrite V1, V2 in Hres. exact Hres.
Qed.

Lemma Tensor_add_pointwise_witness :
  exists d : dict,
    Tensor_add (mkTensor basis2 1 1 (1, 1) identity_like)
               (OTensor (mkTensor basis2 1 1 (1, 1) identity_like_reordered))
    = Ok (mkTensor basis2 1 1 (1, 1) d) /\
    forall k, dict_get k d = merged identity_like identity_like_reordered k.
Proof.
  exact (proj1 (proj2 (proj2
           (Tensor_add_pointwise basis2 basis2 (1, 1) (1, 1)
              identity_like identity_like_reordered
              (mkTensor basis2 1 1 (1, 1) identity_like)
              (mkTensor basis2 1 1 (1, 1) identity_like_reordered)
              eq_refl eq_refl eq_refl))) eq_refl eq_refl).
Defined.

(** The sum of the identity-like tensor with itself, both operands behind the
    same dict object: the object is read, never written. *)
Example Tensor_add_obj_aliased :
  Tensor_add_obj (mkTensorObj basis2 1 1 (1, 1) 0)
                 (inl (mkTensorObj basis2 1 1 (1, 1) 0)) [identity_like]
  = (Ok (mkTensorObj basis2 1 1 (1, 1) 1),
     [identity_like;
      [((ITuple [0], ITuple [0]), 6); ((ITuple [1], ITuple [1]), 10)]]).
Proof. reflexivity. Qed.

(** ** Generator and validator *)

Lemma is_multiindex_tuple_inv (t : list Z) (n c : Z) :
  is_multiindex (ITuple t) n c = Ok true ->
  Z.of_nat (List.length t) = c /\ in_range n t.
Proof.
  simpl. destruct (Z.of_nat (List.length t) =? c) eqn:E; simpl; [|discriminate].
  intros H. injection H as H. split; [apply Z.eqb_eq, E|].
  apply Forall_forall. intros v Hv. rewrite forallb_forall in H.
  specialize (H v Hv). apply negb_true_iff, orb_false_iff in H.
  destruct H as [H1 H2]. rewrite Z.geb_leb in H2.
  apply Z.ltb_ge in H1. apply Z.leb_gt in H2. lia.
Qed.

Lemma multiindices_pos (p n : Z) :
  0 < p -> multiindices p n = map ITuple (product_repeat n p).
Proof.
  intros Hp. unfold multiindices. rewrite get_all_multiindices_pos by assumption.
  reflexivity.
Qed.

Lemma multiindices_pos_In (p n : Z) (a : index) :
  0 < p -> 0 <= n ->
  (In a (multiindices p n) <->
   exists t, a = ITuple t /\ Z.of_nat (List.length t) = p /\ in_range n t).
Proof.
  intros Hp Hn. rewrite multiindices_pos by assumption. rewrite in_map_iff.
  pose proof (tuples_mem _ _ _ (product_repeat_tuples n p Hn)) as Hmem.
  split.
  - intros [t [<- Ht]]. apply Hmem in Ht. exists t. split; [reflexivity|].
    split; [lia | tauto].
  - intros [t [-> [Hl Hr]]]. exists t. split; [reflexivity|]. apply Hmem.
    split; [lia | assumption].
Qed.

(** Every multi-index the generator yields is accepted by the validator. *)
Lemma multiindices_accepted (p n : Z) (a : index) :
  0 <= p -> 0 <= n -> In a (multiindices p n) -> is_multiindex a n p = Ok true.
Proof.
  intros Hp Hn Hin. destruct (Z.eq_dec p 0) as [->|Hp0].
  - unfold multiindices in Hin. simpl in Hin. destruct Hin as [<-|[]]. reflexivity.
  - apply multiindices_pos_In in Hin; [|lia|assumption].
    destruct Hin as [t [-> [Hl Hr]]]. apply is_multiindex_tuple; assumption.
Qed.

(** X1: for a rank and a basis size that are not negative, the multi-indices
    the generator yields are exactly the indices the validator accepts, the
    empty tuple apart: at rank 0 the validator accepts both the empty marker
    and the empty tuple, and the generator yields the marker only. *)
Theorem multiindices_exactly_accepted (p n : Z) (a : index) :
  0 <= p -> 0 <= n ->
  (In a (multiindices p n) <-> (is_multiindex a n p = Ok true /\ a <> ITuple [])) /\
  (is_multiindex (ITuple []) n p = Ok true <-> p = 0).
Proof.
  intros Hp Hn. split.
  - split.
    + intros Hin. split; [apply multiindices_accepted; assumption|].
      intros ->. destruct (Z.eq_dec p 0) as [->|Hp0].
      * unfold multiindices in Hin. simpl in Hin. destruct Hin as [H|[]]. discriminate.
      * apply multiindices_pos_In in Hin; [|lia|assumption].
        destruct Hin as [t [E [Hl _]]]. injection E as <-. simpl in Hl. lia.
    + intros [Hacc Hne]. destruct a as [k| |t].
      * discriminate Hacc.
      * simpl in Hacc. injection Hacc as Hacc. apply Z.eqb_eq in Hacc. subst p.
        unfold multiindices. simpl. auto.
      * apply is_multiindex_tuple_inv in Hacc. destruct Hacc as [Hl Hr].
        destruct (Z.eq_dec p 0) as [->|Hp0].
        -- destruct t; [congruence | simpl in Hl; lia].
        -- apply multiindices_pos_In; [lia|assumption|]. exists t. auto.
  - split.
    + intros H. apply is_multiindex_tuple_inv in H. simpl in H. lia.
    + intros ->. reflexivity.
Qed.

Lemma multiindices_exactly_accepted_witness :
  (In (ITuple [1; 2]) (multiindices 2 3) <->
   (is_multiindex (ITuple [1; 2]) 3 2 = Ok true /\ ITuple [1; 2] <> ITuple [])) /\
  (is_multiindex (ITuple []) 3 2 = Ok true <-> 2 = 0).
Proof. apply (multiindices_exactly_accepted 2 3 (ITuple [1; 2])); lia. Defined.

(** ** What the constructor returns *)

(** X2: the constructor either finds every key acceptable (the first half for
    the basis size and the second component of the type, the second half for
    the basis size and the first component) and returns the tensor that holds
    its three arguments unchanged, or stops at the first key, in the order of
    the map, with a half that is not acceptable; the error is then a
    [ValueError] naming that half and the rank it was tested against, or the
    [TypeError] of [len] when that half is a bare integer. *)
Theorem Tensor_init_outcome (b : list string) (ty : Z * Z) (d : dict) :
  (Forall (valid_key (len b) (snd ty) (fst ty)) (dict_keys d) /\
   Tensor_init b ty d = Ok (mkTensor b (fst ty) (snd ty) ty d)) \/
  (exists ks1 a c ks2,
     dict_keys d = ks1 ++ (a, c) :: ks2 /\
     Forall (valid_key (len b) (snd ty) (fst ty)) ks1 /\
     ((is_multiindex a (len b) (snd ty) = Ok false /\
       Tensor_init b ty d = Raise (ValueError (Inconsistent_with_dimension a (snd ty)))) \/
      (is_multiindex a (len b) (snd ty) = Ok true /\
       is_multiindex c (len b) (fst ty) = Ok false /\
       Tensor_init b ty d = Raise (ValueError (Inconsistent_with_dimensions c (fst ty)))) \/
      ((is_int a = true \/ (is_multiindex a (len b) (snd ty) = Ok true /\ is_int c = true)) /\
       Tensor_init b ty d = Raise (TypeError Has_no_len)))).
Proof.
  unfold Tensor_init.
  assert (H : forall ks,
    (Forall (valid_key (len b) (snd ty) (fst ty)) ks /\
     for_each ks (check_key (len b) (snd ty) (fst ty)) tt = Ok tt) \/
    (exists ks1 a c ks2,
       ks = ks1 ++ (a, c) :: ks2 /\
       Forall (valid_key (len b) (snd ty) (fst ty)) ks1 /\
       ((is_multiindex a (len b) (snd ty) = Ok false /\
         for_each ks (check_key (len b) (snd ty) (fst ty)) tt
         = Raise (ValueError (Inconsistent_with_dimension a (snd ty)))) \/
        (is_multiindex a (len b) (snd ty) = Ok true /\
         is_multiindex c (len b) (fst ty) = Ok false /\
         for_each ks (check_key (len b) (snd ty) (fst ty)) tt
         = Raise (ValueError (Inconsistent_with_dimensions c (fst ty)))) \/
        ((is_int a = true \/
          (is_multiindex a (len b) (snd ty) = Ok true /\ is_int c = true)) /\
         for_each ks (check_key (len b) (snd ty) (fst ty)) tt
         = Raise (TypeError Has_no_len))))).
  { induction ks as [|[a c] ks IH].
    - left. split; [constructor | reflexivity].
    - simpl for_each. unfold check_key at 1.
      destruct (is_multiindex a (len b) (snd ty)) as [[|]|e] eqn:Ea.
      + destruct (is_multiindex c (len b) (fst ty)) as [[|]|e] eqn:Ec.
        * simpl. destruct IH as [[Hall Hok]|[ks1 [a' [c' [ks2 [E [Hall Hcase]]]]]]].
          -- left. split; [|exact Hok]. constructor; [split; assumption | exact Hall].
          -- right. exists ((a, c) :: ks1), a', c', ks2.
             split; [simpl; rewrite E; reflexivity|].
             split; [constructor; [split; assumption | exact Hall]|].
             exact Hcase.
        * right. exists [], a, c, ks. split; [reflexivity|].
          split; [constructor|]. right; left. auto.
        * right. exists [], a, c, ks. split; [reflexivity|].
          split; [constructor|]. right; right.
          destruct c as [k| |t]; simpl in Ec.
          -- injection Ec as <-. auto.
          -- discriminate.
          -- destruct (negb _); discriminate.
      + right. exists [], a, c, ks. split; [reflexivity|].
        split; [constructor|]. left. auto.
      + right. exists [], a, c, ks. split; [reflexivity|].
        split; [constructor|]. right; right.
        destruct a as [k| |t]; simpl in Ea.
        * injection Ea as <-. auto.
        * discriminate.
        * destruct (negb _); discriminate. }
  destruct (H (dict_keys d)) as [[Hall Hok]|[ks1 [a [c [ks2 [E [Hall Hcase]]]]]]].
  - left. rewrite Hok. auto.
  - right. exists ks1, a, c, ks2. split; [exact E|]. split; [exact Hall|].
    destruct Hcase as [[H1 H2]|[[H1 [H2 H3]]|[H1 H2]]].
    + left. split; [exact H1 | rewrite H2; reflexivity].
    + right; left. split; [exact H1|]. split; [exact H2 | rewrite H3; reflexivity].
    + right; right. split; [exact H1 | rewrite H2; reflexivity].
Qed.

(** ** Lookup *)

Lemma Tensor_init_key_valid (b : list string) (ty : Z * Z) (d : dict) (t : Tensor)
      (k : index * index) :
  Tensor_init b ty d = Ok t -> In k (dict_keys d) ->
  valid_key (len b) (snd ty) (fst ty) k.
Proof.
  intros I Hin. apply Tensor_init_ok in I. destruct I as [Hall _].
  rewrite Forall_forall in Hall. auto.
Qed.

(** Lookup with two arguments the validator accepts. *)
Lemma getitem_accepted (t : Tensor) (a c : index) :
  is_multiindex a (len (basis t)) (contravariant_dim t) = Ok true ->
  is_multiindex c (len (basis t)) (covariant_dim t) = Ok true ->
  getitem t a c = Ok (value_or_zero (dict_of_values t) (a, c)).
Proof.
  intros Ha Hc. destruct a as [ka| |ta]; [discriminate Ha|..];
    (destruct c as [kc| |tc]; [discriminate Hc|..]);
    unfold getitem, getitem_multi; rewrite Ha; cbn [bind];
    rewrite Hc; reflexivity.
Qed.

(** X3: every entry of the component map a tensor was built from reads back:
    when the constructor has returned a tensor for a map without repeated
    keys, looking up the two halves of a key of the map returns the value the
    map holds under it. *)
Theorem getitem_stored (b : list string) (ty : Z * Z) (d : dict) (t : Tensor)
        (a c : index) (v : Z) :
  Tensor_init b ty d = Ok t -> unique_keys d = true -> In ((a, c), v) d ->
  getitem t a c = Ok v.
Proof.
  intros I Hu Hin.
  assert (Hget : dict_get (a, c) d = Some v).
  { apply dict_get_In; [apply unique_keys_NoDup, Hu | exact Hin]. }
  assert (Hk : In (a, c) (dict_keys d)).
  { apply dict_keys_get. congruence. }
  destruct (Tensor_init_key_valid b ty d t (a, c) I Hk) as [Ha Hc].
  apply Tensor_init_ok in I. destruct I as [_ ->].
  rewrite getitem_accepted by assumption.
  simpl. unfold value_or_zero. rewrite Hget. reflexivity.
Qed.

Lemma getitem_stored_witness :
  getitem (mkTensor basis2 1 1 (1, 1) identity_like) (ITuple [1]) (ITuple [1]) = Ok 5.
Proof.
  apply (getitem_stored basis2 (1, 1) identity_like
           (mkTensor basis2 1 1 (1, 1) identity_like) (ITuple [1]) (ITuple [1]) 5);
    [reflexivity | reflexivity | simpl; auto].
Defined.

(** X4: two integers are read as the two singleton tuples: the lookup with the
    integers [i] and [j] returns what the lookup with the tuples [(i,)] and
    [(j,)] returns, and raises a lookup error (with a text of its own) exactly
    when that one raises. *)
Theorem getitem_int_shorthand (t : Tensor) (i j : Z) :
  getitem t (IInt i) (IInt j)
  = match getitem t (ITuple [i]) (ITuple [j]) with
    | Ok v => Ok v
    | Raise _ => Raise (KeyError (Problem_with_multiindices i j))
    end /\
  (forall e, getitem t (ITuple [i]) (ITuple [j]) = Raise e ->
             e = KeyError (Wrong_pair_of_multiindices (ITuple [i]) (ITuple [j]))).
Proof.
  unfold getitem, getitem_multi.
  destruct (is_multiindex (ITuple [i]) (len (basis t)) (contravariant_dim t))
    as [[|]|e] eqn:Ea; cbn [bind].
  - destruct (is_multiindex (ITuple [j]) (len (basis t)) (covariant_dim t))
      as [[|]|e] eqn:Ec; cbn [bind].
    + split; [reflexivity | discriminate].
    + split; [reflexivity|]. intros e H. injection H as <-. reflexivity.
    + simpl in Ec. destruct (negb _); discriminate.
  - split; [reflexivity|]. intros e H. injection H as <-. reflexivity.
  - simpl in Ea. destruct (negb _); discriminate.
Qed.

(** X5: on a tensor the constructor returned for a map without repeated keys,
    a lookup whose two arguments are each the empty marker or a tuple behaves
    as follows.  When the validator accepts the first argument for the basis
    size and the second component of the type and the second argument for the
    basis size and the first component, the lookup returns the value of the
    entry the map has under the pair, and zero when the map has no entry
    under it.  Otherwise it raises the lookup error that names both
    arguments. *)
Theorem getitem_multi_indices (b : list string) (ty : Z * Z) (d : dict) (t : Tensor)
        (a c : index) :
  Tensor_init b ty d = Ok t -> unique_keys d = true ->
  is_int a = false -> is_int c = false ->
  (accepts (len b) (snd ty) a = true -> accepts (len b) (fst ty) c = true ->
   (forall v, In ((a, c), v) d -> getitem t a c = Ok v) /\
   (~ In (a, c) (dict_keys d) -> getitem t a c = Ok 0)) /\
  (accepts (len b) (snd ty) a && accepts (len b) (fst ty) c = false ->
   getitem t a c = Raise (KeyError (Wrong_pair_of_multiindices a c))).
Proof.
  intros I Hu Ha Hc. apply Tensor_init_ok in I. destruct I as [_ ->].
  apply unique_keys_NoDup in Hu. unfold accepts.
  assert (Hbool : forall x n r, is_int x = false ->
                    exists v, is_multiindex x n r = Ok v).
  { intros [k| |l] n r Hx; simpl; try discriminate; eauto.
    destruct (negb _); eauto. }
  destruct (Hbool a (len b) (snd ty) Ha) as [va Eva].
  destruct (Hbool c (len b) (fst ty) Hc) as [vc Evc].
  rewrite Eva, Evc. split.
  - intros Hva Hvc. destruct va; [|discriminate]. destruct vc; [|discriminate].
    split.
    + intros v Hin. rewrite getitem_accepted by assumption. simpl.
      unfold value_or_zero. apply (dict_get_In (a, c) v d Hu) in Hin.
      rewrite Hin. reflexivity.
    + intros Hn. rewrite getitem_accepted by assumption. simpl.
      unfold value_or_zero. apply dict_get_None in Hn. rewrite Hn. reflexivity.
  - intros Hf. destruct va.
    + destruct vc; [discriminate|].
      destruct a; [discriminate|..]; (destruct c; [discriminate|..]);
        unfold getitem, getitem_multi; cbn [basis contravariant_dim covariant_dim];
        rewrite Eva; cbn [bind]; rewrite Evc; reflexivity.
    + destruct a; [discriminate|..]; unfold getitem, getitem_multi;
        cbn [basis contravariant_dim covariant_dim]; rewrite Eva; reflexivity.
Qed.

Lemma getitem_multi_indices_witness :
  getitem (mkTensor basis2 1 1 (1, 1) identity_like) (ITuple [0]) (ITuple [0]) = Ok 3 /\
  getitem (mkTensor basis2 1 1 (1, 1) identity_like) (ITuple [0]) (ITuple [1]) = Ok 0.
Proof.
  split.
  - apply (proj1 (getitem_multi_indices basis2 (1, 1) identity_like
                    (mkTensor basis2 1 1 (1, 1) identity_like)
                    (ITuple [0]) (ITuple [0]) eq_refl eq_refl eq_refl eq_refl)
             eq_refl eq_refl).
    left. reflexivity.
  - apply (proj1 (getitem_multi_indices basis2 (1, 1) identity_like
                    (mkTensor basis2 1 1 (1, 1) identity_like)
                    (ITuple [0]) (ITuple [1]) eq_refl eq_refl eq_refl eq_refl)
             eq_refl eq_refl).
    simpl. intros [H|[H|[]]]; discriminate H.
Defined.

(** ** Negative ranks *)

Lemma get_all_multiindices_none (p n : Z) : p < 0 -> get_all_multiindices p n = None.
Proof.
  intros Hp. unfold get_all_multiindices.
  destruct (p =? 0) eqn:E0; [lia|].
  destruct (p =? 1) eqn:E1; [lia|].
  destruct (p >? 1) eqn:E2; [lia | reflexivity].
Qed.

Lemma multiindices_nonempty (p n : Z) :
  0 <= p -> (1 <= n \/ p = 0) -> multiindices p n <> [].
Proof.
  intros Hp Hn E.
  assert (H0 : 0 <= n \/ p = 0) by lia.
  destruct (Z.eq_dec p 0) as [->|Hp0].
  - unfold multiindices in E. simpl in E. discriminate.
  - destruct (get_all_multiindices_some p n Hp) as [_ [_ Hlen]]; [lia|].
    rewrite E in Hlen. simpl in Hlen.
    assert (0 < n ^ p) by (apply Z.pow_pos_nonneg; lia). lia.
Qed.

(** X6: the constructor accepts any pair of integers as a type when the map is
    empty, but a tensor with a negative rank has no dense view: when the
    contravariant rank is negative, or the covariant rank is negative and
    there is at least one contravariant multi-index to pair it with,
    [get_all_values] ends in the [TypeError] of a loop over [None], and so
    does the comparison of the tensor with itself. *)
Theorem negative_rank_no_dense_view (t : Tensor) :
  contravariant_dim t < 0 \/
  (covariant_dim t < 0 /\ 0 <= contravariant_dim t /\
   (1 <= len (basis t) \/ contravariant_dim t = 0)) ->
  get_all_values t = Raise (TypeError Not_iterable) /\
  Tensor_eq t (OTensor t) = Raise (TypeError Not_iterable) /\
  Tensor_init (basis t) (covariant_dim t, contravariant_dim t) []
  = Ok (mkTensor (basis t) (covariant_dim t) (contravariant_dim t)
          (covariant_dim t, contravariant_dim t) []).
Proof.
  intros H.
  assert (G : get_all_values t = Raise (TypeError Not_iterable)).
  { unfold get_all_values. destruct H as [H|[Hc [Hv Hn]]].
    - rewrite (get_all_multiindices_none (contravariant_dim t)) by assumption.
      reflexivity.
    - rewrite (get_all_multiindices_none (covariant_dim t)) by assumption.
      destruct (get_all_multiindices_some (contravariant_dim t) (len (basis t)) Hv
                  (len_nonneg _)) as [E _].
      rewrite E. simpl.
      destruct (multiindices (contravariant_dim t) (len (basis t))) as [|a la] eqn:El.
      + exfalso. apply (multiindices_nonempty _ _ Hv Hn El).
      + reflexivity. }
  split; [exact G|]. split; [|reflexivity].
  unfold Tensor_eq. simpl.
  rewrite (proj2 (basis_eqb_true _ _) eq_refl), (proj2 (type_eqb_true _ _) eq_refl).
  rewrite G. reflexivity.
Qed.

Lemma negative_rank_no_dense_view_witness :
  Tensor_eq (mkTensor basis2 0 (-1) (0, -1) []) (OTensor (mkTensor basis2 0 (-1) (0, -1) []))
  = Raise (TypeError Not_iterable).
Proof.
  apply (negative_rank_no_dense_view (mkTensor basis2 0 (-1) (0, -1) [])).
  left. simpl. lia.
Defined.

(** ** The dense view and the other operations *)

Lemma all_pairs_valid (t : Tensor) (k : index * index) :
  0 <= covariant_dim t -> 0 <= contravariant_dim t -> In k (all_pairs t) ->
  valid_key (len (basis t)) (contravariant_dim t) (covariant_dim t) k.
Proof.
  intros Hc Hv Hin. destruct k as [a c]. unfold all_pairs in Hin.
  apply in_prod_iff in Hin. destruct Hin as [Ha Hb].
  split; simpl; apply multiindices_accepted; auto using len_nonneg.
Qed.

Lemma tabulate_value (f : index * index -> Z) (ks : list (index * index))
      (k : index * index) :
  In k ks -> value_or_zero (tabulate f ks) k = f k.
Proof.
  intros Hin. unfold value_or_zero. rewrite tabulate_get.
  destruct (in_dec key_eq_dec k ks); [reflexivity | contradiction].
Qed.

(** X7: for a tensor the constructor returned, with ranks that are not
    negative, the dense view has exactly the generated pairs as keys, and
    under each of them the value that the lookup returns for the pair; under
    any other key it has nothing. *)
Theorem get_all_values_agrees_with_getitem (b : list string) (ty : Z * Z) (d : dict)
        (t : Tensor) :
  Tensor_init b ty d = Ok t -> 0 <= fst ty -> 0 <= snd ty ->
  exists dense,
    get_all_values t = Ok dense /\
    dict_keys dense = all_pairs t /\
    (forall a c, In (a, c) (all_pairs t) ->
                 getitem t a c = dict_subscript dense (a, c)) /\
    (forall k, ~ In k (all_pairs t) -> dict_get k dense = None).
Proof.
  intros I Hp Hq. apply Tensor_init_ok in I. destruct I as [_ ->].
  set (t := mkTensor b (fst ty) (snd ty) ty d).
  exists (tabulate (value_or_zero d) (all_pairs t)).
  split; [apply (get_all_values_dense t); assumption|].
  split; [apply tabulate_keys|]. split.
  - intros a c Hin.
    destruct (all_pairs_valid t (a, c) Hp Hq Hin) as [Ha Hc].
    rewrite getitem_accepted by assumption.
    unfold dict_subscript. rewrite tabulate_get.
    destruct (in_dec key_eq_dec (a, c) (all_pairs t)); [reflexivity | contradiction].
  - intros k Hk. rewrite tabulate_get.
    destruct (in_dec key_eq_dec k (all_pairs t)); [contradiction | reflexivity].
Qed.

Lemma get_all_values_agrees_with_getitem_witness :
  exists dense,
    get_all_values (mkTensor basis2 1 1 (1, 1) identity_like) = Ok dense /\
    dict_keys dense = all_pairs (mkTensor basis2 1 1 (1, 1) identity_like) /\
    (forall a c, In (a, c) (all_pairs (mkTensor basis2 1 1 (1, 1) identity_like)) ->
                 getitem (mkTensor basis2 1 1 (1, 1) identity_like) a c
                 = dict_subscript dense (a, c)) /\
    (forall k, ~ In k (all_pairs (mkTensor basis2 1 1 (1, 1) identity_like)) ->
               dict_get k dense = None).
Proof.
  apply (get_all_values_agrees_with_getitem basis2 (1, 1) identity_like);
    [reflexivity | simpl; lia | simpl; lia].
Defined.

(** X8: the dense view of a tensor is itself a component map the constructor
    accepts for the same basis and type; the tensor built from it is equal to
    the original, and its own dense view is the same map again. *)
Theorem dense_view_rebuilds (b : list string) (ty : Z * Z) (d : dict) (t : Tensor) :
  Tensor_init b ty d = Ok t -> 0 <= fst ty -> 0 <= snd ty ->
  exists dense t',
    get_all_values t = Ok dense /\
    unique_keys dense = true /\
    Tensor_init b ty dense = Ok t' /\
    Tensor_eq t (OTensor t') = Ok true /\
    get_all_values t' = Ok dense.
Proof.
  intros I Hp Hq.
  pose proof I as I0. apply Tensor_init_ok in I0. destruct I0 as [_ ->].
  set (t := mkTensor b (fst ty) (snd ty) ty d) in *.
  set (dense := tabulate (value_or_zero d) (all_pairs t)).
  set (t' := mkTensor b (fst ty) (snd ty) ty dense).
  assert (Hnd : NoDup (all_pairs t)) by (apply all_pairs_NoDup; assumption).
  assert (I' : Tensor_init b ty dense = Ok t').
  { apply Tensor_init_ok. split; [|reflexivity].
    unfold dense. rewrite tabulate_keys. apply Forall_forall. intros k Hk.
    apply (all_pairs_valid t k Hp Hq Hk). }
  exists dense, t'.
  split; [apply (get_all_values_dense t); assumption|].
  split; [apply unique_keys_NoDup; unfold dense; rewrite tabulate_keys; exact Hnd|].
  split; [exact I'|]. split.
  - apply (Tensor_eq_true_iff b b ty ty d dense t t' I I' Hp Hq Hp Hq).
    split; [reflexivity|]. split; [reflexivity|].
    intros k Hk. unfold dense. rewrite tabulate_value by assumption. reflexivity.
  - rewrite (get_all_values_dense t') by assumption.
    change (Ok (tabulate (value_or_zero dense) (all_pairs t))
            = Ok (tabulate (value_or_zero d) (all_pairs t))).
    apply f_equal. apply map_ext_in. intros k Hk.
    unfold dense. rewrite tabulate_value by assumption. reflexivity.
Qed.

Lemma dense_view_rebuilds_witness :
  exists dense t',
    get_all_values (mkTensor basis2 1 1 (1, 1) identity_like) = Ok dense /\
    unique_keys dense = true /\
    Tensor_init basis2 (1, 1) dense = Ok t' /\
    Tensor_eq (mkTensor basis2 1 1 (1, 1) identity_like) (OTensor t') = Ok true /\
    get_all_values t' = Ok dense.
Proof.
  apply (dense_view_rebuilds basis2 (1, 1) identity_like);
    [reflexivity | simpl; lia | simpl; lia].
Defined.

(** ** More on equality *)

(** X9: on tensors the constructor returned, with ranks that are not negative,
    equality is transitive. *)
Theorem Tensor_eq_transitive (b1 b2 b3 : list string) (ty1 ty2 ty3 : Z * Z)
        (d1 d2 d3 : dict) (t1 t2 t3 : Tensor) :
  Tensor_init b1 ty1 d1 = Ok t1 -> Tensor_init b2 ty2 d2 = Ok t2 ->
  Tensor_init b3 ty3 d3 = Ok t3 ->
  0 <= fst ty1 -> 0 <= snd ty1 -> 0 <= fst ty2 -> 0 <= snd ty2 ->
  0 <= fst ty3 -> 0 <= snd ty3 ->
  Tensor_eq t1 (OTensor t2) = Ok true -> Tensor_eq t2 (OTensor t3) = Ok true ->
  Tensor_eq t1 (OTensor t3) = Ok true.
Proof.
  intros I1 I2 I3 Hp1 Hq1 Hp2 Hq2 Hp3 Hq3 E12 E23.
  apply (Tensor_eq_true_iff b1 b2 ty1 ty2 d1 d2 t1 t2 I1 I2 Hp1 Hq1 Hp2 Hq2) in E12.
  apply (Tensor_eq_true_iff b2 b3 ty2 ty3 d2 d3 t2 t3 I2 I3 Hp2 Hq2 Hp3 Hq3) in E23.
  apply (Tensor_eq_true_iff b1 b3 ty1 ty3 d1 d3 t1 t3 I1 I3 Hp1 Hq1 Hp3 Hq3).
  destruct E12 as [-> [-> H12]]. destruct E23 as [-> [-> H23]].
  split; [reflexivity|]. split; [reflexivity|].
  intros k Hk. rewrite H12 by assumption. apply H23.
  apply Tensor_init_ok in I1, I2. destruct I1 as [_ S1]. destruct I2 as [_ S2].
  rewrite S2. rewrite S1 in Hk. exact Hk.
Qed.

Lemma Tensor_eq_transitive_witness :
  Tensor_eq (mkTensor basis2 1 1 (1, 1) identity_like)
            (OTensor (mkTensor basis2 1 1 (1, 1) identity_like))
  = Ok true.
Proof.
  assert (P : 0 <= 1) by lia.
  exact (Tensor_eq_transitive basis2 basis2 basis2 (1, 1) (1, 1) (1, 1)
           identity_like identity_like_reordered identity_like
           (mkTensor basis2 1 1 (1, 1) identity_like)
           (mkTensor basis2 1 1 (1, 1) identity_like_reordered)
           (mkTensor basis2 1 1 (1, 1) identity_like)
           eq_refl eq_refl eq_refl P P P P P P eq_refl eq_refl).
Defined.

(** X10: equality compares the generated pairs only.  A value stored under a
    key that is not a generated pair (the constructor accepts the empty tuple
    where the generator yields the empty marker) does not count: the tensor
    with that entry is equal to the tensor without it, although the lookup of
    that key returns the stored value. *)
Theorem Tensor_eq_ignores_other_keys (b : list string) (ty : Z * Z) (d : dict)
        (t t' : Tensor) (k : index * index) (v : Z) :
  Tensor_init b ty d = Ok t -> Tensor_init b ty (dict_set k v d) = Ok t' ->
  0 <= fst ty -> 0 <= snd ty -> ~ In k (all_pairs t) ->
  Tensor_eq t (OTensor t') = Ok true /\
  Tensor_eq t' (OTensor t) = Ok true /\
  getitem t' (fst k) (snd k) = Ok v.
Proof.
  intros I I' Hp Hq Hk.
  assert (Hvals : forall k', In k' (all_pairs t) ->
                             value_or_zero d k' = value_or_zero (dict_set k v d) k').
  { intros k' Hk'. unfold value_or_zero.
    rewrite dict_get_set_other; [reflexivity|]. intros ->. contradiction. }
  assert (S := proj1 (Tensor_init_ok _ _ _ _) I). destruct S as [_ S].
  assert (S' := proj1 (Tensor_init_ok _ _ _ _) I'). destruct S' as [_ S'].
  split; [|split].
  - apply (Tensor_eq_true_iff b b ty ty d (dict_set k v d) t t' I I' Hp Hq Hp Hq).
    auto.
  - apply (Tensor_eq_true_iff b b ty ty (dict_set k v d) d t' t I' I Hp Hq Hp Hq).
    split; [reflexivity|]. split; [reflexivity|]. intros k' Hk'. symmetry.
    apply Hvals. rewrite S. rewrite S' in Hk'. exact Hk'.
  - assert (Hin : In k (dict_keys (dict_set k v d))) by (apply dict_keys_set; auto).
    destruct (Tensor_init_key_valid b ty _ t' k I' Hin) as [Ha Hc].
    rewrite S'. rewrite getitem_accepted by assumption. simpl.
    unfold value_or_zero. destruct k as [a c]. simpl.
    rewrite dict_get_set_same. reflexivity.
Qed.

Lemma Tensor_eq_ignores_other_keys_witness :
  Tensor_eq (mkTensor basis2 0 0 (0, 0) [])
            (OTensor (mkTensor basis2 0 0 (0, 0) [((ITuple [], ITuple []), 7)]))
  = Ok true /\
  Tensor_eq (mkTensor basis2 0 0 (0, 0) [((ITuple [], ITuple []), 7)])
            (OTensor (mkTensor basis2 0 0 (0, 0) []))
  = Ok true /\
  getitem (mkTensor basis2 0 0 (0, 0) [((ITuple [], ITuple []), 7)])
          (ITuple []) (ITuple []) = Ok 7.
Proof.
  assert (P : 0 <= 0) by lia.
  refine (Tensor_eq_ignores_other_keys basis2 (0, 0) []
            (mkTensor basis2 0 0 (0, 0) [])
            (mkTensor basis2 0 0 (0, 0) [((ITuple [], ITuple []), 7)])
            (ITuple [], ITuple []) 7 eq_refl eq_refl P P _).
  simpl. intros [H|[]]. discriminate H.
Defined.

(** ** More on addition *)

Lemma dict_keys_set_list (k : index * index) (v : Z) (d : dict) :
  dict_keys (dict_set k v d)
  = if in_dec key_eq_dec k (dict_keys d) then dict_keys d else dict_keys d ++ [k].
Proof.
  induction d as [|[k0 v0] d IH]; simpl.
  - reflexivity.
  - destruct (key_eq_dec k k0) as [->|Hne]; simpl.
    + destruct (key_eq_dec k0 k0); [reflexivity | congruence].
    + rewrite IH. destruct (key_eq_dec k0 k); [congruence|].
      destruct (in_dec key_eq_dec k (dict_keys d)); reflexivity.
Qed.

Lemma dict_set_NoDup (k : index * index) (v : Z) (d : dict) :
  NoDup (dict_keys d) -> NoDup (dict_keys (dict_set k v d)).
Proof.
  intros Hnd. rewrite dict_keys_set_list.
  destruct (in_dec key_eq_dec k (dict_keys d)) as [Hin|Hin]; [exact Hnd|].
  apply NoDup_app; auto.
  - repeat constructor. simpl. tauto.
  - intros a Ha [<-|[]]. contradiction.
Qed.

Lemma add_loop_NoDup (other_dict : dict) (ks : list (index * index))
      (result_dict d : dict) :
  (forall k, In k ks -> In k (dict_keys other_dict)) ->
  for_each ks (add_key other_dict) result_dict = Ok d ->
  NoDup (dict_keys result_dict) -> NoDup (dict_keys d).
Proof.
  revert result_dict. induction ks as [|k0 ks IH]; intros rd Hin Hd Hnd; simpl in Hd.
  - injection Hd as <-. exact Hnd.
  - destruct (dict_get k0 other_dict) as [y|] eqn:Ey.
    2:{ apply dict_get_None in Ey. exfalso. apply Ey, Hin. simpl. auto. }
    rewrite (add_key_set _ _ _ y Ey) in Hd. simpl in Hd.
    apply (IH _ (fun k Hk => Hin k (or_intror Hk)) Hd).
    apply dict_set_NoDup, Hnd.
Qed.

(** The sum of two tensors over the same basis and of the same type, with
    what the constructor says of the summed map. *)
Lemma Tensor_add_sum (b : list string) (ty : Z * Z) (d1 d2 : dict) (t1 t2 : Tensor) :
  Tensor_init b ty d1 = Ok t1 -> Tensor_init b ty d2 = Ok t2 ->
  unique_keys d2 = true ->
  exists d,
    Tensor_add t1 (OTensor t2) = Ok (mkTensor b (fst ty) (snd ty) ty d) /\
    Tensor_init b ty d = Ok (mkTensor b (fst ty) (snd ty) ty d) /\
    (forall k, dict_get k d = merged d1 d2 k) /\
    (unique_keys d1 = true -> unique_keys d = true).
Proof.
  intros I1 I2 Hu.
  apply Tensor_init_ok in I1. destruct I1 as [V1 ->].
  apply Tensor_init_ok in I2. destruct I2 as [V2 ->].
  destruct (add_all_keys d1 d2) as [d [Hd Hget]]; [apply unique_keys_NoDup, Hu|].
  assert (Hinit : Tensor_init b ty d = Ok (mkTensor b (fst ty) (snd ty) ty d)).
  { apply Tensor_init_ok. split; [|reflexivity].
    apply Forall_forall. intros k Hk. apply dict_keys_get in Hk.
    rewrite Hget in Hk. rewrite Forall_forall in V1, V2. unfold merged in Hk.
    destruct (dict_get k d1) eqn:E1.
    - apply V1, dict_keys_get. congruence.
    - destruct (dict_get k d2) eqn:E2; [|congruence].
      apply V2, dict_keys_get. congruence. }
  exists d. split; [|split; [exact Hinit|split; [exact Hget|]]].
  - unfold Tensor_add. simpl.
    rewrite (proj2 (basis_eqb_true b b) eq_refl), (proj2 (type_eqb_true ty ty) eq_refl).
    simpl. rewrite Hd. simpl. exact Hinit.
  - intros Hu1. apply unique_keys_NoDup.
    apply (add_loop_NoDup d2 (dict_keys d2) d1 d); auto.
    apply unique_keys_NoDup, Hu1.
Qed.

Lemma merged_value (d d1 d2 : dict) (k : index * index) :
  dict_get k d = merged d1 d2 k ->
  value_or_zero d k = value_or_zero d1 k + value_or_zero d2 k.
Proof.
  unfold value_or_zero, merged. intros ->.
  destruct (dict_get k d1), (dict_get k d2); lia.
Qed.

(** X11: addition is commutative up to equality of tensors: for two tensors
    over the same basis and of the same type, with ranks that are not
    negative, both sums exist and compare equal (their maps may list the keys
    in different orders). *)
Theorem Tensor_add_commutes (b : list string) (ty : Z * Z) (d1 d2 : dict)
        (t1 t2 : Tensor) :
  Tensor_init b ty d1 = Ok t1 -> Tensor_init b ty d2 = Ok t2 ->
  unique_keys d1 = true -> unique_keys d2 = true ->
  0 <= fst ty -> 0 <= snd ty ->
  exists s12 s21,
    Tensor_add t1 (OTensor t2) = Ok s12 /\
    Tensor_add t2 (OTensor t1) = Ok s21 /\
    Tensor_eq s12 (OTensor s21) = Ok true.
Proof.
  intros I1 I2 U1 U2 Hp Hq.
  destruct (Tensor_add_sum b ty d1 d2 t1 t2 I1 I2 U2) as [d12 [A12 [J12 [G12 _]]]].
  destruct (Tensor_add_sum b ty d2 d1 t2 t1 I2 I1 U1) as [d21 [A21 [J21 [G21 _]]]].
  eexists. eexists. split; [exact A12|]. split; [exact A21|].
  apply (Tensor_eq_true_iff b b ty ty d12 d21 _ _ J12 J21 Hp Hq Hp Hq).
  split; [reflexivity|]. split; [reflexivity|]. intros k _.
  rewrite (merged_value d12 d1 d2 k (G12 k)), (merged_value d21 d2 d1 k (G21 k)). lia.
Qed.

Lemma Tensor_add_commutes_witness :
  exists s12 s21,
    Tensor_add (mkTensor basis2 1 1 (1, 1) identity_like)
               (OTensor (mkTensor basis2 1 1 (1, 1) identity_like_reordered)) = Ok s12 /\
    Tensor_add (mkTensor basis2 1 1 (1, 1) identity_like_reordered)
               (OTensor (mkTensor basis2 1 1 (1, 1) identity_like)) = Ok s21 /\
    Tensor_eq s12 (OTensor s21) = Ok true.
Proof.
  assert (P : 0 <= 1) by lia.
  exact (Tensor_add_commutes basis2 (1, 1) identity_like identity_like_reordered
           (mkTensor basis2 1 1 (1, 1) identity_like)
           (mkTensor basis2 1 1 (1, 1) identity_like_reordered)
           eq_refl eq_refl eq_refl eq_refl P P).
Defined.

(** X12: addition is associative up to equality of tensors: for three tensors
    over the same basis and of the same type, with ranks that are not
    negative, both ways of adding them exist and compare equal. *)
Theorem Tensor_add_associates (b : list string) (ty : Z * Z) (d1 d2 d3 : dict)
        (t1 t2 t3 : Tensor) :
  Tensor_init b ty d1 = Ok t1 -> Tensor_init b ty d2 = Ok t2 ->
  Tensor_init b ty d3 = Ok t3 ->
  unique_keys d2 = true -> unique_keys d3 = true ->
  0 <= fst ty -> 0 <= snd ty ->
  exists s12 s23 l r,
    Tensor_add t1 (OTensor t2) = Ok s12 /\ Tensor_add s12 (OTensor t3) = Ok l /\
    Tensor_add t2 (OTensor t3) = Ok s23 /\ Tensor_add t1 (OTensor s23) = Ok r /\
    Tensor_eq l (OTensor r) = Ok true.
Proof.
  intros I1 I2 I3 U2 U3 Hp Hq.
  destruct (Tensor_add_sum b ty d1 d2 t1 t2 I1 I2 U2) as [d12 [A12 [J12 [G12 _]]]].
  destruct (Tensor_add_sum b ty d12 d3 _ t3 J12 I3 U3) as [dl [Al [Jl [Gl _]]]].
  destruct (Tensor_add_sum b ty d2 d3 t2 t3 I2 I3 U3) as [d23 [A23 [J23 [G23 U23]]]].
  destruct (Tensor_add_sum b ty d1 d23 t1 _ I1 J23 (U23 U2)) as [dr [Ar [Jr [Gr _]]]].
  do 4 eexists. split; [exact A12|]. split; [exact Al|]. split; [exact A23|].
  split; [exact Ar|].
  apply (Tensor_eq_true_iff b b ty ty dl dr _ _ Jl Jr Hp Hq Hp Hq).
  split; [reflexivity|]. split; [reflexivity|]. intros k _.
  rewrite (merged_value dl d12 d3 k (Gl k)), (merged_value d12 d1 d2 k (G12 k)).
  rewrite (merged_value dr d1 d23 k (Gr k)), (merged_value d23 d2 d3 k (G23 k)). lia.
Qed.

Lemma Tensor_add_associates_witness :
  exists s12 s23 l r,
    Tensor_add (mkTensor basis2 1 1 (1, 1) identity_like)
               (OTensor (mkTensor basis2 1 1 (1, 1) identity_like_reordered)) = Ok s12 /\
    Tensor_add s12 (OTensor (mkTensor basis2 1 1 (1, 1) identity_like)) = Ok l /\
    Tensor_add (mkTensor basis2 1 1 (1, 1) identity_like_reordered)
               (OTensor (mkTensor basis2 1 1 (1, 1) identity_like)) = Ok s23 /\
    Tensor_add (mkTensor basis2 1 1 (1, 1) identity_like) (OTensor s23) = Ok r /\
    Tensor_eq l (OTensor r) = Ok true.
Proof.
  assert (P : 0 <= 1) by lia.
  exact (Tensor_add_associates basis2 (1, 1)
           identity_like identity_like_reordered identity_like
           (mkTensor basis2 1 1 (1, 1) identity_like)
           (mkTensor basis2 1 1 (1, 1) identity_like_reordered)
           (mkTensor basis2 1 1 (1, 1) identity_like)
           eq_refl eq_refl eq_refl eq_refl eq_refl P P).
Defined.

Lemma add_loop_fresh (other_dict : dict) (ks : list (index * index)) (acc : dict) :
  NoDup (dict_keys acc ++ ks) -> (forall k, In k ks -> In k (dict_keys other_dict)) ->
  for_each ks (add_key other_dict) acc
  = Ok (acc ++ map (fun k => (k, value_or_zero other_dict k)) ks).
Proof.
  revert acc. induction ks as [|k0 ks IH]; intros acc Hnd Hin; simpl.
  - rewrite app_nil_r. reflexivity.
  - destruct (dict_get k0 other_dict) as [y|] eqn:Ey.
    2:{ apply dict_get_None in Ey. exfalso. apply Ey, Hin. simpl. auto. }
    rewrite (add_key_set _ _ _ y Ey). simpl.
    assert (Hk0 : ~ In k0 (dict_keys acc)).
    { apply NoDup_remove_2 in Hnd. intros H. apply Hnd, in_or_app. auto. }
    rewrite (proj2 (dict_get_None k0 acc) Hk0).
    rewrite (dict_set_new _ _ _ Hk0), IH.
    + rewrite <- app_assoc. simpl. unfold value_or_zero at 2. rewrite Ey. reflexivity.
    + unfold dict_keys in *. rewrite map_app, <- app_assoc. simpl. exact Hnd.
    + intros k Hk. apply Hin. simpl. auto.
Qed.

Lemma dict_relisted (d : dict) :
  NoDup (dict_keys d) -> map (fun k => (k, value_or_zero d k)) (dict_keys d) = d.
Proof.
  induction d as [|[k0 v0] d IH]; simpl; intros Hnd; [reflexivity|].
  apply NoDup_cons_iff in Hnd. destruct Hnd as [Hn Hnd].
  unfold value_or_zero at 1. simpl.
  destruct (key_eq_dec k0 k0); [|congruence]. f_equal.
  rewrite <- (IH Hnd) at 2. apply map_ext_in. intros k Hk.
  unfold value_or_zero. simpl.
  destruct (key_eq_dec k k0) as [->|Hne]; [contradiction | reflexivity].
Qed.

(** X13: the tensor with the empty map is a neutral element: adding it on the
    right returns the other operand as it is, and adding it on the left
    returns the other operand as it is when its map repeats no key. *)
Theorem Tensor_add_zero (b : list string) (ty : Z * Z) (d : dict) (t : Tensor) :
  Tensor_init b ty d = Ok t ->
  Tensor_init b ty [] = Ok (mkTensor b (fst ty) (snd ty) ty []) /\
  Tensor_add t (OTensor (mkTensor b (fst ty) (snd ty) ty [])) = Ok t /\
  (unique_keys d = true ->
   Tensor_add (mkTensor b (fst ty) (snd ty) ty []) (OTensor t) = Ok t).
Proof.
  intros I. pose proof I as I0. apply Tensor_init_ok in I0. destruct I0 as [_ ->].
  split; [reflexivity|]. split.
  - unfold Tensor_add. simpl.
    rewrite (proj2 (basis_eqb_true b b) eq_refl), (proj2 (type_eqb_true ty ty) eq_refl).
    simpl. exact I.
  - intros Hu. apply unique_keys_NoDup in Hu. unfold Tensor_add. simpl.
    rewrite (proj2 (basis_eqb_true b b) eq_refl), (proj2 (type_eqb_true ty ty) eq_refl).
    simpl. rewrite add_loop_fresh; auto. simpl.
    rewrite (dict_relisted d Hu). exact I.
Qed.

Lemma Tensor_add_zero_witness :
  Tensor_add (mkTensor basis2 1 1 (1, 1) [])
             (OTensor (mkTensor basis2 1 1 (1, 1) identity_like))
  = Ok (mkTensor basis2 1 1 (1, 1) identity_like).
Proof.
  exact (proj2 (proj2 (Tensor_add_zero basis2 (1, 1) identity_like
                         (mkTensor basis2 1 1 (1, 1) identity_like) eq_refl))
           eq_refl).
Defined.

Lemma getitem_lookup_key (t : Tensor) (a c : index) :
  getitem t a c
  = (k <- lookup_key (len (basis t)) (covariant_dim t) (contravariant_dim t) a c ;;
     Ok (value_or_zero (dict_of_values t) k)).
Proof.
  assert (M : forall a c,
    getitem_multi t a c
    = (k <- lookup_key_multi (len (basis t)) (covariant_dim t) (contravariant_dim t) a c ;;
       Ok (value_or_zero (dict_of_values t) k))).
  { intros a' c'. unfold getitem_multi, lookup_key_multi.
    destruct (is_multiindex a' (len (basis t)) (contravariant_dim t)) as [[|]|e];
      cbn [bind]; try reflexivity.
    destruct c'; try reflexivity;
      destruct (is_multiindex _ (len (basis t)) (covariant_dim t)) as [[|]|e];
      reflexivity. }
  unfold getitem, lookup_key. destruct a as [ka| |ta]; try apply M.
  destruct c as [kc| |tc].
  - destruct (is_multiindex (ITuple [ka]) (len (basis t)) (contravariant_dim t))
      as [[|]|e]; cbn [bind]; try reflexivity.
    destruct (is_multiindex (ITuple [kc]) (len (basis t)) (covariant_dim t))
      as [[|]|e]; reflexivity.
  - destruct (is_multiindex INone (len (basis t)) (covariant_dim t)) as [[|]|e];
      cbn [bind]; try reflexivity; apply M.
  - destruct (is_multiindex (ITuple tc) (len (basis t)) (covariant_dim t)) as [[|]|e];
      cbn [bind]; try reflexivity; apply M.
Qed.

(** X14: lookup distributes over addition: when the sum of two tensors over
    the same basis and of the same type exists, a lookup that returns [x] on
    the first and [y] on the second, whatever the form of its two arguments,
    returns [x + y] on the sum, and a lookup that raises on an operand raises
    the same on the sum. *)
Theorem getitem_of_sum (b : list string) (ty : Z * Z) (d1 d2 : dict) (t1 t2 : Tensor) :
  Tensor_init b ty d1 = Ok t1 -> Tensor_init b ty d2 = Ok t2 ->
  unique_keys d2 = true ->
  exists s,
    Tensor_add t1 (OTensor t2) = Ok s /\
    (forall a c x y, getitem t1 a c = Ok x -> getitem t2 a c = Ok y ->
                     getitem s a c = Ok (x + y)) /\
    (forall a c e, getitem t1 a c = Raise e -> getitem s a c = Raise e).
Proof.
  intros I1 I2 U2.
  destruct (Tensor_add_sum b ty d1 d2 t1 t2 I1 I2 U2) as [d [A [_ [G _]]]].
  apply Tensor_init_ok in I1. destruct I1 as [_ ->].
  apply Tensor_init_ok in I2. destruct I2 as [_ ->].
  eexists. split; [exact A|]. split.
  - intros a c x y. rewrite !getitem_lookup_key. simpl.
    destruct (lookup_key (len b) (fst ty) (snd ty) a c) as [k|e]; simpl;
      [|discriminate].
    intros H1 H2. injection H1 as <-. injection H2 as <-.
    rewrite (merged_value d d1 d2 k (G k)). reflexivity.
  - intros a c e. rewrite !getitem_lookup_key. simpl.
    destruct (lookup_key (len b) (fst ty) (snd ty) a c) as [k|e']; simpl;
      [discriminate | auto].
Qed.

Lemma getitem_of_sum_witness :
  exists s,
    Tensor_add (mkTensor basis2 1 1 (1, 1) identity_like)
               (OTensor (mkTensor basis2 1 1 (1, 1) identity_like_reordered)) = Ok s /\
    (forall a c x y,
       getitem (mkTensor basis2 1 1 (1, 1) identity_like) a c = Ok x ->
       getitem (mkTensor basis2 1 1 (1, 1) identity_like_reordered) a c = Ok y ->
       getitem s a c = Ok (x + y)) /\
    (forall a c e,
       getitem (mkTensor basis2 1 1 (1, 1) identity_like) a c = Raise e ->
       getitem s a c = Raise e).
Proof.
  exact (getitem_of_sum basis2 (1, 1) identity_like identity_like_reordered
           (mkTensor basis2 1 1 (1, 1) identity_like)
           (mkTensor basis2 1 1 (1, 1) identity_like_reordered)
           eq_refl eq_refl eq_refl).
Defined.

(** ** More on the tensor of a matrix *)

Lemma tensor_from_matrix_square (M : list (list Z)) (b : list string) :
  is_square M = true ->
  tensor_from_matrix M b = Tensor_init b (0, 2) (matrix_dict M).
Proof.
  intros Hsq. unfold tensor_from_matrix.
  rewrite (tensor_from_matrix_dict M Hsq). reflexivity.
Qed.

Lemma matrix_dict_keys (M : list (list Z)) :
  dict_keys (matrix_dict M)
  = map matrix_key (list_prod (range (len M)) (range (len M))).
Proof. unfold matrix_dict, dict_keys. rewrite map_map. reflexivity. Qed.

Lemma matrix_dict_keys_In (M : list (list Z)) (k : index * index) :
  In k (dict_keys (matrix_dict M)) <->
  exists i j, 0 <= i < len M /\ 0 <= j < len M /\ k = (ITuple [i; j], INone).
Proof.
  rewrite matrix_dict_keys, in_map_iff. split.
  - intros [[i j] [<- Hin]]. apply in_prod_iff in Hin.
    rewrite !range_In in Hin. exists i, j. tauto.
  - intros [i [j [Hi [Hj ->]]]]. exists (i, j). split; [reflexivity|].
    apply in_prod_iff. rewrite !range_In. tauto.
Qed.

(** A validation loop over keys whose second halves are all acceptable and
    whose first halves are no integers passes or stops with the error that
    names a first half. *)
Lemma check_keys_first_half (n contra cov : Z) (ks : list (index * index)) :
  (forall k, In k ks -> is_int (fst k) = false /\ is_multiindex (snd k) n cov = Ok true) ->
  for_each ks (check_key n contra cov) tt = Ok tt \/
  exists a c, In (a, c) ks /\ is_multiindex a n contra = Ok false /\
              for_each ks (check_key n contra cov) tt
              = Raise (ValueError (Inconsistent_with_dimension a contra)).
Proof.
  induction ks as [|[a c] ks IH]; intros H.
  - left. reflexivity.
  - destruct (H (a, c) (or_introl eq_refl)) as [Ha Hc]. simpl in Ha, Hc.
    cbn [for_each].
    destruct (is_multiindex a n contra) as [[|]|e] eqn:Ea.
    + assert (Ek : check_key n contra cov (a, c) tt = Ok tt).
      { unfold check_key. rewrite Ea. cbn [bind negb]. rewrite Hc. reflexivity. }
      rewrite Ek. cbn [bind].
      destruct IH as [IH|[a' [c' [Hin [Hf Hr]]]]].
      * intros k Hk. apply H. right. exact Hk.
      * left. exact IH.
      * right. exists a', c'. split; [right; exact Hin|]. split; assumption.
    + assert (Ek : check_key n contra cov (a, c) tt
                   = Raise (ValueError (Inconsistent_with_dimension a contra))).
      { unfold check_key. rewrite Ea. reflexivity. }
      rewrite Ek. right. exists a, c. split; [left; reflexivity|]. split; auto.
    + destruct a as [k| |t]; [discriminate Ha | discriminate Ea |].
      simpl in Ea. destruct (negb _); discriminate.
Qed.

(** X15: for a square matrix the basis only has to be long enough: with at
    least as many basis vectors as rows the matrix tensor is built, holding
    the entries of the matrix row by row under the keys [((i, j), None)]; with
    fewer the constructor rejects the map, naming a key [(i, j)] with an entry
    that is no position in the basis. *)
Theorem tensor_from_matrix_basis_size (M : list (list Z)) (b : list string) :
  is_square M = true ->
  (len M <= len b ->
   tensor_from_matrix M b = Ok (mkTensor b 0 2 (0, 2) (matrix_dict M))) /\
  (len b < len M ->
   exists i j, 0 <= i < len M /\ 0 <= j < len M /\ ~ (i < len b /\ j < len b) /\
               tensor_from_matrix M b
               = Raise (ValueError (Inconsistent_with_dimension (ITuple [i; j]) 2))).
Proof.
  intros Hsq. rewrite (tensor_from_matrix_square M b Hsq). split.
  - intros Hlen. apply Tensor_init_ok. split; [|reflexivity].
    apply Forall_forall. intros k Hk. apply matrix_dict_keys_In in Hk.
    destruct Hk as [i [j [Hi [Hj ->]]]]. split; simpl fst; simpl snd.
    + apply is_multiindex_tuple; [reflexivity | repeat constructor; lia].
    + reflexivity.
  - intros Hlen. unfold Tensor_init. simpl fst. simpl snd.
    destruct (check_keys_first_half (len b) 2 0 (dict_keys (matrix_dict M)))
      as [Hok|[a [c [Hin [Hf Hr]]]]].
    + intros k Hk. apply matrix_dict_keys_In in Hk.
      destruct Hk as [i [j [_ [_ ->]]]]. split; reflexivity.
    + exfalso. apply for_each_check_key in Hok. rewrite Forall_forall in Hok.
      assert (Hin : In (ITuple [len b; 0], INone) (dict_keys (matrix_dict M))).
      { apply matrix_dict_keys_In. exists (len b), 0.
        pose proof (len_nonneg b). repeat split; lia. }
      destruct (Hok _ Hin) as [Ha _]. simpl fst in Ha.
      apply is_multiindex_tuple_inv in Ha. destruct Ha as [_ Hr].
      inversion Hr as [|? ? H0 _]. lia.
    + apply matrix_dict_keys_In in Hin. destruct Hin as [i [j [Hi [Hj E]]]].
      injection E as -> ->. exists i, j. split; [exact Hi|]. split; [exact Hj|].
      split.
      * intros [Hib Hjb].
        rewrite is_multiindex_tuple in Hf; [discriminate | reflexivity|].
        repeat constructor; lia.
      * rewrite Hr. reflexivity.
Qed.

Lemma tensor_from_matrix_basis_size_witness :
  tensor_from_matrix [[1; 2]; [3; 4]] basis3
  = Ok (mkTensor basis3 0 2 (0, 2) (matrix_dict [[1; 2]; [3; 4]])).
Proof.
  apply (tensor_from_matrix_basis_size [[1; 2]; [3; 4]] basis3 eq_refl).
  unfold len. simpl. lia.
Defined.

Lemma for_each_raises {A S : Type} (l : list A) (body : A -> S -> result S)
      (x : A) (e : exn) :
  In x l -> (forall s, body x s = Raise e) ->
  (forall y s e', body y s = Raise e' -> e' = e) ->
  forall s, for_each l body s = Raise e.
Proof.
  intros Hin Hx Honly. induction l as [|y l IH]; intros s; simpl; [contradiction|].
  destruct (body y s) as [s'|e'] eqn:Ey; simpl.
  - destruct Hin as [->|Hin]; [rewrite Hx in Ey; discriminate | auto].
  - f_equal. eapply Honly; eauto.
Qed.

(** X16: a matrix with a row shorter than the number of rows is not turned
    into a tensor, whatever the basis: reading the missing entry raises the
    [IndexError] before the constructor is reached. *)
Theorem tensor_from_matrix_short_row (M : list (list Z)) (b : list string)
        (row : list Z) :
  In row M -> (List.length row < List.length M)%nat ->
  tensor_from_matrix M b = Raise (IndexError Index_out_of_range).
Proof.
  intros Hin Hshort. unfold tensor_from_matrix.
  rewrite (for_each_nested _ _
             (fun i j d => v <- matrix_entry M i j ;;
                           Ok (dict_set (ITuple [i; j], INone) v d))).
  destruct (In_nth_error _ _ Hin) as [i Hi].
  assert (Hilt : (i < List.length M)%nat).
  { apply nth_error_Some. congruence. }
  rewrite (for_each_raises _ _ (Z.of_nat i, Z.of_nat (List.length row))
             (IndexError Index_out_of_range)).
  - reflexivity.
  - apply in_prod_iff. rewrite !range_In. unfold len. lia.
  - intros s. simpl. unfold matrix_entry. rewrite !Nat2Z.id, Hi.
    rewrite (proj2 (nth_error_None row (List.length row))) by lia. reflexivity.
  - intros [i' j'] s e'. simpl. unfold matrix_entry.
    destruct (nth_error M (Z.to_nat i')) as [r|]; simpl.
    + destruct (nth_error r (Z.to_nat j')); simpl; [discriminate|].
      intros H. injection H as <-. reflexivity.
    + intros H. injection H as <-. reflexivity.
Qed.

Lemma tensor_from_matrix_short_row_witness :
  tensor_from_matrix [[1; 2]; [3]] basis2 = Raise (IndexError Index_out_of_range).
Proof.
  apply (tensor_from_matrix_short_row [[1; 2]; [3]] basis2 [3]);
    simpl; [auto | lia].
Defined.

Lemma product_two_pools (r1 r2 : list Z) :
  product [r1; r2] = map (fun ij => [fst ij; snd ij]) (list_prod r1 r2).
Proof.
  unfold product. cbn [fold_left].
  assert (E : product_step [[]] r1 = map (fun y => [y]) r1).
  { unfold product_step. simpl. apply app_nil_r. }
  rewrite E. unfold product_step. clear E.
  induction r1 as [|x r1 IH]; simpl; [reflexivity|].
  rewrite map_app, map_map, IH. reflexivity.
Qed.

Lemma list_prod_singleton {A B : Type} (l : list A) (c : B) :
  list_prod l [c] = map (fun a => (a, c)) l.
Proof. induction l as [|a l IH]; simpl; [reflexivity | rewrite IH; reflexivity]. Qed.

Lemma matrix_tensor_pairs (M : list (list Z)) (b : list string) (d : dict) :
  List.length b = List.length M ->
  all_pairs (mkTensor b 0 2 (0, 2) d)
  = map matrix_key (list_prod (range (len M)) (range (len M))).
Proof.
  intros Hlen. unfold all_pairs. simpl.
  replace (len b) with (len M) by (unfold len; lia).
  rewrite multiindices_pos by lia.
  unfold multiindices. change (get_all_multiindices 0 (len M)) with (Some [INone]).
  cbv beta iota.
  rewrite list_prod_singleton. unfold product_repeat.
  change (Z.to_nat 2) with 2%nat. simpl repeat.
  rewrite product_two_pools, !map_map. reflexivity.
Qed.

(** X17: the tensor of a square matrix over a basis with as many vectors as
    the matrix has rows is dense as it stands: its dense view is the map it
    holds, key for key and in the same order. *)
Theorem tensor_from_matrix_is_dense (M : list (list Z)) (b : list string) :
  is_square M = true -> List.length b = List.length M ->
  exists t, tensor_from_matrix M b = Ok t /\
            get_all_values t = Ok (dict_of_values t).
Proof.
  intros Hsq Hlen. exists (mkTensor b 0 2 (0, 2) (matrix_dict M)). split.
  - rewrite (tensor_from_matrix_square M b Hsq).
    apply Tensor_init_ok. split; [|reflexivity].
    apply Forall_forall. intros k Hk. apply matrix_dict_keys_In in Hk.
    destruct Hk as [i [j [Hi [Hj ->]]]]. split; simpl fst; simpl snd.
    + apply is_multiindex_tuple; [reflexivity|].
      unfold len in *. repeat constructor; lia.
    + reflexivity.
  - rewrite get_all_values_dense by (simpl; lia).
    rewrite (matrix_tensor_pairs M b _ Hlen). simpl dict_of_values.
    apply f_equal. unfold tabulate, matrix_dict. rewrite map_map.
    apply map_ext_in. intros ij Hij. f_equal. unfold value_or_zero.
    rewrite (dict_get_fill matrix_key (fun ij => entry M (fst ij) (snd ij))
               _ ij (matrix_keys_NoDup (len M)) Hij).
    reflexivity.
Qed.

Lemma tensor_from_matrix_is_dense_witness :
  exists t, tensor_from_matrix [[1; 2]; [3; 4]] basis2 = Ok t /\
            get_all_values t = Ok (dict_of_values t).
Proof.
  exact (tensor_from_matrix_is_dense [[1; 2]; [3; 4]] basis2 eq_refl eq_refl).
Defined.

(** X18: a metric that [Metric.__init__] returns keeps the matrix and the
    basis it was given, its tensor is the tensor of that matrix, over that
    basis and of type (0, 2); whatever [tensor_from_matrix] raises, the metric
    constructor raises; and comparing the tensor of a metric with the metric
    itself raises the attribute error for [type], the two bases being
    equal. *)
Theorem Metric_init_keeps (M : list (list Z)) (b : list string) :
  (forall m, Metric_init M b = Ok m ->
     matrix m = M /\ metric_basis m = b /\
     tensor_from_matrix M b = Ok (as_tensor m) /\
     basis (as_tensor m) = b /\ type (as_tensor m) = (0, 2) /\
     Tensor_eq (as_tensor m) (OMetric m) = Raise (AttributeError (No_attribute "type"))) /\
  (forall e, tensor_from_matrix M b = Raise e -> Metric_init M b = Raise e) /\
  (is_square M = true -> len M <= len b ->
   Metric_init M b = Ok (mkMetric M b (mkTensor b 0 2 (0, 2) (matrix_dict M)))).
Proof.
  split; [|split].
  - intros m Hm. unfold Metric_init in Hm.
    destruct (tensor_from_matrix M b) as [t|e] eqn:Et; simpl in Hm; [|discriminate].
    injection Hm as <-. simpl.
    assert (Hb : basis t = b /\ type t = (0, 2)).
    { unfold tensor_from_matrix in Et.
      destruct (for_each _ _ _) as [d|e]; simpl in Et; [|discriminate].
      apply Tensor_init_ok in Et. destruct Et as [_ ->]. auto. }
    destruct Hb as [Hb Ht].
    repeat split; auto.
    unfold Tensor_eq. simpl. rewrite Hb.
    rewrite (proj2 (basis_eqb_true b b) eq_refl). reflexivity.
  - intros e He. unfold Metric_init. rewrite He. reflexivity.
  - intros Hsq Hlen. unfold Metric_init.
    rewrite (tensor_from_matrix_square M b Hsq).
    assert (Hinit : Tensor_init b (0, 2) (matrix_dict M)
                    = Ok (mkTensor b 0 2 (0, 2) (matrix_dict M))).
    { apply Tensor_init_ok. split; [|reflexivity].
      apply Forall_forall. intros k Hk. apply matrix_dict_keys_In in Hk.
      destruct Hk as [i [j [Hi [Hj ->]]]]. split; simpl fst; simpl snd.
      - apply is_multiindex_tuple; [reflexivity | repeat constructor; lia].
      - reflexivity. }
    rewrite Hinit. reflexivity.
Qed.

(** ** Contraction beyond the preconditions *)

Lemma extend_tuple (t : list Z) (i r : Z) :
  0 <= i -> extend (ITuple t) i r = Ok (ITuple (insert_at t i r)).
Proof.
  intros Hi. unfold extend, slice_bound, insert_at.
  destruct (i <? 0) eqn:E; [lia | reflexivity].
Qed.

Lemma insert_at_length (t : list Z) (i r : Z) :
  List.length (insert_at t i r) = S (List.length t).
Proof.
  unfold insert_at. rewrite !length_app. simpl.
  rewrite <- (firstn_skipn (Z.to_nat i) t) at 3. rewrite length_app. lia.
Qed.

Lemma insert_at_in_range (n : Z) (t : list Z) (i r : Z) :
  in_range n t -> 0 <= r < n -> in_range n (insert_at t i r).
Proof.
  unfold in_range, insert_at. intros Ht Hr.
  rewrite <- (firstn_skipn (Z.to_nat i) t) in Ht. apply Forall_app in Ht.
  destruct Ht as [H1 H2]. apply Forall_app. split; [|exact H2].
  apply Forall_app. split; [exact H1|]. constructor; [exact Hr | constructor].
Qed.

Lemma sum_loop (l : list Z) (f : Z -> Z) (body : Z -> Z -> result Z) (s0 : Z) :
  (forall r s, In r l -> body r s = Ok (s + f r)) ->
  for_each l body s0 = Ok (fold_left (fun s r => s + f r) l s0).
Proof.
  revert s0. induction l as [|r l IH]; intros s0 H; simpl; [reflexivity|].
  rewrite (H r s0) by (simpl; auto). simpl. apply IH.
  intros r' s Hr'. apply H. simpl. auto.
Qed.

(** With at least two slots on each side and the two slots in range, the
    loops of contraction fill the whole map and raise nothing; what is left
    is the call of the constructor. *)
Lemma contract_indices_builds (t : Tensor) (i j : Z) :
  2 <= contravariant_dim t -> 2 <= covariant_dim t ->
  0 <= i < contravariant_dim t -> 0 <= j < covariant_dim t ->
  contract_indices t i j
  = Tensor_init (basis t) (contravariant_dim t - 1, covariant_dim t - 1)
      (contraction_dict t i j).
Proof.
  intros Hp Hq Hi Hj. unfold contract_indices.
  destruct ((covariant_dim t <? 1) || (contravariant_dim t <? 1)) eqn:E1;
    [apply orb_true_iff in E1; lia|].
  destruct ((i <? 0) || (i >=? contravariant_dim t)) eqn:E2;
    [apply orb_true_iff in E2; lia|].
  destruct ((j <? 0) || (j >=? covariant_dim t)) eqn:E3;
    [apply orb_true_iff in E3; lia|].
  set (dim := len (basis t)).
  assert (Hdim : 0 <= dim) by apply len_nonneg.
  destruct (get_all_multiindices_some (contravariant_dim t - 1) dim) as [Ea [Na _]];
    [lia | assumption|].
  destruct (get_all_multiindices_some (covariant_dim t - 1) dim) as [Eb [Nb _]];
    [lia | assumption|].
  rewrite Ea, Eb. cbn [iter bind].
  set (la := multiindices (contravariant_dim t - 1) dim) in *.
  set (lb := multiindices (covariant_dim t - 1) dim) in *.
  assert (Hloops :
    for_each la (fun a d =>
      for_each lb (fun b d0 =>
        sumand <- for_each (range dim) (fun r sumand =>
                    a_extended <- extend a i r ;;
                    b_extended <- extend b j r ;;
                    v <- getitem t a_extended b_extended ;;
                    Ok (sumand + v)) 0 ;;
        Ok (dict_set (a, b) sumand d0)) d) []
    = Ok (contraction_dict t i j)).
  { rewrite (for_each_nested la lb
               (fun a b d0 =>
                  sumand <- for_each (range dim) (fun r sumand =>
                              a_extended <- extend a i r ;;
                              b_extended <- extend b j r ;;
                              v <- getitem t a_extended b_extended ;;
                              Ok (sumand + v)) 0 ;;
                  Ok (dict_set (a, b) sumand d0))).
    rewrite (for_each_ext_in _ _
               (fun ac d0 => Ok (dict_set (fst ac, snd ac)
                                   (contraction_value (dict_of_values t) dim i j ac)
                                   d0))).
    - rewrite (for_each_fill (fun ac : index * index => (fst ac, snd ac))
                 (contraction_value (dict_of_values t) dim i j)).
      + simpl. unfold contraction_dict, tabulate. fold dim. fold la. fold lb.
        apply f_equal. apply map_ext. intros [a c]. reflexivity.
      + simpl. rewrite (map_ext _ (fun ac => ac)) by (intros [a c]; reflexivity).
        rewrite map_id. apply NoDup_list_prod; assumption.
    - intros [a c] d0 Hin. apply in_prod_iff in Hin. destruct Hin as [Ha Hc].
      apply multiindices_pos_In in Ha; [|lia|assumption].
      apply multiindices_pos_In in Hc; [|lia|assumption].
      destruct Ha as [ta [-> [Hla Hra]]]. destruct Hc as [tc [-> [Hlc Hrc]]].
      cbn [fst snd].
      rewrite (sum_loop (range dim)
                 (fun r => value_or_zero (dict_of_values t)
                             (ITuple (insert_at ta i r), ITuple (insert_at tc j r)))).
      + reflexivity.
      + intros r s Hr. apply range_In in Hr.
        rewrite !extend_tuple by lia. cbn [bind].
        rewrite getitem_accepted.
        * reflexivity.
        * apply is_multiindex_tuple;
            [rewrite insert_at_length; lia | apply insert_at_in_range; assumption].
        * apply is_multiindex_tuple;
            [rewrite insert_at_length; lia | apply insert_at_in_range; assumption]. }
  rewrite Hloops. reflexivity.
Qed.

Lemma contraction_dict_keys (t : Tensor) (i j : Z) :
  dict_keys (contraction_dict t i j)
  = list_prod (multiindices (contravariant_dim t - 1) (len (basis t)))
              (multiindices (covariant_dim t - 1) (len (basis t))).
Proof. unfold contraction_dict. apply tabulate_keys. Qed.

(** X19: contraction of a tensor with the same number [p >= 2] of slots on
    both sides returns, for slots in range, the tensor over the same basis
    and of type [(p - 1, p - 1)] whose map is dense: it has every pair of
    multi-indices of length [p - 1] as a key, once, and under the pair
    [(a, b)] the sum, for [r] through the basis positions, of the components
    of the tensor at [a] and [b] with [r] put back at the slots [i] and [j];
    and the lookup of such a pair in the result returns that sum. *)
Theorem contract_indices_equal_ranks (b : list string) (p : Z) (d : dict) (t : Tensor)
        (i j : Z) :
  Tensor_init b (p, p) d = Ok t -> 2 <= p -> 0 <= i < p -> 0 <= j < p ->
  exists s,
    contract_indices t i j = Ok s /\
    basis s = b /\ type s = (p - 1, p - 1) /\
    dict_of_values s = contraction_dict t i j /\
    dict_keys (dict_of_values s)
    = list_prod (multiindices (p - 1) (len b)) (multiindices (p - 1) (len b)) /\
    NoDup (dict_keys (dict_of_values s)) /\
    (forall a c, In a (multiindices (p - 1) (len b)) ->
                 In c (multiindices (p - 1) (len b)) ->
                 getitem s a c = Ok (contraction_value d (len b) i j (a, c))).
Proof.
  intros I Hp Hi Hj. apply Tensor_init_ok in I. destruct I as [_ ->].
  set (t := mkTensor b p p (p, p) d).
  assert (Hkeys : dict_keys (contraction_dict t i j)
                  = list_prod (multiindices (p - 1) (len b))
                              (multiindices (p - 1) (len b)))
    by apply contraction_dict_keys.
  assert (Hvalid : forall a, In a (multiindices (p - 1) (len b)) ->
                             is_multiindex a (len b) (p - 1) = Ok true).
  { intros a Ha. apply multiindices_accepted; auto using len_nonneg. lia. }
  exists (mkTensor b (p - 1) (p - 1) (p - 1, p - 1) (contraction_dict t i j)).
  split; [|split; [reflexivity|split; [reflexivity|split; [reflexivity|
           split; [exact Hkeys|split]]]]].
  - rewrite contract_indices_builds by (simpl; lia).
    change (Tensor_init b (p - 1, p - 1) (contraction_dict t i j)
            = Ok (mkTensor b (p - 1) (p - 1) (p - 1, p - 1) (contraction_dict t i j))).
    apply Tensor_init_ok. split; [|reflexivity].
    rewrite Hkeys. apply Forall_forall. intros [a c] Hin.
    apply in_prod_iff in Hin. destruct Hin as [Ha Hc].
    split; simpl; auto.
  - simpl. rewrite Hkeys.
    apply NoDup_list_prod; apply get_all_multiindices_some; auto using len_nonneg; lia.
  - intros a c Ha Hc. rewrite getitem_accepted by (simpl; auto). simpl.
    unfold contraction_dict. rewrite tabulate_value; [reflexivity|].
    apply in_prod_iff. simpl. auto.
Qed.

Lemma contract_indices_equal_ranks_witness :
  exists s,
    contract_indices
      (mkTensor basis2 2 2 (2, 2)
         [((ITuple [0; 1], ITuple [0; 1]), 3); ((ITuple [1; 1], ITuple [1; 0]), 5)])
      0 0 = Ok s /\
    getitem s (ITuple [1]) (ITuple [0]) = Ok 5.
Proof.
  destruct (contract_indices_equal_ranks basis2 2
              [((ITuple [0; 1], ITuple [0; 1]), 3); ((ITuple [1; 1], ITuple [1; 0]), 5)]
              (mkTensor basis2 2 2 (2, 2)
                 [((ITuple [0; 1], ITuple [0; 1]), 3);
                  ((ITuple [1; 1], ITuple [1; 0]), 5)])
              0 0 eq_refl) as [s [Hs [_ [_ [_ [_ [_ Hget]]]]]]]; try lia.
  exists s. split; [exact Hs|].
  rewrite (Hget (ITuple [1]) (ITuple [0])); [reflexivity | simpl; auto | simpl; auto].
Defined.

Lemma is_multiindex_wrong_length (t : list Z) (n c : Z) :
  Z.of_nat (List.length t) <> c -> is_multiindex (ITuple t) n c = Ok false.
Proof.
  intros H. simpl. apply Z.eqb_neq in H. rewrite H. reflexivity.
Qed.

(** X20: contraction of a tensor with at least two slots on each side but not
    the same number on both, over a basis that is not empty, returns nothing:
    the contracted map is handed to the constructor with the two ranks in the
    other order, and the constructor rejects its first key, naming the
    contravariant half and the covariant rank less one. *)
Theorem contract_indices_unequal_ranks_rejected (t : Tensor) (i j : Z) :
  2 <= contravariant_dim t -> 2 <= covariant_dim t ->
  contravariant_dim t <> covariant_dim t -> 1 <= len (basis t) ->
  0 <= i < contravariant_dim t -> 0 <= j < covariant_dim t ->
  exists a, In a (multiindices (contravariant_dim t - 1) (len (basis t))) /\
            contract_indices t i j
            = Raise (ValueError (Inconsistent_with_dimension a (covariant_dim t - 1))).
Proof.
  intros Hp Hq Hne Hdim Hi Hj.
  rewrite contract_indices_builds by assumption.
  unfold Tensor_init. cbn [fst snd]. rewrite contraction_dict_keys.
  destruct (multiindices (contravariant_dim t - 1) (len (basis t))) as [|a la] eqn:Ea.
  { exfalso. apply (multiindices_nonempty (contravariant_dim t - 1) (len (basis t)));
      [lia | auto | exact Ea]. }
  destruct (multiindices (covariant_dim t - 1) (len (basis t))) as [|c lc] eqn:Ec.
  { exfalso. apply (multiindices_nonempty (covariant_dim t - 1) (len (basis t)));
      [lia | auto | exact Ec]. }
  exists a. split; [left; reflexivity|].
  assert (Ha : In a (multiindices (contravariant_dim t - 1) (len (basis t))))
    by (rewrite Ea; left; reflexivity).
  apply multiindices_pos_In in Ha; [|lia|apply len_nonneg].
  destruct Ha as [ta [-> [Hl _]]].
  cbn [list_prod map app for_each]. unfold check_key at 1.
  rewrite is_multiindex_wrong_length by lia. reflexivity.
Qed.

Lemma contract_indices_unequal_ranks_rejected_witness :
  exists a, In a (multiindices (2 - 1) (len ["e0"%string])) /\
            contract_indices (mkTensor ["e0"%string] 3 2 (3, 2) []) 0 0
            = Raise (ValueError (Inconsistent_with_dimension a (3 - 1))).
Proof.
  apply (contract_indices_unequal_ranks_rejected (mkTensor ["e0"%string] 3 2 (3, 2) []) 0 0);
    simpl; unfold len; simpl; lia.
Defined.

Lemma range_nonempty (n : Z) : 1 <= n -> exists r rs, range n = r :: rs.
Proof.
  intros Hn. destruct (range n) as [|r rs] eqn:E; [|eauto].
  pose proof (range_length n) as Hl. rewrite E in Hl. simpl in Hl. lia.
Qed.

(** X21: over a basis that is not empty, contraction of a tensor with exactly
    one slot on one of its sides never returns: the guards let the call
    through, the only multi-index of length 0 is the empty marker, and the
    first turn of the innermost loop slices it, which raises the
    [TypeError]. *)
Theorem contract_indices_rank_one (t : Tensor) (i j : Z) :
  1 <= contravariant_dim t -> 1 <= covariant_dim t ->
  0 <= i < contravariant_dim t -> 0 <= j < covariant_dim t ->
  1 <= len (basis t) ->
  contravariant_dim t = 1 \/ covariant_dim t = 1 ->
  contract_indices t i j = Raise (TypeError Not_subscriptable).
Proof.
  intros Hp Hq Hi Hj Hdim Hone. unfold contract_indices.
  destruct ((covariant_dim t <? 1) || (contravariant_dim t <? 1)) eqn:E1;
    [apply orb_true_iff in E1; lia|].
  destruct ((i <? 0) || (i >=? contravariant_dim t)) eqn:E2;
    [apply orb_true_iff in E2; lia|].
  destruct ((j <? 0) || (j >=? covariant_dim t)) eqn:E3;
    [apply orb_true_iff in E3; lia|].
  destruct (range_nonempty (len (basis t)) Hdim) as [r [rs Er]]. rewrite Er.
  destruct (get_all_multiindices_some (contravariant_dim t - 1) (len (basis t)))
    as [Ea _]; [lia | apply len_nonneg|].
  destruct (get_all_multiindices_some (covariant_dim t - 1) (len (basis t)))
    as [Eb _]; [lia | apply len_nonneg|].
  rewrite Ea, Eb. cbn [iter bind].
  destruct (multiindices (covariant_dim t - 1) (len (basis t))) as [|c lc] eqn:Ec.
  { exfalso. apply (multiindices_nonempty (covariant_dim t - 1) (len (basis t)));
      [lia | auto | exact Ec]. }
  destruct (Z.eq_dec (contravariant_dim t) 1) as [H1|H1].
  - replace (contravariant_dim t - 1) with 0 by lia.
    change (multiindices 0 (len (basis t))) with [INone].
    reflexivity.
  - assert (Hc1 : covariant_dim t = 1) by lia.
    assert (Hc : c = INone).
    { replace (covariant_dim t - 1) with 0 in Ec by lia.
      change (multiindices 0 (len (basis t))) with [INone] in Ec.
      injection Ec as <- _. reflexivity. }
    subst c.
    destruct (multiindices (contravariant_dim t - 1) (len (basis t))) as [|a la] eqn:Ela.
    { exfalso. apply (multiindices_nonempty (contravariant_dim t - 1) (len (basis t)));
        [lia | auto | exact Ela]. }
    assert (Ha : In a (multiindices (contravariant_dim t - 1) (len (basis t))))
      by (rewrite Ela; left; reflexivity).
    apply multiindices_pos_In in Ha; [|lia|apply len_nonneg].
    destruct Ha as [ta [-> _]]. reflexivity.
Qed.

Lemma contract_indices_rank_one_witness :
  contract_indices (mkTensor basis2 1 1 (1, 1) identity_like) 0 0
  = Raise (TypeError Not_subscriptable).
Proof.
  apply (contract_indices_rank_one (mkTensor basis2 1 1 (1, 1) identity_like) 0 0);
    simpl; unfold len; simpl; lia.
Defined.

Lemma multiindices_empty_basis (p : Z) : 0 < p -> multiindices p 0 = [].
Proof.
  intros Hp. destruct (get_all_multiindices_some p 0) as [_ [_ Hl]]; try lia.
  rewrite Z.pow_0_l in Hl by lia.
  destruct (multiindices p 0); [reflexivity | simpl in Hl; lia].
Qed.

(** X22: over the empty basis contraction always returns once the guards are
    passed: there is no basis position to sum over, so no multi-index is
    sliced; the result has no component but, when both sides had one slot,
    the zero under the pair of empty markers. *)
Theorem contract_indices_empty_basis (t : Tensor) (i j : Z) :
  basis t = [] ->
  1 <= contravariant_dim t -> 1 <= covariant_dim t ->
  0 <= i < contravariant_dim t -> 0 <= j < covariant_dim t ->
  contract_indices t i j
  = Ok (mkTensor [] (contravariant_dim t - 1) (covariant_dim t - 1)
          (contravariant_dim t - 1, covariant_dim t - 1)
          (if (contravariant_dim t =? 1) && (covariant_dim t =? 1)
           then [((INone, INone), 0)] else [])).
Proof.
  intros Hb Hp Hq Hi Hj. unfold contract_indices.
  destruct ((covariant_dim t <? 1) || (contravariant_dim t <? 1)) eqn:E1;
    [apply orb_true_iff in E1; lia|].
  destruct ((i <? 0) || (i >=? contravariant_dim t)) eqn:E2;
    [apply orb_true_iff in E2; lia|].
  destruct ((j <? 0) || (j >=? covariant_dim t)) eqn:E3;
    [apply orb_true_iff in E3; lia|].
  rewrite Hb. change (len (@nil string)) with 0. change (range 0) with (@nil Z).
  destruct (get_all_multiindices_some (contravariant_dim t - 1) 0) as [Ea _]; try lia.
  destruct (get_all_multiindices_some (covariant_dim t - 1) 0) as [Eb _]; try lia.
  rewrite Ea, Eb. cbn [iter bind].
  destruct (contravariant_dim t =? 1) eqn:Ep.
  - apply Z.eqb_eq in Ep. rewrite Ep. change (multiindices (1 - 1) 0) with [INone].
    destruct (covariant_dim t =? 1) eqn:Eq.
    + apply Z.eqb_eq in Eq. rewrite Eq. reflexivity.
    + apply Z.eqb_neq in Eq. rewrite multiindices_empty_basis by lia. reflexivity.
  - apply Z.eqb_neq in Ep.
    rewrite (multiindices_empty_basis (contravariant_dim t - 1)) by lia. reflexivity.
Qed.

Lemma contract_indices_empty_basis_witness :
  contract_indices (mkTensor [] 1 1 (1, 1) []) 0 0
  = Ok (mkTensor [] 0 0 (0, 0) [((INone, INone), 0)]).
Proof.
  apply (contract_indices_empty_basis (mkTensor [] 1 1 (1, 1) []) 0 0);
    simpl; solve [reflexivity | lia].
Defined.

Lemma contract_indices_equal_ranks_built (b : list string) (p : Z) (d : dict) (i j : Z) :
  2 <= p -> 0 <= i < p -> 0 <= j < p ->
  contract_indices (mkTensor b p p (p, p) d) i j
  = Ok (mkTensor b (p - 1) (p - 1) (p - 1, p - 1)
          (contraction_dict (mkTensor b p p (p, p) d) i j)) /\
  Tensor_init b (p - 1, p - 1) (contraction_dict (mkTensor b p p (p, p) d) i j)
  = Ok (mkTensor b (p - 1) (p - 1) (p - 1, p - 1)
          (contraction_dict (mkTensor b p p (p, p) d) i j)) /\
  unique_keys (contraction_dict (mkTensor b p p (p, p) d) i j) = true.
Proof.
  intros Hp Hi Hj.
  set (t := mkTensor b p p (p, p) d).
  assert (Hkeys : dict_keys (contraction_dict t i j)
                  = list_prod (multiindices (p - 1) (len b))
                              (multiindices (p - 1) (len b)))
    by apply contraction_dict_keys.
  assert (Hinit : Tensor_init b (p - 1, p - 1) (contraction_dict t i j)
                  = Ok (mkTensor b (p - 1) (p - 1) (p - 1, p - 1)
                          (contraction_dict t i j))).
  { apply Tensor_init_ok. split; [|reflexivity].
    rewrite Hkeys. apply Forall_forall. intros [a c] Hin.
    apply in_prod_iff in Hin. destruct Hin as [Ha Hc].
    split; simpl; apply multiindices_accepted; auto using len_nonneg; lia. }
  split; [|split; [exact Hinit|]].
  - rewrite contract_indices_builds by (simpl; lia). exact Hinit.
  - apply unique_keys_NoDup. rewrite Hkeys.
    apply NoDup_list_prod; apply get_all_multiindices_some; auto using len_nonneg; lia.
Qed.

Lemma fold_sum_add (l : list Z) (f g h : Z -> Z) (a b : Z) :
  (forall r, f r = g r + h r) ->
  fold_left (fun s r => s + f r) l (a + b)
  = fold_left (fun s r => s + g r) l a + fold_left (fun s r => s + h r) l b.
Proof.
  intros H. revert a b. induction l as [|r l IH]; intros a b; simpl; [reflexivity|].
  rewrite H. replace (a + b + (g r + h r)) with ((a + g r) + (b + h r)) by lia.
  apply IH.
Qed.

(** X23: contraction is additive: for two tensors over the same basis with
    the same number [p >= 2] of slots on both sides, contracting their sum
    and adding their contractions both succeed and give equal tensors. *)
Theorem contract_indices_of_sum (b : list string) (p : Z) (d1 d2 : dict)
        (t1 t2 : Tensor) (i j : Z) :
  Tensor_init b (p, p) d1 = Ok t1 -> Tensor_init b (p, p) d2 = Ok t2 ->
  unique_keys d2 = true -> 2 <= p -> 0 <= i < p -> 0 <= j < p ->
  exists s cs c1 c2 sc,
    Tensor_add t1 (OTensor t2) = Ok s /\ contract_indices s i j = Ok cs /\
    contract_indices t1 i j = Ok c1 /\ contract_indices t2 i j = Ok c2 /\
    Tensor_add c1 (OTensor c2) = Ok sc /\
    Tensor_eq cs (OTensor sc) = Ok true.
Proof.
  intros I1 I2 U2 Hp Hi Hj.
  destruct (Tensor_add_sum b (p, p) d1 d2 t1 t2 I1 I2 U2) as [d12 [A12 [_ [G12 _]]]].
  apply Tensor_init_ok in I1. destruct I1 as [_ ->].
  apply Tensor_init_ok in I2. destruct I2 as [_ ->].
  cbn [fst snd] in *.
  destruct (contract_indices_equal_ranks_built b p d12 i j Hp Hi Hj) as [C12 [J12 _]].
  destruct (contract_indices_equal_ranks_built b p d1 i j Hp Hi Hj) as [C1 [J1 _]].
  destruct (contract_indices_equal_ranks_built b p d2 i j Hp Hi Hj) as [C2 [J2 V2]].
  destruct (Tensor_add_sum b (p - 1, p - 1) _ _ _ _ J1 J2 V2) as [ds [As [Js [Gs _]]]].
  do 5 eexists. split; [exact A12|]. split; [exact C12|]. split; [exact C1|].
  split; [exact C2|]. split; [exact As|].
  apply (Tensor_eq_true_iff b b (p - 1, p - 1) (p - 1, p - 1) _ ds _ _ J12 Js);
    cbn [fst snd]; try lia.
  split; [reflexivity|]. split; [reflexivity|]. intros k Hk.
  rewrite (merged_value ds _ _ k (Gs k)).
  unfold contraction_dict. cbn [dict_of_values basis contravariant_dim covariant_dim].
  unfold all_pairs in Hk. cbn [basis contravariant_dim covariant_dim] in Hk.
  rewrite !tabulate_value by exact Hk.
  unfold contraction_value.
  change 0 with (0 + 0) at 1. apply fold_sum_add. intros r.
  apply merged_value, G12.
Qed.

Lemma contract_indices_of_sum_witness :
  exists s cs c1 c2 sc,
    Tensor_add (mkTensor basis2 2 2 (2, 2) [((ITuple [0; 1], ITuple [0; 1]), 3)])
               (OTensor (mkTensor basis2 2 2 (2, 2) [((ITuple [1; 1], ITuple [1; 0]), 5)]))
    = Ok s /\
    contract_indices s 0 0 = Ok cs /\
    contract_indices (mkTensor basis2 2 2 (2, 2) [((ITuple [0; 1], ITuple [0; 1]), 3)]) 0 0
    = Ok c1 /\
    contract_indices (mkTensor basis2 2 2 (2, 2) [((ITuple [1; 1], ITuple [1; 0]), 5)]) 0 0
    = Ok c2 /\
    Tensor_add c1 (OTensor c2) = Ok sc /\
    Tensor_eq cs (OTensor sc) = Ok true.
Proof.
  apply (contract_indices_of_sum basis2 2
           [((ITuple [0; 1], ITuple [0; 1]), 3)] [((ITuple [1; 1], ITuple [1; 0]), 5)]
           (mkTensor basis2 2 2 (2, 2) [((ITuple [0; 1], ITuple [0; 1]), 3)])
           (mkTensor basis2 2 2 (2, 2) [((ITuple [1; 1], ITuple [1; 0]), 5)]) 0 0);
    solve [reflexivity | lia].
Defined.

(** ** Rendering *)

Lemma drop_last_app (s suffix : pystr) :
  drop_last (List.length suffix) (s ++ suffix) = s.
Proof.
  unfold drop_last. rewrite length_app.
  replace (List.length s + List.length suffix - List.length suffix)%nat
    with (List.length s) by lia.
  rewrite firstn_app, firstn_all, Nat.sub_diag. simpl. apply app_nil_r.
Qed.

Lemma drop_last_app_mid (s m suffix : pystr) :
  drop_last (List.length suffix) (s ++ (m ++ suffix)) = s ++ m.
Proof. rewrite app_assoc. apply drop_last_app. Qed.

Lemma concat_join (sep : pystr) (l : list pystr) :
  l <> [] -> concat (map (fun x => x ++ sep) l) = join sep l ++ sep.
Proof.
  induction l as [|x l IH]; intros Hne; [congruence|].
  destruct l as [|y l].
  - simpl. rewrite app_nil_r. reflexivity.
  - change (concat (map (fun x0 => x0 ++ sep) (x :: y :: l)))
      with ((x ++ sep) ++ concat (map (fun x0 => x0 ++ sep) (y :: l))).
    rewrite IH by discriminate.
    change (join sep (x :: y :: l)) with (x ++ sep ++ join sep (y :: l)).
    rewrite <- !app_assoc. reflexivity.
Qed.

Lemma basis_item_in_range (basis : list string) (ind : Z) :
  0 <= ind < len basis -> basis_item basis ind = Ok (symbol_at basis ind).
Proof.
  intros H. unfold basis_item, symbol_at.
  destruct (ind <? 0) eqn:E; [lia|].
  destruct ((ind <? 0) || (ind >=? len basis)) eqn:E2;
    [apply orb_true_iff in E2; lia|].
  rewrite (nth_error_nth' basis EmptyString) by (unfold len in H; lia).
  reflexivity.
Qed.

Lemma for_each_symbols (basis : list string) (f : string -> pystr) (suffix : pystr)
      (inds : list Z) (s0 : pystr) :
  in_range (len basis) inds ->
  for_each inds (fun ind s => symbol <- basis_item basis ind ;;
                              Ok (s ++ (f symbol ++ suffix))) s0
  = Ok (s0 ++ concat (map (fun ind => f (symbol_at basis ind) ++ suffix) inds)).
Proof.
  unfold in_range. revert s0. induction inds as [|ind inds IH]; intros s0 H; simpl.
  - rewrite app_nil_r. reflexivity.
  - inversion H as [|? ? Hi Hr]; subst.
    rewrite basis_item_in_range by assumption. simpl.
    rewrite IH by assumption. rewrite <- app_assoc. reflexivity.
Qed.

Lemma symbols_joined (basis : list string) (f : string -> pystr) (inds : list Z) :
  inds <> [] ->
  concat (map (fun ind => f (symbol_at basis ind) ++ otimes) inds)
  = join otimes (map (fun ind => f (symbol_at basis ind)) inds) ++ otimes.
Proof.
  intros Hne.
  rewrite <- (concat_join otimes (map (fun ind => f (symbol_at basis ind)) inds)).
  - rewrite map_map. reflexivity.
  - destruct inds; [congruence | discriminate].
Qed.

Lemma starred_symbols_joined (basis : list string) (f : string -> pystr) (inds : list Z) :
  inds <> [] ->
  concat (map (fun ind => f (symbol_at basis ind) ++ star_otimes) inds)
  = join otimes (map (fun ind => f (symbol_at basis ind) ++ list_ascii_of_string "*")
                     inds) ++ otimes.
Proof.
  intros Hne.
  rewrite <- (concat_join otimes
                (map (fun ind => f (symbol_at basis ind) ++ list_ascii_of_string "*")
                     inds)).
  - rewrite map_map. f_equal. apply map_ext. intros ind.
    rewrite <- app_assoc. reflexivity.
  - destruct inds; [congruence | discriminate].
Qed.

(** One turn of the loop of [__repr__] on a key that passed the constructor
    and has no empty tuple: the term of the key and the plus sign are
    appended. *)
Lemma repr_key_term (fmt_value : Z -> pystr) (fmt_symbol : string -> pystr)
      (t : Tensor) (a c : index) (v : Z) (s : pystr) :
  dict_get (a, c) (dict_of_values t) = Some v ->
  valid_key (len (basis t)) (contravariant_dim t) (covariant_dim t) (a, c) ->
  regular_half a = true -> regular_half c = true ->
  repr_key fmt_value fmt_symbol t (a, c) s
  = Ok (s ++ term fmt_value fmt_symbol (basis t) ((a, c), v) ++ plus).
Proof.
  intros Hget [Ha Hc] Ra Rc. cbn [fst snd] in Ha, Hc.
  unfold repr_key, dict_subscript. rewrite Hget. cbn [bind fst snd].
  unfold term. cbn [fst snd].
  destruct a as [ka| |[|xa ta]]; try discriminate Ra;
    destruct c as [kc| |[|xc tc]]; try discriminate Rc;
    cbn [is_not_none iter_index bind entries andb].
  - cbn [map join app]. rewrite ?app_nil_r, <- ?app_assoc. reflexivity.
  - apply is_multiindex_tuple_inv in Hc. destruct Hc as [_ Hc].
    rewrite for_each_symbols by assumption.
    rewrite symbols_joined by discriminate.
    cbn [bind]. rewrite drop_last_app_mid. cbn [bind].
    change (join otimes (map _ [])) with (@nil Ascii.ascii).
    cbn [app]. rewrite <- ?app_assoc. reflexivity.
  - apply is_multiindex_tuple_inv in Ha. destruct Ha as [_ Ha].
    rewrite for_each_symbols by assumption.
    rewrite starred_symbols_joined by discriminate.
    cbn [bind]. rewrite (drop_last_app_mid []). cbn [bind].
    change (join otimes (map (fun ind => fmt_symbol (symbol_at (basis t) ind)) []))
      with (@nil Ascii.ascii).
    cbn [app]. rewrite ?app_nil_r, <- ?app_assoc. reflexivity.
  - apply is_multiindex_tuple_inv in Ha. destruct Ha as [_ Ha].
    apply is_multiindex_tuple_inv in Hc. destruct Hc as [_ Hc].
    rewrite for_each_symbols by assumption.
    rewrite starred_symbols_joined by discriminate.
    cbn [bind]. rewrite (drop_last_app_mid []). cbn [bind].
    rewrite for_each_symbols by assumption.
    rewrite symbols_joined by discriminate.
    cbn [bind]. rewrite drop_last_app_mid. cbn [bind].
    cbn [app]. rewrite <- ?app_assoc. reflexivity.
Qed.

Lemma repr_loop (fmt_value : Z -> pystr) (fmt_symbol : string -> pystr)
      (t : Tensor) (l : dict) (s : pystr) :
  (forall k v, In (k, v) l ->
     dict_get k (dict_of_values t) = Some v /\
     valid_key (len (basis t)) (contravariant_dim t) (covariant_dim t) k /\
     regular_half (fst k) = true /\ regular_half (snd k) = true) ->
  for_each (dict_keys l) (repr_key fmt_value fmt_symbol t) s
  = Ok (s ++ concat (map (fun kv => term fmt_value fmt_symbol (basis t) kv ++ plus) l)).
Proof.
  revert s. induction l as [|[[a c] v] l IH]; intros s H.
  - cbn [dict_keys map for_each concat]. rewrite app_nil_r. reflexivity.
  - destruct (H (a, c) v (or_introl eq_refl)) as [Hget [Hv [Ra Rc]]].
    cbn [dict_keys map fst for_each concat].
    rewrite (repr_key_term _ _ t a c v s Hget Hv Ra Rc). cbn [bind].
    fold (dict_keys l).
    rewrite IH by (intros k' v' Hin; apply H; right; exact Hin).
    rewrite <- ?app_assoc. reflexivity.
Qed.

(** X24: the rendering of a tensor the constructor returned, for a map without
    repeated keys and without the empty tuple in a key, is the terms of its
    entries in the order of the map, joined by [" + "]; a term is the value in
    parentheses followed by the starred basis symbols of the first half and
    the basis symbols of the second half, all joined by the tensor-product
    sign; the tensor with the empty map renders as the empty string. *)
Theorem Tensor_repr_terms (fmt_value : Z -> pystr) (fmt_symbol : string -> pystr)
        (b : list string) (ty : Z * Z) (d : dict) (t : Tensor) :
  Tensor_init b ty d = Ok t -> unique_keys d = true ->
  forallb (fun k => regular_half (fst k) && regular_half (snd k)) (dict_keys d) = true ->
  Tensor_repr fmt_value fmt_symbol t
  = Ok (join plus (map (term fmt_value fmt_symbol b) d)).
Proof.
  intros I Hu Hreg. apply Tensor_init_ok in I. destruct I as [Hvalid ->].
  unfold Tensor_repr. cbn [dict_of_values].
  rewrite (repr_loop fmt_value fmt_symbol _ d []).
  - cbn [bind basis app]. f_equal.
    destruct d as [|kv d']; [reflexivity|].
    rewrite <- (map_map (term fmt_value fmt_symbol b) (fun x => x ++ plus)).
    rewrite concat_join by discriminate.
    apply (drop_last_app _ plus).
  - intros k v Hin. cbn [dict_of_values basis contravariant_dim covariant_dim].
    assert (Hk : In k (dict_keys d)) by (apply (in_map fst) in Hin; exact Hin).
    split; [apply dict_get_In; [apply unique_keys_NoDup, Hu | exact Hin]|].
    split; [rewrite Forall_forall in Hvalid; apply Hvalid, Hk|].
    rewrite forallb_forall in Hreg. apply andb_true_iff, Hreg, Hk.
Qed.

Lemma Tensor_repr_terms_witness :
  Tensor_repr (fun v => list_ascii_of_string (if v =? 3 then "3" else "5"))
              list_ascii_of_string
              (mkTensor basis2 1 1 (1, 1) identity_like)
  = Ok (list_ascii_of_string "(3)e0* \otimes e0 + (5)e1* \otimes e1").
Proof.
  exact (Tensor_repr_terms
           (fun v => list_ascii_of_string (if v =? 3 then "3" else "5"))
           list_ascii_of_string basis2 (1, 1) identity_like
           (mkTensor basis2 1 1 (1, 1) identity_like) eq_refl eq_refl eq_refl).
Defined.

(** ** Operations in sequence *)

(** X25: the tensor of a matrix cannot be contracted: whatever the matrix, the
    basis and the slots, when [tensor_from_matrix] returns a tensor, its type
    is (0, 2), one of its ranks is zero, and contraction refuses it with the
    rank error. *)
Theorem contract_indices_of_matrix_tensor (M : list (list Z)) (b : list string)
        (t : Tensor) (i j : Z) :
  tensor_from_matrix M b = Ok t ->
  contract_indices t i j = Raise (ValueError (Dimension_less_than_one (0, 2))).
Proof.
  intros H. unfold tensor_from_matrix in H.
  destruct (for_each _ _ _) as [d|e]; simpl in H; [|discriminate].
  apply Tensor_init_ok in H. destruct H as [_ ->]. reflexivity.
Qed.

Lemma contract_indices_of_matrix_tensor_witness :
  contract_indices (mkTensor basis2 0 2 (0, 2) (matrix_dict [[1; 2]; [3; 4]])) 0 0
  = Raise (ValueError (Dimension_less_than_one (0, 2))).
Proof.
  exact (contract_indices_of_matrix_tensor [[1; 2]; [3; 4]] basis2
           (mkTensor basis2 0 2 (0, 2) (matrix_dict [[1; 2]; [3; 4]])) 0 0 eq_refl).
Defined.

Lemma dict_in_set_other (k k' : index * index) (v : Z) (d : dict) :
  k' <> k -> dict_in k' (dict_set k v d) = dict_in k' d.
Proof. intros H. unfold dict_in. rewrite dict_get_set_other by assumption. reflexivity. Qed.

Lemma dict_in_set_present (k k' : index * index) (v : Z) (d : dict) :
  dict_in k d = true -> dict_in k' (dict_set k v d) = dict_in k' d.
Proof.
  intros Hk. destruct (key_eq_dec k' k) as [->|Hne].
  - unfold dict_in at 1. rewrite dict_get_set_same. symmetry. exact Hk.
  - apply dict_in_set_other. exact Hne.
Qed.

Lemma add_loop_keys (other_dict : dict) (ks : list (index * index)) (rd d : dict) :
  NoDup ks -> (forall k, In k ks -> In k (dict_keys other_dict)) ->
  for_each ks (add_key other_dict) rd = Ok d ->
  dict_keys d = dict_keys rd ++ filter (fun k => negb (dict_in k rd)) ks.
Proof.
  revert rd. induction ks as [|k0 ks IH]; intros rd Hnd Hin Hd; simpl in Hd.
  - injection Hd as <-. simpl. rewrite app_nil_r. reflexivity.
  - apply NoDup_cons_iff in Hnd. destruct Hnd as [Hn Hnd].
    destruct (dict_get k0 other_dict) as [y|] eqn:Ey.
    2:{ apply dict_get_None in Ey. exfalso. apply Ey, Hin. simpl. auto. }
    rewrite (add_key_set _ _ _ y Ey) in Hd. simpl in Hd.
    rewrite (IH _ Hnd (fun k Hk => Hin k (or_intror Hk)) Hd).
    rewrite dict_keys_set_list. cbn [filter].
    destruct (in_dec key_eq_dec k0 (dict_keys rd)) as [Hk0|Hk0].
    + assert (E : dict_in k0 rd = true) by (apply dict_in_true; exact Hk0).
      rewrite E. cbn [negb]. f_equal. apply filter_ext. intros k.
      rewrite dict_in_set_present by exact E. reflexivity.
    + assert (E : dict_in k0 rd = false).
      { destruct (dict_in k0 rd) eqn:E'; [|reflexivity].
        apply dict_in_true in E'. contradiction. }
      rewrite E. cbn [negb]. rewrite <- app_assoc. cbn [app]. do 2 f_equal.
      apply filter_ext_in. intros k Hk.
      rewrite dict_in_set_other; [reflexivity|]. intros ->. contradiction.
Qed.

(** X26: the map of a sum lists the keys of the left operand first, in their
    order, and then the keys that only the right operand has, in the order of
    the right operand. *)
Theorem Tensor_add_key_order (b : list string) (ty : Z * Z) (d1 d2 : dict)
        (t1 t2 : Tensor) :
  Tensor_init b ty d1 = Ok t1 -> Tensor_init b ty d2 = Ok t2 ->
  unique_keys d2 = true ->
  exists s, Tensor_add t1 (OTensor t2) = Ok s /\
            dict_keys (dict_of_values s)
            = dict_keys d1 ++ filter (fun k => negb (dict_in k d1)) (dict_keys d2).
Proof.
  intros I1 I2 Hu.
  apply Tensor_init_ok in I1. destruct I1 as [V1 ->].
  apply Tensor_init_ok in I2. destruct I2 as [V2 ->].
  assert (Hnd : NoDup (dict_keys d2)) by (apply unique_keys_NoDup, Hu).
  destruct (add_all_keys d1 d2 Hnd) as [d [Hd Hget]].
  exists (mkTensor b (fst ty) (snd ty) ty d). split.
  - unfold Tensor_add. simpl.
    rewrite (proj2 (basis_eqb_true b b) eq_refl), (proj2 (type_eqb_true ty ty) eq_refl).
    simpl. rewrite Hd. simpl. apply Tensor_init_ok. split; [|reflexivity].
    apply Forall_forall. intros k Hk. apply dict_keys_get in Hk.
    rewrite Hget in Hk. rewrite Forall_forall in V1, V2. unfold merged in Hk.
    destruct (dict_get k d1) eqn:E1.
    + apply V1, dict_keys_get. congruence.
    + destruct (dict_get k d2) eqn:E2; [|congruence].
      apply V2, dict_keys_get. congruence.
  - simpl. apply (add_loop_keys d2 (dict_keys d2) d1 d Hnd); auto.
Qed.

Lemma Tensor_add_key_order_witness :
  exists s,
    Tensor_add (mkTensor basis2 1 1 (1, 1) identity_like)
               (OTensor (mkTensor basis2 1 1 (1, 1) identity_like_reordered)) = Ok s /\
    dict_keys (dict_of_values s)
    = dict_keys identity_like
      ++ filter (fun k => negb (dict_in k identity_like))
                (dict_keys identity_like_reordered).
Proof.
  exact (Tensor_add_key_order basis2 (1, 1) identity_like identity_like_reordered
           (mkTensor basis2 1 1 (1, 1) identity_like)
           (mkTensor basis2 1 1 (1, 1) identity_like_reordered)
           eq_refl eq_refl eq_refl).
Defined.

(** X27: on a tensor the constructor returned for the type [(t0, t1)], the
    guards of contraction read the type in this way: the rank error is raised
    when [t0 < 1] or [t1 < 1]; otherwise the contravariant-slot error is
    raised when [i] is outside [[0, t1)]; otherwise the covariant-slot error
    is raised when [j] is outside [[0, t0)]; and when [1 <= t0], [1 <= t1],
    [0 <= i < t1] and [0 <= j < t0] none of these three errors is raised. *)
Theorem contract_indices_guards_on_type (b : list string) (ty : Z * Z) (d : dict)
        (t : Tensor) (i j : Z) :
  Tensor_init b ty d = Ok t ->
  (fst ty < 1 \/ snd ty < 1 ->
   contract_indices t i j = Raise (ValueError (Dimension_less_than_one ty))) /\
  (1 <= fst ty -> 1 <= snd ty -> ~ 0 <= i < snd ty ->
   contract_indices t i j = Raise (ValueError (Contravariant_slot i (snd ty - 1)))) /\
  (1 <= fst ty -> 1 <= snd ty -> 0 <= i < snd ty -> ~ 0 <= j < fst ty ->
   contract_indices t i j = Raise (ValueError (Covariant_slot j (fst ty - 1)))) /\
  (1 <= fst ty -> 1 <= snd ty -> 0 <= i < snd ty -> 0 <= j < fst ty ->
   forall e, contract_indices t i j = Raise e -> precondition_error e = false).
Proof.
  intros I. apply Tensor_init_ok in I. destruct I as [_ ->].
  destruct (contract_indices_guards (mkTensor b (fst ty) (snd ty) ty d) i j)
    as [H1 [H2 [H3 [H4 _]]]].
  cbn [contravariant_dim covariant_dim type] in H1, H2, H3, H4.
  split; [intros H; apply H1; tauto|].
  split; [intros Hp Hq Hi; apply H2; assumption|].
  split; [intros Hp Hq Hi Hj; apply H3; assumption|].
  intros Hp Hq Hi Hj. apply H4; assumption.
Qed.

Lemma contract_indices_guards_on_type_witness :
  contract_indices (mkTensor basis2 2 3 (2, 3) []) 0 2
  = Raise (ValueError (Covariant_slot 2 (2 - 1))).
Proof.
  refine (proj1 (proj2 (proj2
            (contract_indices_guards_on_type basis2 (2, 3) []
               (mkTensor basis2 2 3 (2, 3) []) 0 2 eq_refl))) _ _ _ _);
    simpl; lia.
Defined.
